(** * CanvasTextLayer: the canvas text-layer renderer of extraterm

    A shallow embedding of
    [packages/extraterm-ace-terminal-renderer/src/CanvasTextLayer.ts].

    Conventions of the embedding.
    - A JavaScript [number] holding a pixel length or a ratio is a rational
      ([Q]): every finite double is one.  [Math.ceil] is [Qceiling],
      [Math.round] is [fun x => Qfloor (x + 1/2)]; both are exact on
      doubles.  The products and the sum by which [_setUpRenderCanvas] and
      [_createCanvas] size the canvas are the machine's: the exact result
      rounded to the nearest double ([JS.mul], [JS.add]); a rational that
      is not a double is read as the double nearest to it.  The quotient
      and the products of [_computeDevicePixelRatioPair], taken of a length
      and the two integers of a fraction, are left exact.  Infinities and
      NaN are not modelled.
    - Row and column indices, palette indices, style masks and link
      identifiers are integers ([Z]).
    - [null] is [None].
    - A method is a function from the layer before the call to the layer
      after it.  A method that can throw or that runs the [while (true)]
      loop of [_getVisibleRows] returns an [Outcome].
    - The collaborators that live outside this file (the cell grid, the
      terminal line, the edit session, the ligature marker, the render
      canvas) are modelled by records; what is known about them only from
      the specification is marked as such.

    Part I holds the definitions, Part II the facts proved about them. *)

From Stdlib Require Import ZArith QArith Qround Qminmax Qabs Qpower Lqa Lia.
From Stdlib Require Import String List Bool.
Import ListNotations.

Local Open Scope Z_scope.

(** * Part I: definitions *)

(** ** JavaScript numbers *)

Module JS.

(** [Math.ceil] on a rational, as a rational. *)
Definition ceil (x : Q) : Q := inject_Z (Qceiling x).

(** [Math.round]: the nearest integer, halves rounded up. *)
Definition round (x : Q) : Q := inject_Z (Qfloor (x + (1#2))).

(** [Math.max] on two numbers. *)
Definition max (x y : Q) : Q := Qmax x y.

(** [a >= b] on numbers. *)
Definition geb (a b : Q) : bool := Qle_bool b a.

(** *** Doubles

    A finite double is a rational [m * 2^e] with [|m| < 2^53] and
    [e >= -1074].  The arithmetic operators return the double nearest to
    the exact result, a tie going to the even significand. *)

Definition pow2 (e : Z) : Q := (2 ^ e)%Q.

(** The binade of a positive number [a]: the [e] with
    [2^e <= a < 2^(e+1)].  The difference of the two bit lengths is that
    [e] or one more. *)
Definition binade (a : Q) : Z :=
  let e := Z.log2 (Qnum a) - Z.log2 (Zpos (Qden a)) in
  if Qle_bool (pow2 e) a then e else e - 1.

(** The nearest integer, a half going to the even neighbour. *)
Definition nearestInteger (x : Q) : Z :=
  let f := Qfloor x in
  match (x - inject_Z f ?= 1 # 2)%Q with
  | Lt => f
  | Gt => f + 1
  | Eq => if Z.even f then f else f + 1
  end.

(** The distance between the doubles around [x]: 52 binary places below
    the binade of [x], the binades below [2^-1022] sharing one spacing. *)
Definition ulp (x : Q) : Q := pow2 (Z.max (binade (Qabs x)) (-1022) - 52).

(** The double nearest to [x]. *)
Definition nearest (x : Q) : Q :=
  if Qeq_bool x 0 then 0%Q
  else (inject_Z (nearestInteger (x / ulp x)) * ulp x)%Q.

(** [a * b] and [a + b] on numbers: the exact result of the two doubles,
    rounded.  An operand that is not a double stands for the double
    nearest to it, as a decimal literal does; rounding changes no double
    ([nearest_idempotent]). *)
Definition mul (a b : Q) : Q := nearest (nearest a * nearest b).

Definition add (a b : Q) : Q := nearest (nearest a + nearest b).

(** The value of a decimal literal, such as [16.6]. *)
Definition literal (x : Q) : Q := nearest x.

(** [for (let i = lo; i < hi; i++) body(i)], the bound being fixed. *)
Fixpoint for_loop {S : Type} (n : nat) (i : Z) (body : Z -> S -> S) (s : S) : S :=
  match n with
  | O => s
  | Datatypes.S n' => for_loop n' (i + 1) body (body i s)
  end.

Definition for_range {S : Type} (lo hi : Z) (body : Z -> S -> S) (s : S) : S :=
  for_loop (Z.to_nat (hi - lo)) lo body s.

(** [a !== b] on values that are a string or [null]. *)
Definition strict_neq (a b : option string) : bool :=
  match a, b with
  | None, None => false
  | Some x, Some y => negb (String.eqb x y)
  | _, _ => true
  end.

End JS.

Arguments JS.nearest : simpl never.
Arguments JS.mul : simpl never.
Arguments JS.add : simpl never.

(** ** Data model *)

(** Outcome of running a method: it returns, it throws a [TypeError] (a
    property read on [null]), or the fuel given to a [while (true)] loop
    ran out before the loop reached its [break]. *)
Inductive Outcome (A : Type) : Type :=
| Ok (a : A)
| TypeError
| OutOfFuel.

Arguments Ok {A} a.
Arguments TypeError {A}.
Arguments OutOfFuel {A}.

Definition bind {A B : Type} (m : Outcome A) (k : A -> Outcome B) : Outcome B :=
  match m with
  | Ok a => k a
  | TypeError => TypeError
  | OutOfFuel => OutOfFuel
  end.

Declare Scope outcome_scope.
Delimit Scope outcome_scope with outcome.
Notation "x <- m ;; k" := (bind m (fun x => k))
  (at level 61, m at next level, right associativity) : outcome_scope.
Local Open Scope outcome_scope.

(** [Position] of the editor: [{ row, column }]. *)
Record Position := mkPosition {
  row : Z;
  column : Z
}.

(** [FoldLine]: the fields [start] and [end] read by the layer. *)
Record FoldLine := mkFoldLine {
  fold_start : Position;
  fold_end : Position
}.

(** [LayerConfig]: the fields read by the layer. *)
Record LayerConfig := mkLayerConfig {
  firstRow : Z;
  lastRow : Z;
  charHeightPx : Q
}.

Record ViewPortSize := mkViewPortSize {
  widthPx : Q
}.

(** Modelled from the spec: a cell of [CharCellGrid] (package
    [extraterm-char-cell-grid], not among the sources) carries "a codepoint,
    foreground/background color-palette indices, a style bitmask (including
    a hyperlink highlight bit), and an optional link identifier".  The
    [ligature] field is the span mark left by the ligature marker. *)
Record Cell := mkCell {
  codePoint : Z;
  fgClutIndex : Z;
  bgClutIndex : Z;
  style : Z;
  linkID : Z;
  ligature : Z
}.

(** Two cells paint the same: they agree on everything but the ligature
    mark. *)
Definition same_paint (c d : Cell) : Prop :=
  codePoint c = codePoint d /\ fgClutIndex c = fgClutIndex d /\
  bgClutIndex c = bgClutIndex d /\ style c = style d /\ linkID c = linkID d.

(** Modelled from the spec: [CharCellGrid], "a 2-D grid of fixed-size
    cells".  Cells are addressed by column [x] and row [y]; a write outside
    [0 <= x < width], [0 <= y < height] changes nothing. *)
Record CharCellGrid := mkCharCellGrid {
  width : Z;
  height : Z;
  cells : Z -> Z -> Cell
}.

(** Modelled from the spec: the operations of [CharCellGrid] that the layer
    calls.  [pasteGrid] copies "cell-for-cell, preserving
    codepoint/colors/style/link-id"; the setters change the one field they
    name. *)
Module Grid.

Definition inside (g : CharCellGrid) (x y : Z) : bool :=
  (0 <=? x) && (x <? width g) && (0 <=? y) && (y <? height g).

Definition getCell (g : CharCellGrid) (x y : Z) : Cell := cells g x y.

Definition setCell (g : CharCellGrid) (x y : Z) (c : Cell) : CharCellGrid :=
  if inside g x y then
    {| width := width g; height := height g;
       cells := fun x' y' => if (x' =? x) && (y' =? y) then c else cells g x' y' |}
  else g.

Definition getLinkID (g : CharCellGrid) (x y : Z) : Z := linkID (getCell g x y).

Definition getStyle (g : CharCellGrid) (x y : Z) : Z := style (getCell g x y).

Definition with_style (c : Cell) (s : Z) : Cell :=
  {| codePoint := codePoint c; fgClutIndex := fgClutIndex c;
     bgClutIndex := bgClutIndex c; style := s; linkID := linkID c;
     ligature := ligature c |}.

Definition with_bgClutIndex (c : Cell) (i : Z) : Cell :=
  {| codePoint := codePoint c; fgClutIndex := fgClutIndex c;
     bgClutIndex := i; style := style c; linkID := linkID c;
     ligature := ligature c |}.

Definition setStyle (g : CharCellGrid) (x y : Z) (s : Z) : CharCellGrid :=
  setCell g x y (with_style (getCell g x y) s).

Definition setBgClutIndex (g : CharCellGrid) (x y : Z) (i : Z) : CharCellGrid :=
  setCell g x y (with_bgClutIndex (getCell g x y) i).

(** [pasteGrid(sourceGrid, destX, destY)]: the source's cells are copied
    cell for cell, clipped to the destination. *)
Definition pasteGrid (g src : CharCellGrid) (destX destY : Z) : CharCellGrid :=
  {| width := width g; height := height g;
     cells := fun x y =>
       if inside g x y && inside src (x - destX) (y - destY)
       then cells src (x - destX) (y - destY)
       else cells g x y |}.

End Grid.

(** [TerminalLine]: a one-row cell grid together with the two link
    look-ups the layer calls.  [getLinkIDByURL] answers [0] for an unknown
    URL. *)
Record TerminalLine := mkTerminalLine {
  lineGrid : CharCellGrid;
  getLinkIDByURL : string -> Z;
  getLinkURLByID : Z -> option string
}.

Definition lineWidth (l : TerminalLine) : Z := width (lineGrid l).

(** [TerminalCanvasEditSession]: the three methods the layer calls. *)
Record EditSession := mkEditSession {
  getTerminalLine : Z -> option TerminalLine;
  getLine : Z -> string;
  getNextFoldLine : Z -> option FoldLine -> option FoldLine
}.

(** [LigatureMarker]: the one method the layer calls. *)
Record LigatureMarker := mkLigatureMarker {
  markLigaturesCharCellGridRow : CharCellGrid -> Z -> string -> CharCellGrid
}.

(** [CursorStyle] is an enum of [extraterm-char-render-canvas]; the layer
    names only [BLOCK]. *)
Inductive CursorStyle : Type :=
| BLOCK
| OtherCursorStyle (tag : nat).

(** The two code-point tables at the end of the file, by name. *)
Inductive CodePointTable : Type :=
| twemojiCodePoints
| windowsColorFontCodePoints.

Record ExtraFont := mkExtraFont {
  extraFontFamily : string;
  extraFontSizePx : Q;
  unicodeCodePoints : CodePointTable;
  sampleChars : list Z
}.

(** The options object handed to [new WebGLCharRenderCanvas(...)]. *)
Record CanvasOptions := mkCanvasOptions {
  opt_fontFamily : string;
  opt_fontSizePx : Q;
  opt_palette : list Z;
  opt_widthPx : Q;
  opt_heightPx : Q;
  opt_usableWidthPx : Q;
  opt_usableHeightPx : Q;
  opt_extraFonts : list ExtraFont;
  opt_cursorStyle : CursorStyle;
  opt_transparentBackground : bool
}.

(** A live [WebGLCharRenderCanvas].  [canvasId] is the identity of the
    object; [elementWidth] and [elementHeight] are the CSS size given to
    its canvas element, in pixels. *)
Record WebGLCharRenderCanvas := mkCanvas {
  canvasId : nat;
  canvasOptions : CanvasOptions;
  cellGrid : CharCellGrid;
  canvasPalette : list Z;
  canvasCursorStyle : CursorStyle;
  elementWidth : option Q;
  elementHeight : option Q
}.

(** Calls received by the render canvases, oldest first. *)
Inductive CanvasCall : Type :=
| Created (id : nat) (options : CanvasOptions)
| Disposed (id : nat)
| Rendered (id : nat)
| PaletteSet (id : nat) (palette : list Z)
| CursorStyleSet (id : nat) (cursorStyle : CursorStyle)
| ScrolledVertical (id : nat) (deltaRows : Z).

(** What the layer needs from outside the file. *)
Class Imports := {
  (** [PALETTE_BG_INDEX] of [WebGLCharRenderCanvas]. *)
  PALETTE_BG_INDEX : Z;
  (** [STYLE_MASK_HYPERLINK_HIGHLIGHT] of [extraterm-char-cell-grid]. *)
  STYLE_MASK_HYPERLINK_HIGHLIGHT : Z;
  (** The cell that [clearCell] writes. *)
  clearedCell : Cell;
  (** [ratioToFraction] of [./RatioToFraction]. *)
  ratioToFraction : Q -> Z * Z;
  (** The cell grid a fresh render canvas comes with. *)
  newCellGrid : CanvasOptions -> CharCellGrid;
  (** What [scrollVertical] of the render canvas does to its cell grid. *)
  scrollVertical : CharCellGrid -> Z -> CharCellGrid;
  (** [process.platform === "win32"]. *)
  isWindows : bool
}.

(** ** The layer object

    The fields of [CanvasTextLayer] keep their names ([hoveredURL] is the
    private [#hoveredURL]).  The last five fields are the part of the
    environment the methods act on: the CSS width and height of [_clipDiv]
    in pixels ([None] while unset), the canvas elements attached under
    [_clipDiv] (by canvas identity), the number of render canvases
    constructed so far (the next identity), and the calls the render
    canvases have received. *)
Record CanvasTextLayer := mkCanvasTextLayer {
  _charRenderCanvas : option WebGLCharRenderCanvas;
  _canvasWidthCssPx : Q;
  _canvasHeightCssPx : Q;
  _currentCanvasRawWidthPx : Q;
  _ligatureMarker : option LigatureMarker;
  _editSession : option EditSession;
  _lastConfig : option LayerConfig;
  _lastViewPortSize : option ViewPortSize;
  _palette : list Z;
  _fontFamily : string;
  _fontSizePx : Q;
  _devicePixelRatio : Q;
  _cursorStyle : CursorStyle;
  _transparentBackground : bool;
  hoveredURL : option string;
  clipWidth : option Q;
  clipHeight : option Q;
  clipChildren : list nat;
  canvasCount : nat;
  canvasCalls : list CanvasCall
}.

Module Upd.

Definition set_charRenderCanvas (this : CanvasTextLayer) (v : option WebGLCharRenderCanvas) : CanvasTextLayer :=
  {| _charRenderCanvas := v; _canvasWidthCssPx := _canvasWidthCssPx this;
     _canvasHeightCssPx := _canvasHeightCssPx this;
     _currentCanvasRawWidthPx := _currentCanvasRawWidthPx this;
     _ligatureMarker := _ligatureMarker this;
     _editSession := _editSession this; _lastConfig := _lastConfig this;
     _lastViewPortSize := _lastViewPortSize this; _palette := _palette this;
     _fontFamily := _fontFamily this; _fontSizePx := _fontSizePx this;
     _devicePixelRatio := _devicePixelRatio this;
     _cursorStyle := _cursorStyle this;
     _transparentBackground := _transparentBackground this;
     hoveredURL := hoveredURL this; clipWidth := clipWidth this;
     clipHeight := clipHeight this; clipChildren := clipChildren this;
     canvasCount := canvasCount this; canvasCalls := canvasCalls this |}.

Definition set_canvasWidthCssPx (this : CanvasTextLayer) (v : Q) : CanvasTextLayer :=
  {| _charRenderCanvas := _charRenderCanvas this; _canvasWidthCssPx := v;
     _canvasHeightCssPx := _canvasHeightCssPx this;
     _currentCanvasRawWidthPx := _currentCanvasRawWidthPx this;
     _ligatureMarker := _ligatureMarker this;
     _editSession := _editSession this; _lastConfig := _lastConfig this;
     _lastViewPortSize := _lastViewPortSize this; _palette := _palette this;
     _fontFamily := _fontFamily this; _fontSizePx := _fontSizePx this;
     _devicePixelRatio := _devicePixelRatio this;
     _cursorStyle := _cursorStyle this;
     _transparentBackground := _transparentBackground this;
     hoveredURL := hoveredURL this; clipWidth := clipWidth this;
     clipHeight := clipHeight this; clipChildren := clipChildren this;
     canvasCount := canvasCount this; canvasCalls := canvasCalls this |}.

Definition set_canvasHeightCssPx (this : CanvasTextLayer) (v : Q) : CanvasTextLayer :=
  {| _charRenderCanvas := _charRenderCanvas this;
     _canvasWidthCssPx := _canvasWidthCssPx this; _canvasHeightCssPx := v;
     _currentCanvasRawWidthPx := _currentCanvasRawWidthPx this;
     _ligatureMarker := _ligatureMarker this;
     _editSession := _editSession this; _lastConfig := _lastConfig this;
     _lastViewPortSize := _lastViewPortSize this; _palette := _palette this;
     _fontFamily := _fontFamily this; _fontSizePx := _fontSizePx this;
     _devicePixelRatio := _devicePixelRatio this;
     _cursorStyle := _cursorStyle this;
     _transparentBackground := _transparentBackground this;
     hoveredURL := hoveredURL this; clipWidth := clipWidth this;
     clipHeight := clipHeight this; clipChildren := clipChildren this;
     canvasCount := canvasCount this; canvasCalls := canvasCalls this |}.

Definition set_currentCanvasRawWidthPx (this : CanvasTextLayer) (v : Q) : CanvasTextLayer :=
  {| _charRenderCanvas := _charRenderCanvas this;
     _canvasWidthCssPx := _canvasWidthCssPx this;
     _canvasHeightCssPx := _canvasHeightCssPx this;
     _currentCanvasRawWidthPx := v; _ligatureMarker := _ligatureMarker this;
     _editSession := _editSession this; _lastConfig := _lastConfig this;
     _lastViewPortSize := _lastViewPortSize this; _palette := _palette this;
     _fontFamily := _fontFamily this; _fontSizePx := _fontSizePx this;
     _devicePixelRatio := _devicePixelRatio this;
     _cursorStyle := _cursorStyle this;
     _transparentBackground := _transparentBackground this;
     hoveredURL := hoveredURL this; clipWidth := clipWidth this;
     clipHeight := clipHeight this; clipChildren := clipChildren this;
     canvasCount := canvasCount this; canvasCalls := canvasCalls this |}.

Definition set_ligatureMarker (this : CanvasTextLayer) (v : option LigatureMarker) : CanvasTextLayer :=
  {| _charRenderCanvas := _charRenderCanvas this;
     _canvasWidthCssPx := _canvasWidthCssPx this;
     _canvasHeightCssPx := _canvasHeightCssPx this;
     _currentCanvasRawWidthPx := _currentCanvasRawWidthPx this;
     _ligatureMarker := v; _editSession := _editSession this;
     _lastConfig := _lastConfig this;
     _lastViewPortSize := _lastViewPortSize this; _palette := _palette this;
     _fontFamily := _fontFamily this; _fontSizePx := _fontSizePx this;
     _devicePixelRatio := _devicePixelRatio this;
     _cursorStyle := _cursorStyle this;
     _transparentBackground := _transparentBackground this;
     hoveredURL := hoveredURL this; clipWidth := clipWidth this;
     clipHeight := clipHeight this; clipChildren := clipChildren this;
     canvasCount := canvasCount this; canvasCalls := canvasCalls this |}.

Definition set_editSession (this : CanvasTextLayer) (v : option EditSession) : CanvasTextLayer :=
  {| _charRenderCanvas := _charRenderCanvas this;
     _canvasWidthCssPx := _canvasWidthCssPx this;
     _canvasHeightCssPx := _canvasHeightCssPx this;
     _currentCanvasRawWidthPx := _currentCanvasRawWidthPx this;
     _ligatureMarker := _ligatureMarker this; _editSession := v;
     _lastConfig := _lastConfig this;
     _lastViewPortSize := _lastViewPortSize this; _palette := _palette this;
     _fontFamily := _fontFamily this; _fontSizePx := _fontSizePx this;
     _devicePixelRatio := _devicePixelRatio this;
     _cursorStyle := _cursorStyle this;
     _transparentBackground := _transparentBackground this;
     hoveredURL := hoveredURL this; clipWidth := clipWidth this;
     clipHeight := clipHeight this; clipChildren := clipChildren this;
     canvasCount := canvasCount this; canvasCalls := canvasCalls this |}.

Definition set_lastConfig (this : CanvasTextLayer) (v : option LayerConfig) : CanvasTextLayer :=
  {| _charRenderCanvas := _charRenderCanvas this;
     _canvasWidthCssPx := _canvasWidthCssPx this;
     _canvasHeightCssPx := _canvasHeightCssPx this;
     _currentCanvasRawWidthPx := _currentCanvasRawWidthPx this;
     _ligatureMarker := _ligatureMarker this;
     _editSession := _editSession this; _lastConfig := v;
     _lastViewPortSize := _lastViewPortSize this; _palette := _palette this;
     _fontFamily := _fontFamily this; _fontSizePx := _fontSizePx this;
     _devicePixelRatio := _devicePixelRatio this;
     _cursorStyle := _cursorStyle this;
     _transparentBackground := _transparentBackground this;
     hoveredURL := hoveredURL this; clipWidth := clipWidth this;
     clipHeight := clipHeight this; clipChildren := clipChildren this;
     canvasCount := canvasCount this; canvasCalls := canvasCalls this |}.

Definition set_lastViewPortSize (this : CanvasTextLayer) (v : option ViewPortSize) : CanvasTextLayer :=
  {| _charRenderCanvas := _charRenderCanvas this;
     _canvasWidthCssPx := _canvasWidthCssPx this;
     _canvasHeightCssPx := _canvasHeightCssPx this;
     _currentCanvasRawWidthPx := _currentCanvasRawWidthPx this;
     _ligatureMarker := _ligatureMarker this;
     _editSession := _editSession this; _lastConfig := _lastConfig this;
     _lastViewPortSize := v; _palette := _palette this;
     _fontFamily := _fontFamily this; _fontSizePx := _fontSizePx this;
     _devicePixelRatio := _devicePixelRatio this;
     _cursorStyle := _cursorStyle this;
     _transparentBackground := _transparentBackground this;
     hoveredURL := hoveredURL this; clipWidth := clipWidth this;
     clipHeight := clipHeight this; clipChildren := clipChildren this;
     canvasCount := canvasCount this; canvasCalls := canvasCalls this |}.

Definition set_palette (this : CanvasTextLayer) (v : list Z) : CanvasTextLayer :=
  {| _charRenderCanvas := _charRenderCanvas this;
     _canvasWidthCssPx := _canvasWidthCssPx this;
     _canvasHeightCssPx := _canvasHeightCssPx this;
     _currentCanvasRawWidthPx := _currentCanvasRawWidthPx this;
     _ligatureMarker := _ligatureMarker this;
     _editSession := _editSession this; _lastConfig := _lastConfig this;
     _lastViewPortSize := _lastViewPortSize this; _palette := v;
     _fontFamily := _fontFamily this; _fontSizePx := _fontSizePx this;
     _devicePixelRatio := _devicePixelRatio this;
     _cursorStyle := _cursorStyle this;
     _transparentBackground := _transparentBackground this;
     hoveredURL := hoveredURL this; clipWidth := clipWidth this;
     clipHeight := clipHeight this; clipChildren := clipChildren this;
     canvasCount := canvasCount this; canvasCalls := canvasCalls this |}.

Definition set_fontFamily (this : CanvasTextLayer) (v : string) : CanvasTextLayer :=
  {| _charRenderCanvas := _charRenderCanvas this;
     _canvasWidthCssPx := _canvasWidthCssPx this;
     _canvasHeightCssPx := _canvasHeightCssPx this;
     _currentCanvasRawWidthPx := _currentCanvasRawWidthPx this;
     _ligatureMarker := _ligatureMarker this;
     _editSession := _editSession this; _lastConfig := _lastConfig this;
     _lastViewPortSize := _lastViewPortSize this; _palette := _palette this;
     _fontFamily := v; _fontSizePx := _fontSizePx this;
     _devicePixelRatio := _devicePixelRatio this;
     _cursorStyle := _cursorStyle this;
     _transparentBackground := _transparentBackground this;
     hoveredURL := hoveredURL this; clipWidth := clipWidth this;
     clipHeight := clipHeight this; clipChildren := clipChildren this;
     canvasCount := canvasCount this; canvasCalls := canvasCalls this |}.

Definition set_fontSizePx (this : CanvasTextLayer) (v : Q) : CanvasTextLayer :=
  {| _charRenderCanvas := _charRenderCanvas this;
     _canvasWidthCssPx := _canvasWidthCssPx this;
     _canvasHeightCssPx := _canvasHeightCssPx this;
     _currentCanvasRawWidthPx := _currentCanvasRawWidthPx this;
     _ligatureMarker := _ligatureMarker this;
     _editSession := _editSession this; _lastConfig := _lastConfig this;
     _lastViewPortSize := _lastViewPortSize this; _palette := _palette this;
     _fontFamily := _fontFamily this; _fontSizePx := v;
     _devicePixelRatio := _devicePixelRatio this;
     _cursorStyle := _cursorStyle this;
     _transparentBackground := _transparentBackground this;
     hoveredURL := hoveredURL this; clipWidth := clipWidth this;
     clipHeight := clipHeight this; clipChildren := clipChildren this;
     canvasCount := canvasCount this; canvasCalls := canvasCalls this |}.

Definition set_devicePixelRatio (this : CanvasTextLayer) (v : Q) : CanvasTextLayer :=
  {| _charRenderCanvas := _charRenderCanvas this;
     _canvasWidthCssPx := _canvasWidthCssPx this;
     _canvasHeightCssPx := _canvasHeightCssPx this;
     _currentCanvasRawWidthPx := _currentCanvasRawWidthPx this;
     _ligatureMarker := _ligatureMarker this;
     _editSession := _editSession this; _lastConfig := _lastConfig this;
     _lastViewPortSize := _lastViewPortSize this; _palette := _palette this;
     _fontFamily := _fontFamily this; _fontSizePx := _fontSizePx this;
     _devicePixelRatio := v; _cursorStyle := _cursorStyle this;
     _transparentBackground := _transparentBackground this;
     hoveredURL := hoveredURL this; clipWidth := clipWidth this;
     clipHeight := clipHeight this; clipChildren := clipChildren this;
     canvasCount := canvasCount this; canvasCalls := canvasCalls this |}.

Definition set_cursorStyle (this : CanvasTextLayer) (v : CursorStyle) : CanvasTextLayer :=
  {| _charRenderCanvas := _charRenderCanvas this;
     _canvasWidthCssPx := _canvasWidthCssPx this;
     _canvasHeightCssPx := _canvasHeightCssPx this;
     _currentCanvasRawWidthPx := _currentCanvasRawWidthPx this;
     _ligatureMarker := _ligatureMarker this;
     _editSession := _editSession this; _lastConfig := _lastConfig this;
     _lastViewPortSize := _lastViewPortSize this; _palette := _palette this;
     _fontFamily := _fontFamily this; _fontSizePx := _fontSizePx this;
     _devicePixelRatio := _devicePixelRatio this; _cursorStyle := v;
     _transparentBackground := _transparentBackground this;
     hoveredURL := hoveredURL this; clipWidth := clipWidth this;
     clipHeight := clipHeight this; clipChildren := clipChildren this;
     canvasCount := canvasCount this; canvasCalls := canvasCalls this |}.

Definition set_transparentBackground (this : CanvasTextLayer) (v : bool) : CanvasTextLayer :=
  {| _charRenderCanvas := _charRenderCanvas this;
     _canvasWidthCssPx := _canvasWidthCssPx this;
     _canvasHeightCssPx := _canvasHeightCssPx this;
     _currentCanvasRawWidthPx := _currentCanvasRawWidthPx this;
     _ligatureMarker := _ligatureMarker this;
     _editSession := _editSession this; _lastConfig := _lastConfig this;
     _lastViewPortSize := _lastViewPortSize this; _palette := _palette this;
     _fontFamily := _fontFamily this; _fontSizePx := _fontSizePx this;
     _devicePixelRatio := _devicePixelRatio this;
     _cursorStyle := _cursorStyle this; _transparentBackground := v;
     hoveredURL := hoveredURL this; clipWidth := clipWidth this;
     clipHeight := clipHeight this; clipChildren := clipChildren this;
     canvasCount := canvasCount this; canvasCalls := canvasCalls this |}.

Definition set_hoveredURL (this : CanvasTextLayer) (v : option string) : CanvasTextLayer :=
  {| _charRenderCanvas := _charRenderCanvas this;
     _canvasWidthCssPx := _canvasWidthCssPx this;
     _canvasHeightCssPx := _canvasHeightCssPx this;
     _currentCanvasRawWidthPx := _currentCanvasRawWidthPx this;
     _ligatureMarker := _ligatureMarker this;
     _editSession := _editSession this; _lastConfig := _lastConfig this;
     _lastViewPortSize := _lastViewPortSize this; _palette := _palette this;
     _fontFamily := _fontFamily this; _fontSizePx := _fontSizePx this;
     _devicePixelRatio := _devicePixelRatio this;
     _cursorStyle := _cursorStyle this;
     _transparentBackground := _transparentBackground this; hoveredURL := v;
     clipWidth := clipWidth this; clipHeight := clipHeight this;
     clipChildren := clipChildren this; canvasCount := canvasCount this;
     canvasCalls := canvasCalls this |}.

Definition set_clipWidth (this : CanvasTextLayer) (v : option Q) : CanvasTextLayer :=
  {| _charRenderCanvas := _charRenderCanvas this;
     _canvasWidthCssPx := _canvasWidthCssPx this;
     _canvasHeightCssPx := _canvasHeightCssPx this;
     _currentCanvasRawWidthPx := _currentCanvasRawWidthPx this;
     _ligatureMarker := _ligatureMarker this;
     _editSession := _editSession this; _lastConfig := _lastConfig this;
     _lastViewPortSize := _lastViewPortSize this; _palette := _palette this;
     _fontFamily := _fontFamily this; _fontSizePx := _fontSizePx this;
     _devicePixelRatio := _devicePixelRatio this;
     _cursorStyle := _cursorStyle this;
     _transparentBackground := _transparentBackground this;
     hoveredURL := hoveredURL this; clipWidth := v;
     clipHeight := clipHeight this; clipChildren := clipChildren this;
     canvasCount := canvasCount this; canvasCalls := canvasCalls this |}.

Definition set_clipHeight (this : CanvasTextLayer) (v : option Q) : CanvasTextLayer :=
  {| _charRenderCanvas := _charRenderCanvas this;
     _canvasWidthCssPx := _canvasWidthCssPx this;
     _canvasHeightCssPx := _canvasHeightCssPx this;
     _currentCanvasRawWidthPx := _currentCanvasRawWidthPx this;
     _ligatureMarker := _ligatureMarker this;
     _editSession := _editSession this; _lastConfig := _lastConfig this;
     _lastViewPortSize := _lastViewPortSize this; _palette := _palette this;
     _fontFamily := _fontFamily this; _fontSizePx := _fontSizePx this;
     _devicePixelRatio := _devicePixelRatio this;
     _cursorStyle := _cursorStyle this;
     _transparentBackground := _transparentBackground this;
     hoveredURL := hoveredURL this; clipWidth := clipWidth this;
     clipHeight := v; clipChildren := clipChildren this;
     canvasCount := canvasCount this; canvasCalls := canvasCalls this |}.

Definition set_clipChildren (this : CanvasTextLayer) (v : list nat) : CanvasTextLayer :=
  {| _charRenderCanvas := _charRenderCanvas this;
     _canvasWidthCssPx := _canvasWidthCssPx this;
     _canvasHeightCssPx := _canvasHeightCssPx this;
     _currentCanvasRawWidthPx := _currentCanvasRawWidthPx this;
     _ligatureMarker := _ligatureMarker this;
     _editSession := _editSession this; _lastConfig := _lastConfig this;
     _lastViewPortSize := _lastViewPortSize this; _palette := _palette this;
     _fontFamily := _fontFamily this; _fontSizePx := _fontSizePx this;
     _devicePixelRatio := _devicePixelRatio this;
     _cursorStyle := _cursorStyle this;
     _transparentBackground := _transparentBackground this;
     hoveredURL := hoveredURL this; clipWidth := clipWidth this;
     clipHeight := clipHeight this; clipChildren := v;
     canvasCount := canvasCount this; canvasCalls := canvasCalls this |}.

Definition set_canvasCount (this : CanvasTextLayer) (v : nat) : CanvasTextLayer :=
  {| _charRenderCanvas := _charRenderCanvas this;
     _canvasWidthCssPx := _canvasWidthCssPx this;
     _canvasHeightCssPx := _canvasHeightCssPx this;
     _currentCanvasRawWidthPx := _currentCanvasRawWidthPx this;
     _ligatureMarker := _ligatureMarker this;
     _editSession := _editSession this; _lastConfig := _lastConfig this;
     _lastViewPortSize := _lastViewPortSize this; _palette := _palette this;
     _fontFamily := _fontFamily this; _fontSizePx := _fontSizePx this;
     _devicePixelRatio := _devicePixelRatio this;
     _cursorStyle := _cursorStyle this;
     _transparentBackground := _transparentBackground this;
     hoveredURL := hoveredURL this; clipWidth := clipWidth this;
     clipHeight := clipHeight this; clipChildren := clipChildren this;
     canvasCount := v; canvasCalls := canvasCalls this |}.

Definition set_canvasCalls (this : CanvasTextLayer) (v : list CanvasCall) : CanvasTextLayer :=
  {| _charRenderCanvas := _charRenderCanvas this;
     _canvasWidthCssPx := _canvasWidthCssPx this;
     _canvasHeightCssPx := _canvasHeightCssPx this;
     _currentCanvasRawWidthPx := _currentCanvasRawWidthPx this;
     _ligatureMarker := _ligatureMarker this;
     _editSession := _editSession this; _lastConfig := _lastConfig this;
     _lastViewPortSize := _lastViewPortSize this; _palette := _palette this;
     _fontFamily := _fontFamily this; _fontSizePx := _fontSizePx this;
     _devicePixelRatio := _devicePixelRatio this;
     _cursorStyle := _cursorStyle this;
     _transparentBackground := _transparentBackground this;
     hoveredURL := hoveredURL this; clipWidth := clipWidth this;
     clipHeight := clipHeight this; clipChildren := clipChildren this;
     canvasCount := canvasCount this; canvasCalls := v |}.

End Upd.

(** ** The methods *)

Definition PROVISION_HEIGHT_FACTOR : Q := 3 # 2.

(** The result object [{ screenLength, renderLength }]. *)
Record LengthPair := mkLengthPair {
  screenLength : Q;
  renderLength : Q
}.

(** The constructor's [options]. *)
Record CanvasTextLayerOptions := mkOptions {
  o_palette : option (list Z);
  o_fontFamily : string;
  o_fontSizePx : Q;
  o_devicePixelRatio : Q;
  o_cursorStyle : CursorStyle;
  o_ligatureMarker : option LigatureMarker;
  o_transparentBackground : bool
}.

(** The value of [foldStart]: a row, or [Infinity]. *)
Inductive RowOrInfinity : Type :=
| Row (r : Z)
| Infinity.

Section Methods.

Context {imports : Imports}.

(** *** Construction *)

Definition _fallbackPalette : list Z :=
  [0x00000000] ++ repeat 0xffffffff 255 ++ [0x00000000; 0xf0f0f0ff; 0xffaa00ff].

(** [devicePixelRatio] is not among the names the constructor takes out
    of [options]: the assignment to [_devicePixelRatio] reads the global
    of that name, given here as [window_devicePixelRatio]. *)
Definition constructor (window_devicePixelRatio : Q) (options : CanvasTextLayerOptions)
  : CanvasTextLayer :=
  {| _charRenderCanvas := None;
     _canvasWidthCssPx := 0;
     _canvasHeightCssPx := 0;
     _currentCanvasRawWidthPx := 0;
     _ligatureMarker := o_ligatureMarker options;
     _editSession := None;
     _lastConfig := None;
     _lastViewPortSize := None;
     _palette := match o_palette options with
                 | None => _fallbackPalette
                 | Some palette => palette
                 end;
     _fontFamily := o_fontFamily options;
     _fontSizePx := o_fontSizePx options;
     _devicePixelRatio := window_devicePixelRatio;
     _cursorStyle := o_cursorStyle options;
     _transparentBackground := o_transparentBackground options;
     hoveredURL := None;
     clipWidth := None;
     clipHeight := None;
     clipChildren := [];
     canvasCount := 0%nat;
     canvasCalls := [] |}.

(** *** The render surface *)

Definition _deleteCanvasElement (this : CanvasTextLayer) : CanvasTextLayer :=
  match _charRenderCanvas this with
  | None => this
  | Some canvas =>
      let this := Upd.set_clipChildren this
                    (remove Nat.eq_dec (canvasId canvas) (clipChildren this)) in
      let this := Upd.set_canvasCalls this
                    (canvasCalls this ++ [Disposed (canvasId canvas)]) in
      Upd.set_charRenderCanvas this None
  end.

Definition _setupClipping (this : CanvasTextLayer) (rawWidthPx rawHeightPx : Q)
  : CanvasTextLayer :=
  let this := Upd.set_clipWidth this (Some rawWidthPx) in
  Upd.set_clipHeight this (Some rawHeightPx).

Definition _computeDevicePixelRatioPair (devicePixelRatio length : Q) : LengthPair :=
  if Qeq_bool devicePixelRatio 1 then
    {| screenLength := length; renderLength := length |}
  else
    let '(renderMultiple, screenMultiple) := ratioToFraction devicePixelRatio in
    let screenLength :=
      (JS.ceil (length / inject_Z screenMultiple) * inject_Z screenMultiple)%Q in
    let renderLength :=
      (screenLength / inject_Z screenMultiple * inject_Z renderMultiple)%Q in
    {| screenLength := screenLength; renderLength := renderLength |}.

Definition _createCanvas (this : CanvasTextLayer) (rawWidthPx rawHeightPx : Q)
  : CanvasTextLayer :=
  let widthPxPair := _computeDevicePixelRatioPair (_devicePixelRatio this) rawWidthPx in
  let heightPxPair := _computeDevicePixelRatioPair (_devicePixelRatio this) rawHeightPx in
  let canvasWidthPx := screenLength widthPxPair in
  let canvasHeightPx := screenLength heightPxPair in
  let this := Upd.set_canvasWidthCssPx this rawWidthPx in
  let this := Upd.set_canvasHeightCssPx this rawHeightPx in
  let options :=
    {| opt_fontFamily := _fontFamily this;
       opt_fontSizePx := JS.mul (_fontSizePx this) (_devicePixelRatio this);
       opt_palette := _palette this;
       opt_widthPx := renderLength widthPxPair;
       opt_heightPx := renderLength heightPxPair;
       opt_usableWidthPx := JS.mul rawWidthPx (_devicePixelRatio this);
       opt_usableHeightPx := JS.mul rawHeightPx (_devicePixelRatio this);
       opt_extraFonts :=
         [ {| extraFontFamily := if isWindows then "Segoe UI Emoji" else "coloremoji";
              extraFontSizePx := JS.mul (_fontSizePx this) (_devicePixelRatio this);
              unicodeCodePoints :=
                if isWindows then windowsColorFontCodePoints else twemojiCodePoints;
              sampleChars := [0x1f600] |} ];
       opt_cursorStyle := _cursorStyle this;
       opt_transparentBackground := _transparentBackground this |} in
  let canvas :=
    {| canvasId := canvasCount this;
       canvasOptions := options;
       cellGrid := newCellGrid options;
       canvasPalette := _palette this;
       canvasCursorStyle := _cursorStyle this;
       elementWidth := Some canvasWidthPx;
       elementHeight := Some canvasHeightPx |} in
  let this := Upd.set_canvasCalls this
                (canvasCalls this ++ [Created (canvasId canvas) options]) in
  let this := Upd.set_canvasCount this (S (canvasCount this)) in
  let this := Upd.set_charRenderCanvas this (Some canvas) in
  Upd.set_clipChildren this (clipChildren this ++ [canvasId canvas]).

(** The part of [_setUpRenderCanvas] below the comment [// Over-provision]. *)
Definition provision (this : CanvasTextLayer) (config : LayerConfig)
    (rawCanvasWidthPx rawCanvasHeightPx : Q) (numOfVisibleRows : Z) : CanvasTextLayer :=
  let provisionCanvasHeight :=
    JS.ceil
      (JS.mul
         (JS.add (JS.round (JS.mul (inject_Z numOfVisibleRows) PROVISION_HEIGHT_FACTOR)) 1)
         (charHeightPx config)) in
  let allocRawCanvasWidthPx := JS.max rawCanvasWidthPx (_currentCanvasRawWidthPx this) in
  let this := Upd.set_currentCanvasRawWidthPx this allocRawCanvasWidthPx in
  let this := _createCanvas this allocRawCanvasWidthPx provisionCanvasHeight in
  _setupClipping this allocRawCanvasWidthPx rawCanvasHeightPx.

Definition _setUpRenderCanvas (this : CanvasTextLayer) (config : LayerConfig)
    (viewPortSize : ViewPortSize) (numOfVisibleRows : Z) : CanvasTextLayer :=
  let rawCanvasWidthPx := widthPx viewPortSize in
  let rawCanvasHeightPx :=
    JS.ceil (JS.mul (inject_Z numOfVisibleRows) (charHeightPx config)) in
  match _charRenderCanvas this with
  | Some _ =>
      let this := _setupClipping this (_currentCanvasRawWidthPx this) rawCanvasHeightPx in
      if JS.geb (_canvasWidthCssPx this) rawCanvasWidthPx &&
         JS.geb (_canvasHeightCssPx this) rawCanvasHeightPx
      then this
      else provision (_deleteCanvasElement this) config
             rawCanvasWidthPx rawCanvasHeightPx numOfVisibleRows
  | None =>
      provision this config rawCanvasWidthPx rawCanvasHeightPx numOfVisibleRows
  end.

(** *** The grid compositor *)

Definition clearCell (grid : CharCellGrid) (x y : Z) : CharCellGrid :=
  Grid.setCell grid x y clearedCell.

Definition _highlightLinkID (grid : CharCellGrid) (canvasRow startX endX linkID : Z)
  : CharCellGrid :=
  JS.for_range startX endX
    (fun i grid =>
       let cellLinkID := Grid.getLinkID grid i canvasRow in
       if cellLinkID =? linkID then
         let style := Grid.getStyle grid i canvasRow in
         Grid.setStyle grid i canvasRow (Z.lor style STYLE_MASK_HYPERLINK_HIGHLIGHT)
       else grid)
    grid.

(** The body of the [for ... of rows] loop of [_writeLinesToGrid] up to
    [canvasRow++]. *)
Definition writeLine (session : EditSession) (hovered : option string)
    (ligatureMarker : option LigatureMarker)
    (grid : CharCellGrid) (canvasRow docRow : Z) : CharCellGrid :=
  match getTerminalLine session docRow with
  | Some terminalLine =>
      let grid := Grid.pasteGrid grid (lineGrid terminalLine) 0 canvasRow in
      let grid :=
        match hovered with
        | Some url =>
            let linkID := getLinkIDByURL terminalLine url in
            if negb (linkID =? 0) then
              _highlightLinkID grid canvasRow 0 (lineWidth terminalLine) linkID
            else grid
        | None => grid
        end in
      let grid :=
        if lineWidth terminalLine <? width grid then
          JS.for_range (lineWidth terminalLine) (width grid)
            (fun i grid =>
               let grid := clearCell grid i canvasRow in
               Grid.setBgClutIndex grid i canvasRow PALETTE_BG_INDEX)
            grid
        else grid in
      match ligatureMarker with
      | Some marker =>
          let line := getLine session docRow in
          markLigaturesCharCellGridRow marker grid canvasRow line
      | None => grid
      end
  | None =>
      (* Just clear the row *)
      JS.for_range 0 (width grid) (fun i grid => clearCell grid i canvasRow) grid
  end.

Fixpoint writeLines_loop (session : EditSession) (hovered : option string)
    (ligatureMarker : option LigatureMarker)
    (rows : list Z) (canvasRow : Z) (grid : CharCellGrid) : CharCellGrid :=
  match rows with
  | [] => grid
  | docRow :: rows' =>
      let grid := writeLine session hovered ligatureMarker grid canvasRow docRow in
      let canvasRow := canvasRow + 1 in
      if canvasRow >=? height grid then grid
      else writeLines_loop session hovered ligatureMarker rows' canvasRow grid
  end.

(** [_writeLinesToGrid] reads [_editSession] once per row: without a
    session it throws on the first row. *)
Definition _writeLinesToGrid (this : CanvasTextLayer) (grid : CharCellGrid)
    (rows : list Z) (ligatureMarker : option LigatureMarker) : Outcome CharCellGrid :=
  match rows with
  | [] => Ok grid
  | _ :: _ =>
      match _editSession this with
      | None => TypeError
      | Some session =>
          Ok (writeLines_loop session (hoveredURL this) ligatureMarker rows 0 grid)
      end
  end.

(** *** The row visibility resolver *)

(** [row > foldStart]. *)
Definition gt_foldStart (r : Z) (foldStart : RowOrInfinity) : bool :=
  match foldStart with
  | Row s => r >? s
  | Infinity => false
  end.

(** [foldLine ? foldLine.start.row : Infinity]. *)
Definition foldStartOf (foldLine : option FoldLine) : RowOrInfinity :=
  match foldLine with
  | Some f => Row (row (fold_start f))
  | None => Infinity
  end.

(** The [if (row > foldStart) { if (foldLine) { ... } }] at the head of the
    loop body. *)
Definition skipFold (session : EditSession)
    (r : Z) (foldLine : option FoldLine) (foldStart : RowOrInfinity)
  : Z * option FoldLine * RowOrInfinity :=
  if gt_foldStart r foldStart then
    match foldLine with
    | Some f =>
        let r' := row (fold_end f) + 1 in
        let foldLine' := getNextFoldLine session r' (Some f) in
        (r', foldLine', foldStartOf foldLine')
    | None => (r, foldLine, foldStart)
    end
  else (r, foldLine, foldStart).

(** The [while (true)] loop of [_getVisibleRows]; one unit of fuel per
    iteration. *)
Fixpoint visibleRows_loop (session : EditSession) (lastRow : Z) (fuel : nat)
    (r : Z) (foldLine : option FoldLine) (foldStart : RowOrInfinity)
    (visibleRows : list Z) : Outcome (list Z) :=
  match fuel with
  | O => OutOfFuel
  | S fuel' =>
      let '(r1, foldLine1, foldStart1) := skipFold session r foldLine foldStart in
      let visibleRows1 := visibleRows ++ [r1] in
      if r1 >? lastRow then Ok visibleRows1
      else visibleRows_loop session lastRow fuel' (r1 + 1) foldLine1 foldStart1 visibleRows1
  end.

Definition _getVisibleRows (this : CanvasTextLayer) (config : LayerConfig) (fuel : nat)
  : Outcome (list Z) :=
  match _editSession this with
  | None => TypeError
  | Some session =>
      let r := firstRow config in
      let foldLine := getNextFoldLine session r None in
      let foldStart := foldStartOf foldLine in
      visibleRows_loop session (lastRow config) fuel r foldLine foldStart []
  end.

(** *** The controller *)

(** [this._charRenderCanvas.render()]. *)
Definition render (this : CanvasTextLayer) : Outcome CanvasTextLayer :=
  match _charRenderCanvas this with
  | None => TypeError
  | Some canvas =>
      Ok (Upd.set_canvasCalls this (canvasCalls this ++ [Rendered (canvasId canvas)]))
  end.

(** The grid handed out by [getCellGrid()] is the canvas's own: what
    [_writeLinesToGrid] writes is written into the canvas. *)
Definition with_cellGrid (canvas : WebGLCharRenderCanvas) (grid : CharCellGrid)
  : WebGLCharRenderCanvas :=
  {| canvasId := canvasId canvas;
     canvasOptions := canvasOptions canvas;
     cellGrid := grid;
     canvasPalette := canvasPalette canvas;
     canvasCursorStyle := canvasCursorStyle canvas;
     elementWidth := elementWidth canvas;
     elementHeight := elementHeight canvas |}.

Definition with_palette (canvas : WebGLCharRenderCanvas) (palette : list Z)
  : WebGLCharRenderCanvas :=
  {| canvasId := canvasId canvas;
     canvasOptions := canvasOptions canvas;
     cellGrid := cellGrid canvas;
     canvasPalette := palette;
     canvasCursorStyle := canvasCursorStyle canvas;
     elementWidth := elementWidth canvas;
     elementHeight := elementHeight canvas |}.

Definition with_cursorStyle (canvas : WebGLCharRenderCanvas) (cursorStyle : CursorStyle)
  : WebGLCharRenderCanvas :=
  {| canvasId := canvasId canvas;
     canvasOptions := canvasOptions canvas;
     cellGrid := cellGrid canvas;
     canvasPalette := canvasPalette canvas;
     canvasCursorStyle := cursorStyle;
     elementWidth := elementWidth canvas;
     elementHeight := elementHeight canvas |}.

Definition update (this : CanvasTextLayer) (config : LayerConfig)
    (viewPortSize : ViewPortSize) (fuel : nat) : Outcome CanvasTextLayer :=
  let this := Upd.set_lastConfig this (Some config) in
  let this := Upd.set_lastViewPortSize this (Some viewPortSize) in
  visibleRows <- _getVisibleRows this config fuel ;;
  let this := _setUpRenderCanvas this config viewPortSize
                (Z.of_nat (List.length visibleRows)) in
  match _charRenderCanvas this with
  | None => TypeError
  | Some canvas =>
      grid <- _writeLinesToGrid this (cellGrid canvas) visibleRows (_ligatureMarker this) ;;
      let this := Upd.set_charRenderCanvas this (Some (with_cellGrid canvas grid)) in
      render this
  end.

Definition reduceMemory (this : CanvasTextLayer) : CanvasTextLayer :=
  _deleteCanvasElement this.

Definition rerender (this : CanvasTextLayer) (fuel : nat) : Outcome CanvasTextLayer :=
  match _lastConfig this, _lastViewPortSize this with
  | Some lastConfig, Some lastViewPortSize => update this lastConfig lastViewPortSize fuel
  | _, _ => Ok this
  end.

Definition setPalette (this : CanvasTextLayer) (palette : list Z) : CanvasTextLayer :=
  let this := Upd.set_palette this palette in
  match _charRenderCanvas this with
  | None => this
  | Some canvas =>
      let this := Upd.set_charRenderCanvas this (Some (with_palette canvas palette)) in
      Upd.set_canvasCalls this (canvasCalls this ++ [PaletteSet (canvasId canvas) palette])
  end.

Definition setFontFamily (this : CanvasTextLayer) (fontFamily : string) : CanvasTextLayer :=
  let this := Upd.set_fontFamily this fontFamily in
  _deleteCanvasElement this.

Definition setFontSizePx (this : CanvasTextLayer) (fontSizePx : Q) : CanvasTextLayer :=
  let this := Upd.set_fontSizePx this fontSizePx in
  _deleteCanvasElement this.

Definition setDevicePixelRatio (this : CanvasTextLayer) (devicePixelRatio : Q)
  : CanvasTextLayer :=
  let this := Upd.set_devicePixelRatio this devicePixelRatio in
  _deleteCanvasElement this.

Definition setLigatureMarker (this : CanvasTextLayer) (marker : option LigatureMarker)
  : CanvasTextLayer :=
  let this := Upd.set_ligatureMarker this marker in
  _deleteCanvasElement this.

Definition setCursorStyle (this : CanvasTextLayer) (cursorStyle : CursorStyle)
  : CanvasTextLayer :=
  let this := Upd.set_cursorStyle this cursorStyle in
  match _charRenderCanvas this with
  | Some canvas =>
      let this := Upd.set_charRenderCanvas this (Some (with_cursorStyle canvas cursorStyle)) in
      Upd.set_canvasCalls this
        (canvasCalls this ++ [CursorStyleSet (canvasId canvas) cursorStyle;
                              Rendered (canvasId canvas)])
  | None => this
  end.

Definition setTransparentBackground (this : CanvasTextLayer) (transparentBackground : bool)
  : CanvasTextLayer :=
  let this := Upd.set_transparentBackground this transparentBackground in
  _deleteCanvasElement this.

Definition setSession (this : CanvasTextLayer) (session : option EditSession)
  : CanvasTextLayer :=
  Upd.set_editSession this session.

Definition updateRows (this : CanvasTextLayer) (config : LayerConfig)
    (viewPortSize : ViewPortSize) (firstRow lastRow : Z) (fuel : nat)
  : Outcome CanvasTextLayer :=
  update this config viewPortSize fuel.

Definition scrollRows (this : CanvasTextLayer) (config : LayerConfig)
    (viewPortSize : ViewPortSize) (fuel : nat) : Outcome CanvasTextLayer :=
  this <-
    match _charRenderCanvas this with
    | Some canvas =>
        match _lastConfig this with
        | None => TypeError
        | Some lastConfig =>
            let delta := firstRow config - firstRow lastConfig in
            if Z.abs delta <? height (cellGrid canvas) then
              (* Scroll the existing contents *)
              let canvas := with_cellGrid canvas (scrollVertical (cellGrid canvas) delta) in
              let this := Upd.set_charRenderCanvas this (Some canvas) in
              Ok (Upd.set_canvasCalls this
                    (canvasCalls this ++ [ScrolledVertical (canvasId canvas) delta]))
            else Ok this
        end
    | None => Ok this
    end ;;
  update this config viewPortSize fuel.

(** The URL that [mouseOver] stores in [#hoveredURL] for [pos]. *)
Definition resolveHoveredURL (this : CanvasTextLayer) (pos : option Position)
  : Outcome (option string) :=
  match pos with
  | None => Ok None
  | Some pos =>
      match _editSession this with
      | None => TypeError
      | Some session =>
          match getTerminalLine session (row pos) with
          | None => TypeError
          | Some line =>
              let linkID :=
                if column pos <? lineWidth line
                then Grid.getLinkID (lineGrid line) (column pos) 0
                else 0 in
              if linkID =? 0 then Ok None
              else Ok (getLinkURLByID line linkID)
          end
      end
  end.

Definition mouseOver (this : CanvasTextLayer) (pos : option Position) (fuel : nat)
  : Outcome CanvasTextLayer :=
  let previousURL := hoveredURL this in
  url <- resolveHoveredURL this pos ;;
  let this := Upd.set_hoveredURL this url in
  if JS.strict_neq previousURL (hoveredURL this) then rerender this fuel
  else Ok this.

End Methods.

(** ** Vocabulary of the statements *)

(** Modelled from the spec: [ratioToFraction] (file [RatioToFraction.ts] is
    missing) returns "the reduced fraction p/q representing ratio (smallest
    integers with p/q == ratio)". *)
Definition ratioToFraction_spec (ratio : Q) : Z * Z :=
  (Qnum (Qred ratio), Zpos (Qden (Qred ratio))).

(** [m] is the smallest multiple of [q] that is at least [len]. *)
Definition smallest_multiple_ge (q : Z) (len : Q) (m : Q) : Prop :=
  exists k : Z,
    m = (inject_Z k * inject_Z q)%Q /\
    (len <= m)%Q /\
    forall k' : Z, (len <= inject_Z k' * inject_Z q)%Q -> (m <= inject_Z k' * inject_Z q)%Q.

(** The contract of the editor's fold look-up: the fold it answers for a
    row ends at or after that row, and a fold does not end before it
    starts. *)
Definition wf_lookup (session : EditSession) : Prop :=
  forall docRow startFoldLine f,
    getNextFoldLine session docRow startFoldLine = Some f ->
    row (fold_start f) <= row (fold_end f) /\ docRow <= row (fold_end f).

(** A look-up over the single fold [f], as the editor answers it: the fold
    while the asked row is not past its end, nothing afterwards. *)
Definition singleFoldLookup (f : FoldLine) (docRow : Z) (startFoldLine : option FoldLine)
  : option FoldLine :=
  if row (fold_end f) >=? docRow then Some f else None.

(** Strictly increasing lists of rows. *)
Fixpoint increasing (l : list Z) : Prop :=
  match l with
  | [] => True
  | x :: l' => (forall y, In y l' -> x < y) /\ increasing l'
  end.

(** What the loop of [_getVisibleRows] knows about the pending fold at the
    head of an iteration. *)
Definition fold_inv (r : Z) (fl : option FoldLine) (fs : RowOrInfinity) : Prop :=
  fs = foldStartOf fl /\
  forall f, fl = Some f ->
    r <= row (fold_end f) + 1 /\ row (fold_start f) <= row (fold_end f).

(** The number of loop iterations that [_getVisibleRows] needs at most for
    [config] when the look-up is well behaved. *)
Definition enoughFuel (config : LayerConfig) : nat :=
  S (Z.to_nat (lastRow config + 1 - firstRow config)).

(** What is assumed of a ligature marker: it leaves the size of the grid
    alone and changes no cell beyond its ligature mark. *)
Definition marker_keeps_paint (ligatureMarker : option LigatureMarker) : Prop :=
  match ligatureMarker with
  | None => True
  | Some marker =>
      forall grid canvasRow line,
        width (markLigaturesCharCellGridRow marker grid canvasRow line) = width grid /\
        height (markLigaturesCharCellGridRow marker grid canvasRow line) = height grid /\
        forall x y,
          same_paint (cells (markLigaturesCharCellGridRow marker grid canvasRow line) x y)
                     (cells grid x y)
  end.

(** A loop body that rewrites the cell of column [i] in row [r] by [upd]
    and touches nothing else. *)
Definition rewrites_cell (r : Z) (upd : Z -> Cell -> Cell)
    (body : Z -> CharCellGrid -> CharCellGrid) : Prop :=
  forall i g,
    width (body i g) = width g /\
    height (body i g) = height g /\
    forall x y,
      cells (body i g) x y =
      if (x =? i) && (y =? r) && Grid.inside g x y then upd i (cells g x y)
      else cells g x y.

(** The four steps that [_writeLinesToGrid] takes for a row whose line is
    present, in the order of the source: paste, highlight, fill, mark. *)
Section Steps.

Context {imports : Imports}.

Definition pasted (grid : CharCellGrid) (terminalLine : TerminalLine) (canvasRow : Z)
  : CharCellGrid :=
  Grid.pasteGrid grid (lineGrid terminalLine) 0 canvasRow.

Definition highlighted (hovered : option string) (terminalLine : TerminalLine)
    (canvasRow : Z) (grid : CharCellGrid) : CharCellGrid :=
  match hovered with
  | Some url =>
      let linkID := getLinkIDByURL terminalLine url in
      if negb (linkID =? 0) then
        _highlightLinkID grid canvasRow 0 (lineWidth terminalLine) linkID
      else grid
  | None => grid
  end.

Definition filled (terminalLine : TerminalLine) (canvasRow : Z) (grid : CharCellGrid)
  : CharCellGrid :=
  if lineWidth terminalLine <? width grid then
    JS.for_range (lineWidth terminalLine) (width grid)
      (fun i grid =>
         let grid := clearCell grid i canvasRow in
         Grid.setBgClutIndex grid i canvasRow PALETTE_BG_INDEX)
      grid
  else grid.

Definition marked (ligatureMarker : option LigatureMarker) (session : EditSession)
    (docRow canvasRow : Z) (grid : CharCellGrid) : CharCellGrid :=
  match ligatureMarker with
  | Some marker =>
      markLigaturesCharCellGridRow marker grid canvasRow (getLine session docRow)
  | None => grid
  end.

(** The hovered link's cell as highlighted: the style bit added when the
    cell belongs to link [id], the cell itself otherwise. *)
Definition highlightCell (id : Z) (c : Cell) : Cell :=
  if linkID c =? id
  then Grid.with_style c (Z.lor (style c) STYLE_MASK_HYPERLINK_HIGHLIGHT)
  else c.

(** The cell that fills the columns past the end of a line. *)
Definition fillCell : Cell :=
  Grid.with_bgClutIndex clearedCell PALETTE_BG_INDEX.

End Steps.

(** The height [update] needs for [n] visible rows, and the height it
    allocates for them. *)
Definition requiredHeight (config : LayerConfig) (n : Z) : Q :=
  JS.ceil (JS.mul (inject_Z n) (charHeightPx config)).

Definition provisionedHeight (config : LayerConfig) (n : Z) : Q :=
  JS.ceil
    (JS.mul (JS.add (JS.round (JS.mul (inject_Z n) (3 # 2))) 1) (charHeightPx config)).

(** The live canvas is large enough for the viewport: the test of
    [_setUpRenderCanvas]. *)
Definition largeEnough (this : CanvasTextLayer) (config : LayerConfig)
    (viewPortSize : ViewPortSize) (n : Z) : bool :=
  JS.geb (_canvasWidthCssPx this) (widthPx viewPortSize) &&
  JS.geb (_canvasHeightCssPx this) (requiredHeight config n).

(** The layer as [update] hands it to [_setUpRenderCanvas]: the arguments
    are on record. *)
Definition remembered (this : CanvasTextLayer) (config : LayerConfig)
    (viewPortSize : ViewPortSize) : CanvasTextLayer :=
  Upd.set_lastViewPortSize (Upd.set_lastConfig this (Some config)) (Some viewPortSize).

(** The disposal of the live canvas, as it shows among the calls. *)
Definition disposalOf (canvas : option WebGLCharRenderCanvas) : list CanvasCall :=
  match canvas with
  | Some old => [Disposed (canvasId old)]
  | None => []
  end.

(** [this'] is [this] with its canvas disposed: the canvas field is empty,
    the canvas that was there (if any) has received [dispose()], and no
    canvas has been constructed. *)
Definition disposed (this this' : CanvasTextLayer) : Prop :=
  _charRenderCanvas this' = None /\
  canvasCalls this' = canvasCalls this ++ disposalOf (_charRenderCanvas this) /\
  canvasCount this' = canvasCount this /\
  _editSession this' = _editSession this.

(** [this'] has the canvas of [this], the very object, which has received
    [calls] and nothing else. *)
Definition kept (this this' : CanvasTextLayer) (calls : nat -> list CanvasCall) : Prop :=
  match _charRenderCanvas this with
  | Some canvas =>
      exists canvas',
        _charRenderCanvas this' = Some canvas' /\
        canvasId canvas' = canvasId canvas /\
        canvasCalls this' = canvasCalls this ++ calls (canvasId canvas) /\
        clipChildren this' = clipChildren this /\
        canvasCount this' = canvasCount this
  | None =>
      _charRenderCanvas this' = None /\ canvasCalls this' = canvasCalls this
  end.

(** The number of [render()] calls among the calls the canvases received. *)
Definition isRendered (call : CanvasCall) : bool :=
  match call with
  | Rendered _ => true
  | _ => false
  end.

Definition renderCount (this : CanvasTextLayer) : nat :=
  List.length (filter isRendered (canvasCalls this)).

(** A sequence of [update] calls, each with its arguments and its fuel. *)
Section Sequences.

Context {imports : Imports}.


End Sequences.


(** ** Sample values, to run the methods on *)

Module Sample.

(** A cell of an earlier frame. *)
Definition staleCell : Cell :=
  {| codePoint := 88; fgClutIndex := 1; bgClutIndex := 7; style := 64;
     linkID := 5; ligature := 0 |}.

Definition imports : Imports :=
  {| PALETTE_BG_INDEX := 256;
     STYLE_MASK_HYPERLINK_HIGHLIGHT := 4096;
     clearedCell := {| codePoint := 32; fgClutIndex := 0; bgClutIndex := 0;
                       style := 0; linkID := 0; ligature := 0 |};
     ratioToFraction := ratioToFraction_spec;
     newCellGrid := fun _ => {| width := 4; height := 3; cells := fun _ _ => staleCell |};
     scrollVertical := fun grid _ => grid;
     isWindows := false |}.

(** The same imports with a [ratioToFraction] that answers 11/10, the
    fraction of the ratio 1.1. *)
Definition tenths : Imports :=
  {| PALETTE_BG_INDEX := @PALETTE_BG_INDEX imports;
     STYLE_MASK_HYPERLINK_HIGHLIGHT := @STYLE_MASK_HYPERLINK_HIGHLIGHT imports;
     clearedCell := @clearedCell imports;
     ratioToFraction := fun _ => (11, 10);
     newCellGrid := @newCellGrid imports;
     scrollVertical := @scrollVertical imports;
     isWindows := @isWindows imports |}.

Definition options : CanvasTextLayerOptions :=
  {| o_palette := None;
     o_fontFamily := "monospace";
     o_fontSizePx := 12;
     o_devicePixelRatio := 1;
     o_cursorStyle := BLOCK;
     o_ligatureMarker := None;
     o_transparentBackground := false |}.

(** The fold covering the document rows 2 to 4. *)
Definition fold24 : FoldLine :=
  {| fold_start := mkPosition 2 0; fold_end := mkPosition 4 0 |}.

(** A line of two cells; the second one belongs to link 1, whose URL is
    ["http://a"]. *)
Definition line : TerminalLine :=
  {| lineGrid :=
       {| width := 2; height := 1;
          cells := fun x _ =>
            {| codePoint := 97 + x; fgClutIndex := 2; bgClutIndex := 3; style := 0;
               linkID := if x =? 1 then 1 else 0; ligature := 0 |} |};
     getLinkIDByURL := fun url => if String.eqb url "http://a" then 1 else 0;
     getLinkURLByID := fun id => if id =? 1 then Some "http://a"%string else None |}.

(** A document of two such lines, without folds. *)
Definition session : EditSession :=
  {| getTerminalLine := fun r => if (0 <=? r) && (r <? 2) then Some line else None;
     getLine := fun _ => "ab"%string;
     getNextFoldLine := fun _ _ => None |}.

(** The same document with rows 2 to 4 folded. *)
Definition foldedSession : EditSession :=
  {| getTerminalLine := getTerminalLine session;
     getLine := getLine session;
     getNextFoldLine := singleFoldLookup fold24 |}.

Definition config05 : LayerConfig :=
  {| firstRow := 0; lastRow := 5; charHeightPx := 10 |}.

(** The viewport one row further down. *)
Definition config16 : LayerConfig :=
  {| firstRow := 1; lastRow := 6; charHeightPx := 10 |}.

Definition layer : CanvasTextLayer :=
  setSession (constructor 1 options) (Some session).

Definition foldedLayer : CanvasTextLayer :=
  setSession (constructor 1 options) (Some foldedSession).

(** The sample layer with the mouse over the link of its lines. *)
Definition hoveredLayer : CanvasTextLayer :=
  Upd.set_hoveredURL layer (Some "http://a"%string).

Definition viewPort100 : ViewPortSize := {| widthPx := 100 |}.

Definition viewPort80 : ViewPortSize := {| widthPx := 80 |}.

(** The layer a method returns, [fallback] if it does not return. *)
Definition returned (outcome : Outcome CanvasTextLayer) (fallback : CanvasTextLayer)
  : CanvasTextLayer :=
  match outcome with
  | Ok this => this
  | _ => fallback
  end.

(** The sample layer after a first [update] for a viewport 100 pixels
    wide. *)
Definition shown : CanvasTextLayer :=
  returned (@update imports layer config05 viewPort100 7) layer.

(** The same with the mouse over the link of row 0. *)
Definition hovering : CanvasTextLayer :=
  returned (@mouseOver imports shown (Some (mkPosition 0 1)) 7) shown.

(** A grid of four columns and three rows full of stale cells. *)
Definition grid : CharCellGrid :=
  {| width := 4; height := 3; cells := fun _ _ => staleCell |}.

(** The canvas of a layer, a blank one if it has none. *)
Definition blankCanvas : WebGLCharRenderCanvas :=
  {| canvasId := 0;
     canvasOptions :=
       {| opt_fontFamily := ""; opt_fontSizePx := 0; opt_palette := []; opt_widthPx := 0;
          opt_heightPx := 0; opt_usableWidthPx := 0; opt_usableHeightPx := 0;
          opt_extraFonts := []; opt_cursorStyle := BLOCK;
          opt_transparentBackground := false |};
     cellGrid := grid;
     canvasPalette := [];
     canvasCursorStyle := BLOCK;
     elementWidth := None;
     elementHeight := None |}.

Definition returnedCanvas (canvas : option WebGLCharRenderCanvas) : WebGLCharRenderCanvas :=
  match canvas with
  | Some canvas => canvas
  | None => blankCanvas
  end.

(** A look-up that breaks the editor's contract: whatever the row, it
    answers the fold of row 0. *)
Definition stuckSession : EditSession :=
  {| getTerminalLine := getTerminalLine session;
     getLine := getLine session;
     getNextFoldLine := fun _ _ => Some (mkFoldLine (mkPosition 0 0) (mkPosition 0 0)) |}.

Definition stuckLayer : CanvasTextLayer :=
  setSession (constructor 1 options) (Some stuckSession).

End Sample.

(** ** Reachable layers and the canvas protocol *)

(** The canvas that a call is addressed to. *)
Definition addressee (call : CanvasCall) : nat :=
  match call with
  | Created id _ => id
  | Disposed id => id
  | Rendered id => id
  | PaletteSet id _ => id
  | CursorStyleSet id _ => id
  | ScrolledVertical id _ => id
  end.

(** The discipline of the calls to render canvases, as a machine over the
    pair of the live canvas (if any) and the number of canvases constructed
    so far: a canvas is constructed only while none is live and takes the
    next identity; a canvas is disposed only while it is live; every other
    call goes to the live canvas. *)
Definition protocol_step (state : option nat * nat) (call : CanvasCall)
  : option (option nat * nat) :=
  match call, fst state with
  | Created id _, None =>
      if Nat.eqb id (snd state) then Some (Some id, S (snd state)) else None
  | Created _ _, Some _ => None
  | Disposed id, Some live =>
      if Nat.eqb live id then Some (None, snd state) else None
  | _, Some live =>
      if Nat.eqb live (addressee call) then Some state else None
  | _, None => None
  end.

Fixpoint protocol (state : option nat * nat) (calls : list CanvasCall)
  : option (option nat * nat) :=
  match calls with
  | [] => Some state
  | call :: calls' =>
      match protocol_step state call with
      | Some state' => protocol state' calls'
      | None => None
      end
  end.

(** The identity of the live canvas of a layer. *)
Definition liveId (this : CanvasTextLayer) : option nat :=
  option_map canvasId (_charRenderCanvas this).

Section Reachable.

Context {imports : Imports}.

(** *** What a throwing call leaves behind

    A call that throws has run its statements up to the throw, and the
    host that catches the exception holds the layer as they left it. *)

(** [update] throws in [_getVisibleRows], on a layer without session, and
    nowhere else: its two assignments have been made. *)
Definition update_thrown (this : CanvasTextLayer) (config : LayerConfig)
    (viewPortSize : ViewPortSize) : CanvasTextLayer :=
  let this := Upd.set_lastConfig this (Some config) in
  Upd.set_lastViewPortSize this (Some viewPortSize).

(** [rerender] throws in its [update]. *)
Definition rerender_thrown (this : CanvasTextLayer) : CanvasTextLayer :=
  match _lastConfig this, _lastViewPortSize this with
  | Some lastConfig, Some lastViewPortSize => update_thrown this lastConfig lastViewPortSize
  | _, _ => this
  end.

(** The [if] at the head of [scrollRows]. *)
Definition scrollExisting (this : CanvasTextLayer) (config : LayerConfig)
  : Outcome CanvasTextLayer :=
  match _charRenderCanvas this with
  | Some canvas =>
      match _lastConfig this with
      | None => TypeError
      | Some lastConfig =>
          let delta := firstRow config - firstRow lastConfig in
          if Z.abs delta <? height (cellGrid canvas) then
            let canvas := with_cellGrid canvas (scrollVertical (cellGrid canvas) delta) in
            let this := Upd.set_charRenderCanvas this (Some canvas) in
            Ok (Upd.set_canvasCalls this
                  (canvasCalls this ++ [ScrolledVertical (canvasId canvas) delta]))
          else Ok this
      end
  | None => Ok this
  end.

(** [scrollRows] throws on reading [_lastConfig.firstRow], before any
    change, or in its [update], after the scroll. *)
Definition scrollRows_thrown (this : CanvasTextLayer) (config : LayerConfig)
    (viewPortSize : ViewPortSize) : CanvasTextLayer :=
  match scrollExisting this config with
  | Ok this => update_thrown this config viewPortSize
  | _ => this
  end.

(** [mouseOver] throws on the line of [pos], before the assignment to
    [#hoveredURL], or in [rerender], after it. *)
Definition mouseOver_thrown (this : CanvasTextLayer) (pos : option Position)
  : CanvasTextLayer :=
  match resolveHoveredURL this pos with
  | Ok url => rerender_thrown (Upd.set_hoveredURL this url)
  | _ => this
  end.

(** The layers that a host can get hold of: a constructed layer, and what
    the public methods make of such a layer, when they return and when
    they throw.  A call that does not terminate hands nothing back. *)
Inductive reachable : CanvasTextLayer -> Prop :=
| reach_constructor ratio options :
    reachable (constructor ratio options)
| reach_setSession this session :
    reachable this -> reachable (setSession this session)
| reach_setPalette this palette :
    reachable this -> reachable (setPalette this palette)
| reach_setFontFamily this fontFamily :
    reachable this -> reachable (setFontFamily this fontFamily)
| reach_setFontSizePx this fontSizePx :
    reachable this -> reachable (setFontSizePx this fontSizePx)
| reach_setDevicePixelRatio this devicePixelRatio :
    reachable this -> reachable (setDevicePixelRatio this devicePixelRatio)
| reach_setLigatureMarker this marker :
    reachable this -> reachable (setLigatureMarker this marker)
| reach_setCursorStyle this cursorStyle :
    reachable this -> reachable (setCursorStyle this cursorStyle)
| reach_setTransparentBackground this transparentBackground :
    reachable this -> reachable (setTransparentBackground this transparentBackground)
| reach_reduceMemory this :
    reachable this -> reachable (reduceMemory this)
| reach_update this config viewPortSize fuel this' :
    reachable this -> update this config viewPortSize fuel = Ok this' -> reachable this'
| reach_updateRows this config viewPortSize firstRow lastRow fuel this' :
    reachable this ->
    updateRows this config viewPortSize firstRow lastRow fuel = Ok this' -> reachable this'
| reach_scrollRows this config viewPortSize fuel this' :
    reachable this -> scrollRows this config viewPortSize fuel = Ok this' -> reachable this'
| reach_rerender this fuel this' :
    reachable this -> rerender this fuel = Ok this' -> reachable this'
| reach_mouseOver this pos fuel this' :
    reachable this -> mouseOver this pos fuel = Ok this' -> reachable this'
| reach_update_throws this config viewPortSize fuel :
    reachable this -> update this config viewPortSize fuel = TypeError ->
    reachable (update_thrown this config viewPortSize)
| reach_updateRows_throws this config viewPortSize firstRow lastRow fuel :
    reachable this ->
    updateRows this config viewPortSize firstRow lastRow fuel = TypeError ->
    reachable (update_thrown this config viewPortSize)
| reach_scrollRows_throws this config viewPortSize fuel :
    reachable this -> scrollRows this config viewPortSize fuel = TypeError ->
    reachable (scrollRows_thrown this config viewPortSize)
| reach_rerender_throws this fuel :
    reachable this -> rerender this fuel = TypeError -> reachable (rerender_thrown this)
| reach_mouseOver_throws this pos fuel :
    reachable this -> mouseOver this pos fuel = TypeError ->
    reachable (mouseOver_thrown this pos).

End Reachable.

(** What holds of every reachable layer. *)
Record Invariant (this : CanvasTextLayer) : Prop := mkInvariant {
  inv_protocol :
    protocol (None, 0%nat) (canvasCalls this) = Some (liveId this, canvasCount this);
  inv_children :
    clipChildren this =
    match _charRenderCanvas this with
    | Some canvas => [canvasId canvas]
    | None => []
    end;
  inv_layout :
    _charRenderCanvas this <> None ->
    _lastConfig this <> None /\ _lastViewPortSize this <> None;
  inv_width :
    (_canvasWidthCssPx this <= _currentCanvasRawWidthPx this)%Q /\
    (_charRenderCanvas this <> None ->
     _canvasWidthCssPx this = _currentCanvasRawWidthPx this);
  inv_settings :
    forall canvas,
      _charRenderCanvas this = Some canvas ->
      opt_fontFamily (canvasOptions canvas) = _fontFamily this /\
      opt_fontSizePx (canvasOptions canvas)
        = JS.mul (_fontSizePx this) (_devicePixelRatio this) /\
      opt_transparentBackground (canvasOptions canvas) = _transparentBackground this /\
      canvasPalette canvas = _palette this /\
      canvasCursorStyle canvas = _cursorStyle this
}.

(** The lines of a session are one row high at most. *)
Definition single_row_lines (session : EditSession) : Prop :=
  forall docRow line,
    getTerminalLine session docRow = Some line -> height (lineGrid line) <= 1.

(** A document row lies inside the fold [f] past its first row: it is one
    of the rows the fold hides. *)
Definition hidden_by (f : FoldLine) (y : Z) : Prop :=
  row (fold_start f) < y <= row (fold_end f).

(** A document row that some fold reported by the look-up hides. *)
Definition hidden_row (session : EditSession) (y : Z) : Prop :=
  exists docRow startFoldLine f,
    getNextFoldLine session docRow startFoldLine = Some f /\ hidden_by f y.

(** What the loop of [_getVisibleRows] knows at the head of an iteration
    when the look-up is over the single fold [f]. *)
Definition single_fold_state (f : FoldLine) (r : Z) (fl : option FoldLine) : Prop :=
  (fl = Some f /\ r <= row (fold_end f) + 1) \/ (fl = None /\ row (fold_end f) < r).

(** The first row that [_getVisibleRows] returns. *)
Definition firstVisibleRow (session : EditSession) (config : LayerConfig) : Z :=
  match getNextFoldLine session (firstRow config) None with
  | Some f =>
      if firstRow config >? row (fold_start f) then row (fold_end f) + 1
      else firstRow config
  | None => firstRow config
  end.

(** The cell of column [x] of a line as the layer shows it: the line's
    cell, with the highlight bit when a URL is hovered, the line knows it
    and the cell belongs to its link. *)
Definition shownCell {imports : Imports} (hovered : option string) (line : TerminalLine)
    (x : Z) : Cell :=
  let source := cells (lineGrid line) x 0 in
  match hovered with
  | Some url =>
      if getLinkIDByURL line url =? 0 then source
      else highlightCell (getLinkIDByURL line url) source
  | None => source
  end.

(** * Part II: facts *)

(** ** JavaScript numbers *)

Section NumberFacts.

Lemma ceil_ge (x : Q) : (x <= JS.ceil x)%Q.
Proof. apply Qle_ceiling. Qed.

Lemma ceil_least (x : Q) (k : Z) :
  (x <= inject_Z k)%Q -> (JS.ceil x <= inject_Z k)%Q.
Proof.
  intros H. unfold JS.ceil. rewrite <- Zle_Qle.
  rewrite <- (Qceiling_Z k). now apply Qceiling_resp_le.
Qed.

Lemma inject_pos (z : Z) : 0 < z -> (0 < inject_Z z)%Q.
Proof. intros H. change 0%Q with (inject_Z 0). now rewrite <- Zlt_Qlt. Qed.

Lemma geb_true (a b : Q) : JS.geb a b = true <-> (b <= a)%Q.
Proof. unfold JS.geb. apply Qle_bool_iff. Qed.

Lemma max_ge_l (x y : Q) : (x <= JS.max x y)%Q.
Proof. apply Q.le_max_l. Qed.

Lemma max_ge_r (x y : Q) : (y <= JS.max x y)%Q.
Proof. apply Q.le_max_r. Qed.

Lemma strict_neq_false (a b : option string) : JS.strict_neq a b = false <-> a = b.
Proof.
  destruct a as [x|], b as [y|]; cbn; split; intros H; try discriminate; try reflexivity.
  - apply negb_false_iff, String.eqb_eq in H. now subst.
  - injection H as ->. apply negb_false_iff, String.eqb_refl.
Qed.

End NumberFacts.

(** ** Doubles *)

Section DoubleFacts.

Local Open Scope Q_scope.

Lemma pow2_pos e : 0 < JS.pow2 e.
Proof. apply Qpower_0_lt. reflexivity. Qed.

Lemma pow2_add a b : JS.pow2 (a + b) == JS.pow2 a * JS.pow2 b.
Proof. apply Qpower_plus. discriminate. Qed.

Lemma pow2_le a b : (a <= b)%Z -> JS.pow2 a <= JS.pow2 b.
Proof. intros Hab. apply Qpower_le_compat_l; [exact Hab|discriminate]. Qed.

Lemma pow2_Z k : (0 <= k)%Z -> JS.pow2 k == inject_Z (2 ^ k).
Proof. intros Hk. symmetry. exact (Zpower_Qpower 2 k Hk). Qed.

(** The binade of a positive number holds it. *)
Lemma binade_spec a :
  0 < a -> JS.pow2 (JS.binade a) <= a /\ a < JS.pow2 (JS.binade a + 1).
Proof.
  intros Ha. destruct a as [n d]. unfold JS.binade. cbn [Qnum Qden].
  assert (Hn : (0 < n)%Z).
  { unfold Qlt in Ha. cbn in Ha. lia. }
  set (ln := Z.log2 n). set (ld := Z.log2 (Z.pos d)).
  destruct (Z.log2_spec n Hn) as [Hn1 Hn2]. fold ln in Hn1, Hn2.
  destruct (Z.log2_spec (Z.pos d) (Pos2Z.is_pos d)) as [Hd1 Hd2]. fold ld in Hd1, Hd2.
  assert (Hln : (0 <= ln)%Z) by apply Z.log2_nonneg.
  assert (Hld : (0 <= ld)%Z) by apply Z.log2_nonneg.
  assert (Hdpos : 0 < inject_Z (Z.pos d)) by reflexivity.
  assert (Had : n # d == inject_Z n / inject_Z (Z.pos d)) by apply Qmake_Qdiv.
  assert (Hmul : (n # d) * inject_Z (Z.pos d) == inject_Z n).
  { rewrite Had. field. discriminate. }
  assert (Qn1 : JS.pow2 ln <= inject_Z n) by (rewrite pow2_Z, <- Zle_Qle; assumption).
  assert (Qn2 : inject_Z n < JS.pow2 (ln + 1)).
  { rewrite pow2_Z, <- Zlt_Qlt by lia. exact Hn2. }
  assert (Qd1 : JS.pow2 ld <= inject_Z (Z.pos d)) by (rewrite pow2_Z, <- Zle_Qle; assumption).
  assert (Qd2 : inject_Z (Z.pos d) < JS.pow2 (ld + 1)).
  { rewrite pow2_Z, <- Zlt_Qlt by lia. exact Hd2. }
  assert (Hupper : n # d < JS.pow2 (ln - ld + 1)).
  { apply (Qmult_lt_r _ _ (inject_Z (Z.pos d)) Hdpos). rewrite Hmul.
    apply Qlt_le_trans with (1 := Qn2).
    replace (ln + 1)%Z with ((ln - ld + 1) + ld)%Z by ring. rewrite pow2_add.
    apply Qmult_le_l; [apply pow2_pos|exact Qd1]. }
  assert (Hlower : JS.pow2 (ln - ld - 1) < n # d).
  { apply (Qmult_lt_r _ _ (inject_Z (Z.pos d)) Hdpos). rewrite Hmul.
    apply Qlt_le_trans with (2 := Qn1).
    replace ln with ((ln - ld - 1) + (ld + 1))%Z at 2 by ring. rewrite pow2_add.
    apply Qmult_lt_l; [apply pow2_pos|exact Qd2]. }
  destruct (Qle_bool (JS.pow2 (ln - ld)) (n # d)) eqn:Htest.
  - split; [now apply Qle_bool_iff|exact Hupper].
  - split; [now apply Qlt_le_weak|].
    replace (ln - ld - 1 + 1)%Z with (ln - ld)%Z by ring.
    apply Qnot_le_lt. intros Hle. apply Qle_bool_iff in Hle. congruence.
Qed.

Lemma binade_monotone a b : 0 < a -> a <= b -> (JS.binade a <= JS.binade b)%Z.
Proof.
  intros Ha Hab.
  destruct (binade_spec a Ha) as [Ha1 _].
  destruct (binade_spec b (Qlt_le_trans _ _ _ Ha Hab)) as [_ Hb2].
  destruct (Z_le_gt_dec (JS.binade a) (JS.binade b)) as [Hle|Hgt]; [exact Hle|].
  assert (Hpow : JS.pow2 (JS.binade b + 1) <= JS.pow2 (JS.binade a)) by (apply pow2_le; lia).
  lra.
Qed.

Lemma nearestInteger_floor x :
  (Qfloor x <= JS.nearestInteger x <= Qfloor x + 1)%Z.
Proof.
  unfold JS.nearestInteger.
  destruct (x - inject_Z (Qfloor x) ?= 1 # 2); [destruct (Z.even (Qfloor x))| |]; lia.
Qed.

Lemma nearestInteger_Z k : JS.nearestInteger (inject_Z k) = k.
Proof.
  unfold JS.nearestInteger. rewrite Qfloor_Z.
  assert (Hlt : inject_Z k - inject_Z k < 1 # 2) by lra.
  rewrite (proj1 (Qlt_alt _ _) Hlt). reflexivity.
Qed.

Lemma nearestInteger_monotone x y :
  x <= y -> (JS.nearestInteger x <= JS.nearestInteger y)%Z.
Proof.
  intros Hxy.
  pose proof (Qfloor_resp_le x y Hxy) as Hfloor.
  pose proof (nearestInteger_floor x) as Hx.
  pose proof (nearestInteger_floor y) as Hy.
  destruct (Z.eq_dec (Qfloor x) (Qfloor y)) as [Heq|Hneq]; [|lia].
  clear Hx Hy. unfold JS.nearestInteger. rewrite <- Heq.
  destruct (x - inject_Z (Qfloor x) ?= 1 # 2) eqn:Hcx;
    destruct (y - inject_Z (Qfloor x) ?= 1 # 2) eqn:Hcy;
    try apply <- Qeq_alt in Hcx; try apply <- Qlt_alt in Hcx; try apply <- Qgt_alt in Hcx;
    try apply <- Qeq_alt in Hcy; try apply <- Qlt_alt in Hcy; try apply <- Qgt_alt in Hcy;
    try (exfalso; lra); destruct (Z.even (Qfloor x)); lia.
Qed.

Lemma nearestInteger_error x :
  x - (1 # 2) <= inject_Z (JS.nearestInteger x) <= x + (1 # 2).
Proof.
  pose proof (Qfloor_le x) as Hlo. pose proof (Qlt_floor x) as Hhi.
  rewrite inject_Z_plus in Hhi. change (inject_Z 1) with 1 in Hhi.
  unfold JS.nearestInteger.
  destruct (x - inject_Z (Qfloor x) ?= 1 # 2) eqn:Hc;
    try apply <- Qeq_alt in Hc; try apply <- Qlt_alt in Hc; try apply <- Qgt_alt in Hc;
    [destruct (Z.even (Qfloor x))| |];
    rewrite ?inject_Z_plus; change (inject_Z 1) with 1; lra.
Qed.

Lemma Qabs_nonneg_eq x : 0 <= x -> Qabs x = x.
Proof.
  destruct x as [n d]. unfold Qle. cbn. intros Hn. f_equal. apply Z.abs_eq. lia.
Qed.

Lemma nearest_nonneg y : 0 <= y -> 0 <= JS.nearest y.
Proof.
  intros Hy. unfold JS.nearest. destruct (Qeq_bool y 0); [lra|].
  apply Qmult_le_0_compat; [|apply Qlt_le_weak, pow2_pos].
  change 0 with (inject_Z 0). rewrite <- Zle_Qle.
  apply Z.le_trans with (JS.nearestInteger (inject_Z 0));
    [rewrite nearestInteger_Z; lia|].
  apply nearestInteger_monotone.
  apply Qle_shift_div_l; [apply pow2_pos|].
  change (inject_Z 0) with 0. now rewrite Qmult_0_l.
Qed.

(** Rounding to the nearest double keeps the order. *)
Lemma nearest_monotone x y : 0 <= x -> x <= y -> JS.nearest x <= JS.nearest y.
Proof.
  intros Hx Hxy.
  destruct (Qeq_bool x 0) eqn:Hx0.
  { unfold JS.nearest at 1. rewrite Hx0. apply nearest_nonneg. lra. }
  apply Qeq_bool_neq in Hx0.
  assert (Hxpos : 0 < x).
  { apply Qle_lteq in Hx. destruct Hx as [Hx|Hx]; [exact Hx|].
    exfalso. apply Hx0. now symmetry. }
  assert (Hypos : 0 < y) by lra.
  assert (Hy0 : Qeq_bool y 0 = false).
  { destruct (Qeq_bool y 0) eqn:Hy0; [|reflexivity]. apply Qeq_bool_eq in Hy0. lra. }
  unfold JS.nearest. rewrite Hy0.
  destruct (Qeq_bool x 0) eqn:Hx0'; [apply Qeq_bool_eq in Hx0'; lra|].
  unfold JS.ulp. rewrite (Qabs_nonneg_eq x Hx), (Qabs_nonneg_eq y) by lra.
  pose proof (binade_monotone x y Hxpos Hxy) as Hbin.
  destruct (binade_spec x Hxpos) as [_ Hx2].
  destruct (binade_spec y Hypos) as [Hy1 _].
  set (ex := Z.max (JS.binade x) (-1022)).
  set (ey := Z.max (JS.binade y) (-1022)).
  pose proof (pow2_pos (ex - 52)) as Hux. pose proof (pow2_pos (ey - 52)) as Huy.
  destruct (Z.eq_dec ex ey) as [Heq|Hneq].
  - rewrite <- Heq. apply Qmult_le_compat_r; [|lra].
    rewrite <- Zle_Qle. apply nearestInteger_monotone.
    apply Qmult_le_compat_r; [exact Hxy|]. apply Qlt_le_weak, Qinv_lt_0_compat, Hux.
  - assert (Hlt : (ex < ey)%Z) by (unfold ex, ey in *; lia).
    assert (Hey : ey = JS.binade y) by (unfold ex, ey in *; lia).
    assert (HxB : x <= JS.pow2 ey).
    { apply Qlt_le_weak, Qlt_le_trans with (1 := Hx2). apply pow2_le. unfold ex in *. lia. }
    assert (HBy : JS.pow2 ey <= y) by (rewrite Hey; exact Hy1).
    apply Qle_trans with (JS.pow2 ey).
    + assert (HK : JS.pow2 ey == inject_Z (2 ^ (ey - ex + 52)) * JS.pow2 (ex - 52)).
      { rewrite <- pow2_Z by lia. rewrite <- pow2_add.
        now replace (ey - ex + 52 + (ex - 52))%Z with ey by ring. }
      rewrite HK at 1. apply Qmult_le_compat_r; [|lra].
      rewrite <- Zle_Qle.
      apply Z.le_trans with (JS.nearestInteger (inject_Z (2 ^ (ey - ex + 52))));
        [|rewrite nearestInteger_Z; lia].
      apply nearestInteger_monotone.
      apply Qle_shift_div_r; [exact Hux|]. now rewrite <- HK.
    + assert (HK : JS.pow2 ey == inject_Z (2 ^ 52) * JS.pow2 (ey - 52)).
      { rewrite <- pow2_Z by lia. rewrite <- pow2_add.
        now replace (52 + (ey - 52))%Z with ey by ring. }
      rewrite HK at 1. apply Qmult_le_compat_r; [|lra].
      rewrite <- Zle_Qle.
      apply Z.le_trans with (JS.nearestInteger (inject_Z (2 ^ 52)));
        [rewrite nearestInteger_Z; lia|].
      apply nearestInteger_monotone.
      apply Qle_shift_div_l; [exact Huy|]. now rewrite <- HK.
Qed.

(** From 1 on, the relative error of rounding is at most [2^-53]. *)
Lemma nearest_lower x : 1 <= x -> x * (1 - (1 # 9007199254740992)) <= JS.nearest x.
Proof.
  intros Hx. unfold JS.nearest.
  destruct (Qeq_bool x 0) eqn:Hx0; [apply Qeq_bool_eq in Hx0; lra|].
  unfold JS.ulp. rewrite (Qabs_nonneg_eq x) by lra.
  destruct (binade_spec x) as [Hb1 Hb2]; [lra|].
  assert (Hbin : (0 <= JS.binade x)%Z).
  { destruct (Z_le_gt_dec 0 (JS.binade x)) as [Hle|Hgt]; [exact Hle|].
    assert (Hpow : JS.pow2 (JS.binade x + 1) <= JS.pow2 0) by (apply pow2_le; lia).
    change (JS.pow2 0) with 1 in Hpow. lra. }
  rewrite Z.max_l by lia.
  set (e := JS.binade x) in *. set (u := JS.pow2 (e - 52)).
  pose proof (pow2_pos (e - 52)) as Hu. fold u in Hu.
  destruct (nearestInteger_error (x / u)) as [Herr _].
  assert (Hhalf : u * (1 # 2) == JS.pow2 e * (1 # 9007199254740992)).
  { unfold u. replace (e - 52)%Z with (e + (-52))%Z by ring. rewrite pow2_add.
    change (JS.pow2 (-52)) with (1 # 4503599627370496)%Q. ring. }
  apply Qle_trans with ((x / u - (1 # 2)) * u).
  - assert (E : (x / u - (1 # 2)) * u == x - u * (1 # 2)) by (field; lra).
    rewrite E, Hhalf. 
    assert (Hm : JS.pow2 e * (1 # 9007199254740992) <= x * (1 # 9007199254740992)).
    { apply Qmult_le_compat_r; [exact Hb1|discriminate]. }
    lra.
  - apply Qmult_le_compat_r; [exact Herr|lra].
Qed.

Lemma binade_unique b m :
  0 < b -> JS.pow2 m <= b -> b < JS.pow2 (m + 1) -> JS.binade b = m.
Proof.
  intros Hb Hlo Hhi. destruct (binade_spec b Hb) as [Hlo' Hhi'].
  destruct (Z.lt_trichotomy (JS.binade b) m) as [Hlt|[Heq|Hgt]]; [|exact Heq|].
  - assert (Hpow : JS.pow2 (JS.binade b + 1) <= JS.pow2 m) by (apply pow2_le; lia). lra.
  - assert (Hpow : JS.pow2 (m + 1) <= JS.pow2 (JS.binade b)) by (apply pow2_le; lia). lra.
Qed.

Lemma nearestInteger_eq x y : x == y -> JS.nearestInteger x = JS.nearestInteger y.
Proof.
  intros Hxy. apply Z.le_antisymm; apply nearestInteger_monotone; rewrite Hxy; apply Qle_refl.
Qed.

Lemma ulp_pos x : 0 < JS.ulp x.
Proof. apply pow2_pos. Qed.

(** A number that is some integer of at most 53 bits times the spacing of
    its own binade is a double: rounding leaves it alone. *)
Lemma nearest_of_multiple (k e : Z) :
  (-1022 <= e)%Z ->
  (Z.abs k <= 2 ^ 53)%Z ->
  (e = -1022 \/ 2 ^ 52 <= Z.abs k)%Z ->
  JS.nearest (inject_Z k * JS.pow2 (e - 52)) == inject_Z k * JS.pow2 (e - 52).
Proof.
  intros He Hk Hnormal.
  set (u := JS.pow2 (e - 52)). pose proof (pow2_pos (e - 52)) as Hu. fold u in Hu.
  set (y := inject_Z k * u).
  unfold JS.nearest. destruct (Qeq_bool y 0) eqn:Hy0.
  { apply Qeq_bool_eq in Hy0. now rewrite Hy0. }
  apply Qeq_bool_neq in Hy0.
  assert (Hk0 : k <> 0%Z).
  { intros ->. apply Hy0. unfold y. change (inject_Z 0) with 0. ring. }
  assert (Habs : Qabs y == inject_Z (Z.abs k) * u).
  { unfold y. rewrite Qabs_Qmult. rewrite (Qabs_pos u) by lra. reflexivity. }
  assert (Hpos : 0 < Qabs y).
  { rewrite Habs. apply Qmult_lt_0_compat; [|exact Hu].
    change 0 with (inject_Z 0). rewrite <- Zlt_Qlt. lia. }
  assert (H52 : JS.pow2 e == inject_Z (2 ^ 52) * u).
  { unfold u. rewrite <- pow2_Z by lia. rewrite <- pow2_add.
    now replace (52 + (e - 52))%Z with e by ring. }
  assert (H53 : JS.pow2 (e + 1) == inject_Z (2 ^ 53) * u).
  { unfold u. rewrite <- pow2_Z by lia. rewrite <- pow2_add.
    now replace (53 + (e - 52))%Z with (e + 1)%Z by ring. }
  assert (Hsame : JS.ulp y == u ->
            inject_Z (JS.nearestInteger (y / JS.ulp y)) * JS.ulp y == y).
  { intros Hulp.
    assert (E : y / JS.ulp y == inject_Z k).
    { rewrite Hulp. unfold y. field. lra. }
    rewrite (nearestInteger_eq _ _ E), nearestInteger_Z, Hulp. reflexivity. }
  destruct (Z.eq_dec (Z.abs k) (2 ^ 53)) as [Htop|Hbelow].
  - (* the significand has overflowed into the next binade *)
    assert (Hbin : JS.binade (Qabs y) = (e + 1)%Z).
    { apply binade_unique; [exact Hpos| |].
      - rewrite Habs, Htop, H53. apply Qle_refl.
      - rewrite Habs, Htop.
        replace (e + 1 + 1)%Z with (1 + (e + 1))%Z by ring. rewrite pow2_add, H53.
        change (JS.pow2 1) with 2.
        assert (0 < inject_Z (2 ^ 53) * u)
          by (apply Qmult_lt_0_compat; [reflexivity|exact Hu]).
        lra. }
    assert (Hulp : JS.ulp y == 2 * u).
    { unfold JS.ulp. rewrite Hbin, Z.max_l by lia.
      replace (e + 1 - 52)%Z with (1 + (e - 52))%Z by ring. rewrite pow2_add. reflexivity. }
    assert (Hhalf : exists h, k = (2 * h)%Z).
    { exists (k / 2)%Z. destruct (Z.abs_eq_or_opp k) as [E|E]; rewrite E in Htop.
      - rewrite Htop. reflexivity.
      - assert (k = (- 2 ^ 53)%Z) by lia. subst k. reflexivity. }
    destruct Hhalf as (h & ->).
    assert (E : y / JS.ulp y == inject_Z h).
    { rewrite Hulp. unfold y. rewrite inject_Z_mult. change (inject_Z 2) with 2. field. lra. }
    rewrite (nearestInteger_eq _ _ E), nearestInteger_Z, Hulp.
    unfold y. rewrite inject_Z_mult. change (inject_Z 2) with 2. ring.
  - apply Hsame. unfold JS.ulp.
    assert (Hupper : Qabs y < JS.pow2 (e + 1)).
    { rewrite Habs, H53. apply Qmult_lt_compat_r; [exact Hu|]. rewrite <- Zlt_Qlt. lia. }
    destruct (Z_le_gt_dec (2 ^ 52) (Z.abs k)) as [Hnorm|Hsub].
    + assert (Hbin : JS.binade (Qabs y) = e).
      { apply binade_unique; [exact Hpos| |exact Hupper].
        rewrite Habs, H52. apply Qmult_le_compat_r; [|lra]. now rewrite <- Zle_Qle. }
      rewrite Hbin, Z.max_l by lia. reflexivity.
    + assert (e = (-1022)%Z) by lia. subst e.
      assert (Hbin : (JS.binade (Qabs y) < -1022)%Z).
      { destruct (binade_spec (Qabs y) Hpos) as [Hlo _].
        destruct (Z_lt_ge_dec (JS.binade (Qabs y)) (-1022)) as [Hlt|Hge]; [exact Hlt|].
        assert (Hpow : JS.pow2 (-1022) <= JS.pow2 (JS.binade (Qabs y)))
          by (apply pow2_le; lia).
        assert (Hlow : Qabs y < JS.pow2 (-1022)).
        { rewrite Habs, H52. apply Qmult_lt_compat_r; [exact Hu|]. rewrite <- Zlt_Qlt. lia. }
        lra. }
      rewrite Z.max_r by lia. reflexivity.
Qed.

(** Rounding a second time changes nothing: what [nearest] returns is a
    double. *)
Lemma nearest_idempotent x : JS.nearest (JS.nearest x) == JS.nearest x.
Proof.
  unfold JS.nearest at 2 3. destruct (Qeq_bool x 0) eqn:Hx0; [reflexivity|].
  apply Qeq_bool_neq in Hx0.
  assert (Hpos : 0 < Qabs x).
  { destruct (Qlt_le_dec 0 (Qabs x)) as [H|H]; [exact H|].
    exfalso. apply Hx0.
    destruct (Qabs_Qle_condition x 0) as [Hc _]. specialize (Hc H). lra. }
  unfold JS.ulp.
  destruct (binade_spec (Qabs x) Hpos) as [Hlo Hhi].
  set (e := Z.max (JS.binade (Qabs x)) (-1022)).
  set (u := JS.pow2 (e - 52)). pose proof (pow2_pos (e - 52)) as Hu. fold u in Hu.
  assert (H52 : JS.pow2 e == inject_Z (2 ^ 52) * u).
  { unfold u. rewrite <- pow2_Z by lia. rewrite <- pow2_add.
    now replace (52 + (e - 52))%Z with e by ring. }
  assert (H53 : JS.pow2 (e + 1) == inject_Z (2 ^ 53) * u).
  { unfold u. rewrite <- pow2_Z by lia. rewrite <- pow2_add.
    now replace (53 + (e - 52))%Z with (e + 1)%Z by ring. }
  assert (Hhi' : Qabs x < inject_Z (2 ^ 53) * u).
  { rewrite <- H53. apply Qlt_le_trans with (1 := Hhi). apply pow2_le. unfold e. lia. }
  assert (Hrange : - inject_Z (2 ^ 53) <= x / u <= inject_Z (2 ^ 53)).
  { assert (Hx : - (inject_Z (2 ^ 53) * u) <= x <= inject_Z (2 ^ 53) * u).
    { apply Qabs_Qle_condition. lra. }
    split.
    - apply Qle_shift_div_l; [exact Hu|]. lra.
    - apply Qle_shift_div_r; [exact Hu|]. lra. }
  set (k := JS.nearestInteger (x / u)).
  assert (Hk : (Z.abs k <= 2 ^ 53)%Z).
  { destruct Hrange as [Hr1 Hr2].
    apply nearestInteger_monotone in Hr2. rewrite nearestInteger_Z in Hr2.
    rewrite <- inject_Z_opp in Hr1.
    apply nearestInteger_monotone in Hr1. rewrite nearestInteger_Z in Hr1.
    fold k in Hr1, Hr2. lia. }
  apply nearest_of_multiple; [unfold e; lia|exact Hk|].
  destruct (Z.eq_dec e (-1022)) as [He|He]; [now left|right].
  assert (Hbin : e = JS.binade (Qabs x)) by (unfold e in *; lia).
  assert (Hlo' : inject_Z (2 ^ 52) * u <= Qabs x) by (rewrite <- H52, Hbin; exact Hlo).
  destruct (Qlt_le_dec x 0) as [Hneg|Hnonneg].
  - rewrite Qabs_neg in Hlo' by lra.
    assert (Hq : x / u <= inject_Z (- 2 ^ 52)).
    { apply Qle_shift_div_r; [exact Hu|]. rewrite inject_Z_opp. lra. }
    apply nearestInteger_monotone in Hq. rewrite nearestInteger_Z in Hq. fold k in Hq. lia.
  - rewrite Qabs_pos in Hlo' by lra.
    assert (Hq : inject_Z (2 ^ 52) <= x / u).
    { apply Qle_shift_div_l; [exact Hu|]. lra. }
    apply nearestInteger_monotone in Hq. rewrite nearestInteger_Z in Hq. fold k in Hq. lia.
Qed.

(** Rounding depends on the value of a fraction, not on its terms. *)
Lemma nearest_eq x y : x == y -> JS.nearest x == JS.nearest y.
Proof.
  intros Hxy. unfold JS.nearest.
  destruct (Qeq_bool x 0) eqn:Hx0.
  - apply Qeq_bool_eq in Hx0. rewrite Hxy in Hx0. apply Qeq_bool_iff in Hx0.
    now rewrite Hx0.
  - apply Qeq_bool_neq in Hx0.
    destruct (Qeq_bool y 0) eqn:Hy0.
    { apply Qeq_bool_eq in Hy0. exfalso. apply Hx0. now rewrite Hxy. }
    assert (Hpos : 0 < Qabs x).
    { destruct (Qlt_le_dec 0 (Qabs x)) as [H|H]; [exact H|].
      exfalso. apply Hx0.
      destruct (Qabs_Qle_condition x 0) as [Hc _]. specialize (Hc H). lra. }
    assert (Habs : Qabs x == Qabs y) by now rewrite Hxy.
    assert (Hbin : JS.binade (Qabs y) = JS.binade (Qabs x)).
    { destruct (binade_spec (Qabs x) Hpos) as [Hlo Hhi].
      apply binade_unique; rewrite <- Habs; assumption. }
    unfold JS.ulp. rewrite Hbin.
    set (u := JS.pow2 _).
    pose proof (pow2_pos (Z.max (JS.binade (Qabs x)) (-1022) - 52)) as Hu. fold u in Hu.
    assert (E : x / u == y / u) by now rewrite Hxy.
    now rewrite (nearestInteger_eq _ _ E).
Qed.

(** The integers up to [2^53] are doubles. *)
Lemma nearest_integer (n : Z) :
  (Z.abs n <= 2 ^ 53)%Z -> JS.nearest (inject_Z n) == inject_Z n.
Proof.
  intros Hn. destruct (Z.eq_dec n 0) as [->|Hn0]; [reflexivity|].
  set (e := Z.log2 (Z.abs n)).
  assert (Habs : (0 < Z.abs n)%Z) by lia.
  destruct (Z.log2_spec (Z.abs n) Habs) as [Hlo Hhi]. fold e in Hlo, Hhi.
  assert (He : (0 <= e)%Z) by apply Z.log2_nonneg.
  clearbody e.
  assert (He53 : (e <= 53)%Z).
  { destruct (Z_le_gt_dec e 53) as [H|H]; [exact H|].
    assert (2 ^ 54 <= 2 ^ e)%Z by (apply Z.pow_le_mono_r; lia). lia. }
  destruct (Z_le_gt_dec e 52) as [Hsmall|Htop].
  - assert (E : inject_Z n == inject_Z (n * 2 ^ (52 - e)) * JS.pow2 (e - 52)).
    { rewrite inject_Z_mult, <- pow2_Z by lia. rewrite <- Qmult_assoc, <- pow2_add.
      replace (52 - e + (e - 52))%Z with 0%Z by ring. change (JS.pow2 0) with 1. ring. }
    apply Qeq_trans with (1 := nearest_eq _ _ E).
    apply Qeq_trans with (2 := Qeq_sym _ _ E).
    assert (Hp : (0 < 2 ^ (52 - e))%Z) by (apply Z.pow_pos_nonneg; lia).
    assert (Hsplit : (2 ^ 52 = 2 ^ e * 2 ^ (52 - e))%Z).
    { rewrite <- Z.pow_add_r by lia. f_equal. lia. }
    assert (Hsplit' : (2 ^ 53 = 2 ^ Z.succ e * 2 ^ (52 - e))%Z).
    { rewrite <- Z.pow_add_r by lia. f_equal. lia. }
    apply nearest_of_multiple; [lia| |right]; rewrite Z.abs_mul, (Z.abs_eq (2 ^ (52 - e))) by lia.
    + rewrite Hsplit'.
      apply Z.mul_le_mono_nonneg_r; [apply Z.lt_le_incl, Hp|apply Z.lt_le_incl, Hhi].
    + rewrite Hsplit.
      apply Z.mul_le_mono_nonneg_r; [apply Z.lt_le_incl, Hp|exact Hlo].
  - assert (e = 53%Z) by lia. subst e.
    assert (Hn53 : Z.abs n = (2 ^ 53)%Z) by lia.
    assert (Hcase : n = (2 ^ 53)%Z \/ n = (- 2 ^ 53)%Z) by lia.
    destruct Hcase as [->| ->]; vm_compute; reflexivity.
Qed.

(** On doubles the operators are the exact result rounded once. *)
Lemma mul_of_doubles a b :
  JS.nearest a == a -> JS.nearest b == b -> JS.mul a b == JS.nearest (a * b).
Proof. intros Ha Hb. unfold JS.mul. apply nearest_eq. now rewrite Ha, Hb. Qed.

Lemma add_of_doubles a b :
  JS.nearest a == a -> JS.nearest b == b -> JS.add a b == JS.nearest (a + b).
Proof. intros Ha Hb. unfold JS.add. apply nearest_eq. now rewrite Ha, Hb. Qed.

(** The row count that [_setUpRenderCanvas] provisions for is not below the
    row count it was given. *)
Lemma provision_rows_cover (n : Z) :
  (0 <= n)%Z ->
  inject_Z n <= JS.add (JS.round (JS.mul (inject_Z n) (3 # 2))) 1.
Proof.
  intros Hn. unfold JS.add, JS.mul.
  destruct (Z.eq_dec n 0) as [->|Hpos].
  { vm_compute. discriminate. }
  assert (Hone : 1 <= inject_Z n).
  { change 1 with (inject_Z 1). rewrite <- Zle_Qle. lia. }
  pose proof (nearest_lower (inject_Z n) Hone) as HN.
  set (N := JS.nearest (inject_Z n)) in *.
  set (T := JS.nearest (3 # 2)). vm_compute in T.
  set (one := JS.nearest 1). vm_compute in one.
  pose proof (nearest_lower (N * T)) as HA.
  set (A := JS.nearest (N * T)) in *.
  assert (HA' : N * T * (1 - (1 # 9007199254740992)) <= A) by (apply HA; subst T; lra).
  unfold JS.round.
  pose proof (Qlt_floor (A + (1 # 2))) as HB.
  rewrite inject_Z_plus in HB. change (inject_Z 1) with 1 in HB.
  assert (HB1 : 1 <= inject_Z (Qfloor (A + (1 # 2)))).
  { assert (Hge : 1 <= A + (1 # 2)) by (subst T; lra).
    change 1 with (inject_Z 1). rewrite <- Zle_Qle.
    exact (Qfloor_resp_le 1 (A + (1 # 2)) Hge). }
  set (B := inject_Z (Qfloor (A + (1 # 2)))) in *.
  pose proof (nearest_lower B HB1) as HB'.
  set (B' := JS.nearest B) in *.
  pose proof (nearest_lower (B' + one)) as HC.
  set (C := JS.nearest (B' + one)) in *.
  assert (HC' : (B' + one) * (1 - (1 # 9007199254740992)) <= C) by (apply HC; subst one; lra).
  subst T one. lra.
Qed.

Lemma machine_product_monotone (a b h : Q) :
  0 <= a -> a <= b -> 0 <= h -> JS.mul a h <= JS.mul b h.
Proof.
  intros Ha Hab Hh. unfold JS.mul.
  pose proof (nearest_nonneg a Ha) as Ha'.
  pose proof (nearest_nonneg h Hh) as Hh'.
  pose proof (nearest_monotone a b Ha Hab) as Hab'.
  apply nearest_monotone.
  - now apply Qmult_le_0_compat.
  - now apply Qmult_le_compat_r.
Qed.

End DoubleFacts.

(** The products agree with the machine's on the usual examples of
    inexact doubles, whether the operand is given as the decimal or as the
    double it denotes. *)
Example literal_is_nearest_double :
  (JS.literal (166 # 10) == 2336242306698445 # 140737488355328)%Q /\
  (JS.literal (1 # 10) == 3602879701896397 # 36028797018963968)%Q.
Proof. split; vm_compute; reflexivity. Qed.

Example mul_rounds_to_nearest :
  (JS.mul 15 (166 # 10) == 8760908650119169 # 35184372088832)%Q /\
  (JS.mul 15 (JS.literal (166 # 10)) == 8760908650119169 # 35184372088832)%Q /\
  (JS.mul 110 (11 # 10) == 8514618045497345 # 70368744177664)%Q /\
  (JS.mul 3 (1 # 10) == 1351079888211149 # 4503599627370496)%Q /\
  (JS.mul 10 (1 # 10) == 1)%Q.
Proof. repeat split; vm_compute; reflexivity. Qed.

Example add_rounds_to_even :
  (JS.add 9007199254740992 1 == 9007199254740992)%Q /\
  (JS.add 9007199254740994 1 == 9007199254740996)%Q /\
  (JS.add (1 # 10) (2 # 10) == 1351079888211149 # 4503599627370496)%Q.
Proof. repeat split; vm_compute; reflexivity. Qed.

(** ** The rational pixel scaler *)

Section PixelRatioFacts.

Context {imports : Imports}.

Lemma pair_ratio_one (r len : Q) :
  (r == 1)%Q ->
  _computeDevicePixelRatioPair r len = mkLengthPair len len.
Proof.
  intros H. unfold _computeDevicePixelRatioPair.
  apply Qeq_bool_iff in H. now rewrite H.
Qed.

Lemma pair_ratio_other (r len : Q) (p q : Z) :
  ~ (r == 1)%Q ->
  ratioToFraction r = (p, q) ->
  _computeDevicePixelRatioPair r len =
    mkLengthPair (JS.ceil (len / inject_Z q) * inject_Z q)
                 (JS.ceil (len / inject_Z q) * inject_Z q / inject_Z q * inject_Z p).
Proof.
  intros Hne Hfr. unfold _computeDevicePixelRatioPair.
  destruct (Qeq_bool r 1) eqn:E.
  - apply Qeq_bool_iff in E. contradiction.
  - now rewrite Hfr.
Qed.

Lemma screen_is_smallest_multiple (len : Q) (q : Z) :
  0 < q ->
  smallest_multiple_ge q len (JS.ceil (len / inject_Z q) * inject_Z q)%Q.
Proof.
  intros Hq.
  assert (Hq' : (0 < inject_Z q)%Q) by now apply inject_pos.
  exists (Qceiling (len / inject_Z q)). split; [reflexivity|]. split.
  - assert (H := ceil_ge (len / inject_Z q)).
    apply (Qmult_le_r _ _ (inject_Z q) Hq') in H.
    assert (E : (len / inject_Z q * inject_Z q == len)%Q) by (field; lra).
    rewrite E in H. exact H.
  - intros k' Hk'.
    apply Qmult_le_r; [exact Hq'|].
    apply ceil_least.
    apply Qle_shift_div_r; assumption.
Qed.

End PixelRatioFacts.

(** C1. For a positive ratio [r] and a positive length [len]:
    when [r == 1] the pair is [(len, len)]; otherwise, with [p/q] the
    reduced fraction that [ratioToFraction] returns for [r], the screen
    length is the smallest multiple of [q] that is at least [len], the
    render length is [screenLength / q * p], their quotient is exactly [r]
    and the screen length is at least [len]. *)
Theorem computeDevicePixelRatioPair_correct
    (imports : Imports) (r len : Q) (p q : Z) :
  (0 < r)%Q -> (0 < len)%Q ->
  ratioToFraction r = (p, q) ->
  0 < q -> Z.gcd p q = 1 -> (inject_Z p / inject_Z q == r)%Q ->
  let res := _computeDevicePixelRatioPair r len in
  ((r == 1)%Q -> res = mkLengthPair len len) /\
  (~ (r == 1)%Q ->
     smallest_multiple_ge q len (screenLength res) /\
     renderLength res = (screenLength res / inject_Z q * inject_Z p)%Q /\
     (renderLength res / screenLength res == r)%Q /\
     (len <= screenLength res)%Q).
Proof.
  intros Hr Hlen Hfr Hq _ Hpq res. split.
  - intros H1. now apply pair_ratio_one.
  - intros Hne. unfold res.
    rewrite (pair_ratio_other r len p q Hne Hfr). cbn [screenLength renderLength].
    pose proof (screen_is_smallest_multiple len q Hq) as Hsm.
    assert (Hq' : (0 < inject_Z q)%Q) by now apply inject_pos.
    destruct Hsm as (k & Hk & Hge & Hmin).
    split; [exists k; auto|]. split; [reflexivity|]. split; [|exact Hge].
    set (s := (JS.ceil (len / inject_Z q) * inject_Z q)%Q) in *.
    assert (Hs : (0 < s)%Q) by lra.
    rewrite <- Hpq. field. split; lra.
Qed.

Lemma computeDevicePixelRatioPair_correct_witness :
  let res := @_computeDevicePixelRatioPair Sample.imports (3#2) 7 in
  (((3#2) == 1)%Q -> res = mkLengthPair 7 7) /\
  (~ ((3#2) == 1)%Q ->
     smallest_multiple_ge 2 7 (screenLength res) /\
     renderLength res = (screenLength res / inject_Z 2 * inject_Z 3)%Q /\
     (renderLength res / screenLength res == 3#2)%Q /\
     (7 <= screenLength res)%Q).
Proof.
  apply (computeDevicePixelRatioPair_correct Sample.imports (3#2) 7 3 2);
    reflexivity.
Defined.

(** The scaler on the ratios 1, 1.25 and 1.5. *)
Example computeDevicePixelRatioPair_samples :
  @_computeDevicePixelRatioPair Sample.imports 1 7 = mkLengthPair 7 7 /\
  (screenLength (@_computeDevicePixelRatioPair Sample.imports (5#4) 7) == 8)%Q /\
  (renderLength (@_computeDevicePixelRatioPair Sample.imports (5#4) 7) == 10)%Q /\
  (screenLength (@_computeDevicePixelRatioPair Sample.imports (3#2) 100) == 100)%Q /\
  (renderLength (@_computeDevicePixelRatioPair Sample.imports (3#2) 100) == 150)%Q.
Proof. repeat split. Qed.

(** ** The row visibility resolver *)

Section VisibleRows.

Variable session : EditSession.
Variable lastRow : Z.

(** The rows already collected are a prefix of the result. *)
Lemma visibleRows_loop_acc fuel : forall r fl fs acc,
  visibleRows_loop session lastRow fuel r fl fs acc =
  match visibleRows_loop session lastRow fuel r fl fs [] with
  | Ok rows => Ok (acc ++ rows)
  | TypeError => TypeError
  | OutOfFuel => OutOfFuel
  end.
Proof.
  induction fuel as [|fuel IH]; intros r fl fs acc; cbn [visibleRows_loop].
  - reflexivity.
  - destruct (skipFold session r fl fs) as [[r1 fl1] fs1].
    destruct (r1 >? lastRow).
    + reflexivity.
    + rewrite (IH _ _ _ (acc ++ [r1])). rewrite (IH _ _ _ ([] ++ [r1])).
      destruct (visibleRows_loop session lastRow fuel (r1 + 1) fl1 fs1 []);
        try reflexivity.
      now rewrite <- app_assoc.
Qed.

(** More fuel does not change a result already reached. *)
Lemma visibleRows_loop_fuel fuel : forall r fl fs acc rows,
  visibleRows_loop session lastRow fuel r fl fs acc = Ok rows ->
  forall fuel', (fuel <= fuel')%nat ->
  visibleRows_loop session lastRow fuel' r fl fs acc = Ok rows.
Proof.
  induction fuel as [|fuel IH]; intros r fl fs acc rows H fuel' Hle.
  - discriminate.
  - destruct fuel' as [|fuel']; [lia|].
    cbn [visibleRows_loop] in H |- *.
    destruct (skipFold session r fl fs) as [[r1 fl1] fs1].
    destruct (r1 >? lastRow); [exact H|].
    eapply IH; [eassumption|lia].
Qed.

Hypothesis Hwf : wf_lookup session.

Lemma skipFold_inv r fl fs r1 fl1 fs1 :
  fold_inv r fl fs ->
  skipFold session r fl fs = (r1, fl1, fs1) ->
  r <= r1 /\ fold_inv (r1 + 1) fl1 fs1.
Proof.
  intros [Hfs Hfl] H. unfold skipFold in H.
  destruct (gt_foldStart r fs) eqn:G.
  - destruct fl as [f|].
    + injection H as <- <- <-.
      destruct (Hfl f eq_refl) as [H1 H2].
      split; [lia|]. split; [reflexivity|].
      intros f' Hf'. apply Hwf in Hf'. lia.
    + subst fs. discriminate.
  - injection H as <- <- <-. split; [lia|]. split; [exact Hfs|].
    intros f Hf. destruct (Hfl f Hf) as [H1 H2]. split; [|exact H2].
    subst fs fl. cbn in G. lia.
Qed.

(** With a well-behaved look-up the loop reaches its [break] within
    [lastRow + 1 - row] further iterations, and the rows it appends
    increase strictly. *)
Lemma visibleRows_loop_spec fuel : forall r fl fs,
  fold_inv r fl fs ->
  (Z.to_nat (lastRow + 1 - r) < fuel)%nat ->
  exists rows,
    visibleRows_loop session lastRow fuel r fl fs [] = Ok rows /\
    increasing rows /\
    (forall y, In y rows -> r <= y) /\
    (1 <= List.length rows <= Z.to_nat (lastRow + 1 - r) + 1)%nat /\
    lastRow < last rows 0 /\
    (forall y, In y (removelast rows) -> y <= lastRow).
Proof.
  induction fuel as [|fuel IH]; intros r fl fs Hinv Hfuel; [lia|].
  cbn [visibleRows_loop].
  destruct (skipFold session r fl fs) as [[r1 fl1] fs1] eqn:Hskip.
  destruct (skipFold_inv _ _ _ _ _ _ Hinv Hskip) as [Hr1 Hinv1].
  destruct (r1 >? lastRow) eqn:Hbreak.
  - exists [r1]. cbn. repeat split; try tauto; try lia.
  - assert (Hle : r1 <= lastRow) by lia.
    destruct (IH (r1 + 1) fl1 fs1 Hinv1) as (rows & Hrun & Hinc & Hlow & Hlen & Hlast & Hinit);
      [lia|].
    rewrite visibleRows_loop_acc, Hrun. exists (r1 :: rows).
    split; [reflexivity|]. split; [|split; [|split; [|split]]].
    + cbn. split; [|exact Hinc]. intros y Hy. apply Hlow in Hy. lia.
    + intros y [<-|Hy]; [exact Hr1|]. apply Hlow in Hy. lia.
    + cbn [List.length]. lia.
    + destruct rows as [|x rows']; [cbn in Hlen; lia|exact Hlast].
    + destruct rows as [|x rows']; [cbn in Hlen; lia|].
      intros y Hy. cbn [removelast] in Hy. destruct Hy as [<-|Hy]; [exact Hle|].
      now apply Hinit.
Qed.

(** Without folds the loop walks from [r] to one past [lastRow]. *)
Lemma visibleRows_loop_nofold fuel : forall r,
  (Z.to_nat (lastRow + 1 - r) < fuel)%nat ->
  r <= lastRow + 1 ->
  exists rows,
    visibleRows_loop session lastRow fuel r None Infinity [] = Ok rows /\
    Z.of_nat (List.length rows) = lastRow - r + 2.
Proof.
  induction fuel as [|fuel IH]; intros r Hfuel Hr; [lia|].
  cbn [visibleRows_loop skipFold gt_foldStart].
  destruct (r >? lastRow) eqn:Hbreak.
  - exists [r]. split; [reflexivity|]. cbn. lia.
  - destruct (IH (r + 1)) as (rows & Hrun & Hlen); [lia|lia|].
    rewrite visibleRows_loop_acc, Hrun. exists (r :: rows).
    split; [reflexivity|]. cbn [List.length]. lia.
Qed.

End VisibleRows.

Section VisibleRowsComplete.

Variable session : EditSession.
Variable lastRow : Z.
Hypothesis Hwf : wf_lookup session.

(** A row from [r] to [lastRow] that the loop does not give lies inside
    a fold that the look-up has reported. *)
Lemma visibleRows_loop_complete fuel : forall r fl fs rows,
  fold_inv r fl fs ->
  (forall f, fl = Some f ->
     exists docRow startFoldLine, getNextFoldLine session docRow startFoldLine = Some f) ->
  visibleRows_loop session lastRow fuel r fl fs [] = Ok rows ->
  forall y, r <= y <= lastRow -> In y rows \/ hidden_row session y.
Proof.
  induction fuel as [|fuel IH]; intros r fl fs rows Hinv Hrep Hrun y Hy; [discriminate|].
  cbn [visibleRows_loop] in Hrun.
  destruct (skipFold session r fl fs) as [[r1 fl1] fs1] eqn:Hskip.
  destruct (skipFold_inv session Hwf _ _ _ _ _ _ Hinv Hskip) as [Hr1 Hinv1].
  assert (Hjump : (r1 = r /\ fl1 = fl) \/
                  (exists f, fl = Some f /\ row (fold_start f) < r /\
                             r1 = row (fold_end f) + 1 /\
                             fl1 = getNextFoldLine session r1 (Some f))).
  { unfold skipFold in Hskip. destruct Hinv as [Hfs _].
    destruct (gt_foldStart r fs) eqn:G.
    - destruct fl as [f|].
      + injection Hskip as <- <- <-. right. exists f. subst fs. cbn in G.
        repeat split. lia.
      + injection Hskip as <- <- <-. now left.
    - injection Hskip as <- <- <-. now left. }
  assert (Hrep1 : forall f, fl1 = Some f ->
            exists docRow startFoldLine, getNextFoldLine session docRow startFoldLine = Some f).
  { destruct Hjump as [[_ ->]|(f & _ & _ & _ & ->)]; [exact Hrep|].
    intros f' Hf'. now exists r1, (Some f). }
  assert (Hbefore : y < r1 -> hidden_row session y).
  { intros Hlt. destruct Hjump as [[-> _]|(f & Hfl & Hstart & -> & _)]; [lia|].
    destruct (Hrep f Hfl) as (docRow & startFoldLine & Hlookup).
    exists docRow, startFoldLine, f. split; [exact Hlookup|]. unfold hidden_by. lia. }
  destruct (Z_lt_ge_dec y r1) as [Hlt|Hge]; [right; now apply Hbefore|].
  destruct (r1 >? lastRow) eqn:Hbreak; [lia|].
  rewrite visibleRows_loop_acc in Hrun.
  destruct (visibleRows_loop session lastRow fuel (r1 + 1) fl1 fs1 []) as [rows'| |] eqn:Hrun';
    try discriminate.
  injection Hrun as <-.
  destruct (Z.eq_dec y r1) as [->|Hne]; [left; now left|].
  destruct (IH (r1 + 1) fl1 fs1 rows' Hinv1 Hrep1 Hrun' y) as [Hin|Hhid]; [lia| |].
  - left. now right.
  - now right.
Qed.

End VisibleRowsComplete.

(** A list that holds every row from [lo] to [hi] has at least as many
    entries. *)
Lemma viewport_rows_counted (lo hi : Z) (l : list Z) :
  (forall y, lo <= y <= hi -> In y l) ->
  hi - lo + 1 <= Z.of_nat (List.length l).
Proof.
  intros Hall.
  set (rows := List.map (fun k => lo + Z.of_nat k) (seq 0 (Z.to_nat (hi - lo + 1)))).
  assert (Hnodup : NoDup rows).
  { unfold rows. generalize (seq_NoDup (Z.to_nat (hi - lo + 1)) 0).
    generalize (seq 0 (Z.to_nat (hi - lo + 1))) as ks.
    induction 1 as [|k ks Hk _ IH]; cbn [List.map]; constructor; [|exact IH].
    intros Hin. apply in_map_iff in Hin. destruct Hin as (k' & Heq & Hin).
    apply Hk. now replace k with k' by lia. }
  assert (Hincl : incl rows l).
  { intros y Hy. apply in_map_iff in Hy. destruct Hy as (k & <- & Hk).
    apply in_seq in Hk. apply Hall. lia. }
  pose proof (NoDup_incl_length Hnodup Hincl) as Hlen.
  unfold rows in Hlen. rewrite length_map, length_seq in Hlen. lia.
Qed.

Lemma in_removelast (l : list Z) (y : Z) :
  In y l -> y <> last l 0 -> In y (removelast l).
Proof.
  intros Hin Hne. destruct l as [|x l']; [contradiction|].
  rewrite (app_removelast_last 0 (l := x :: l')) in Hin by discriminate.
  apply in_app_or in Hin. destruct Hin as [Hin|[Heq|[]]]; [exact Hin|congruence].
Qed.

Lemma getVisibleRows_fuel this config fuel fuel' rows :
  _getVisibleRows this config fuel = Ok rows ->
  (fuel <= fuel')%nat ->
  _getVisibleRows this config fuel' = Ok rows.
Proof.
  unfold _getVisibleRows. destruct (_editSession this) as [session|]; [|discriminate].
  intros H Hle. eapply visibleRows_loop_fuel; eassumption.
Qed.

(** The resolver returns when the look-up is well behaved and the fuel
    covers the rows of the viewport. *)
Lemma getVisibleRows_returns this session config fuel :
  _editSession this = Some session ->
  wf_lookup session ->
  (enoughFuel config <= fuel)%nat ->
  exists rows,
    _getVisibleRows this config fuel = Ok rows /\
    increasing rows /\
    (forall y, In y rows -> firstRow config <= y) /\
    (1 <= List.length rows <= enoughFuel config)%nat /\
    lastRow config < last rows 0 /\
    (forall y, In y (removelast rows) -> y <= lastRow config).
Proof.
  intros Hs Hwf Hfuel. unfold _getVisibleRows. rewrite Hs.
  unfold enoughFuel in *.
  destruct (visibleRows_loop_spec session (lastRow config) Hwf fuel (firstRow config)
              (getNextFoldLine session (firstRow config) None)
              (foldStartOf (getNextFoldLine session (firstRow config) None)))
    as (rows & Hrun & Hrest).
  - split; [reflexivity|]. intros f Hf. apply Hwf in Hf. lia.
  - lia.
  - exists rows. split; [exact Hrun|].
    destruct Hrest as (H1 & H2 & H3 & H4 & H5). repeat split; try assumption; lia.
Qed.

Lemma sample_session_wf : wf_lookup Sample.session.
Proof. intros docRow s f H. discriminate H. Qed.

Lemma sample_foldedSession_wf : wf_lookup Sample.foldedSession.
Proof.
  intros docRow s f. cbn. unfold singleFoldLookup. cbn.
  destruct (4 >=? docRow) eqn:E; [|discriminate].
  intros H. injection H as <-. cbn. lia.
Qed.

(** C2. With first row 0 and last row 5: a look-up that reports no fold
    gives exactly the rows 0 to 6 (the row one past the last included); a
    look-up over the single fold of rows 2 to 4 gives exactly 0, 1, 2, 5, 6
    (the fold's first row is given once, before the jump). *)
Theorem getVisibleRows_examples this session config fuel :
  _editSession this = Some session ->
  firstRow config = 0 -> lastRow config = 5 ->
  (7 <= fuel)%nat ->
  ((forall r s, getNextFoldLine session r s = None) ->
   _getVisibleRows this config fuel = Ok [0; 1; 2; 3; 4; 5; 6]) /\
  (forall f,
     row (fold_start f) = 2 -> row (fold_end f) = 4 ->
     (forall r s, getNextFoldLine session r s = singleFoldLookup f r s) ->
     _getVisibleRows this config fuel = Ok [0; 1; 2; 5; 6]).
Proof.
  intros Hs Hfirst Hlast Hfuel. split.
  - intros Hnone. apply getVisibleRows_fuel with (fuel := 7%nat); [|exact Hfuel].
    unfold _getVisibleRows. rewrite Hs, Hfirst, Hlast, Hnone. reflexivity.
  - intros f Hstart Hend Hlookup.
    apply getVisibleRows_fuel with (fuel := 7%nat); [|exact Hfuel].
    destruct f as [[startRow startColumn] [endRow endColumn]].
    cbn in Hstart, Hend. subst startRow endRow.
    unfold _getVisibleRows. rewrite Hs, Hfirst, Hlast.
    repeat (rewrite Hlookup; unfold singleFoldLookup; cbn).
    reflexivity.
Qed.

Lemma getVisibleRows_examples_witness :
  _getVisibleRows Sample.layer Sample.config05 7 = Ok [0; 1; 2; 3; 4; 5; 6] /\
  _getVisibleRows Sample.foldedLayer Sample.config05 7 = Ok [0; 1; 2; 5; 6].
Proof.
  split.
  - apply (proj1 (getVisibleRows_examples Sample.layer Sample.session Sample.config05 7
                    eq_refl eq_refl eq_refl (le_n 7))).
    reflexivity.
  - apply (proj2 (getVisibleRows_examples Sample.foldedLayer Sample.foldedSession
                    Sample.config05 7 eq_refl eq_refl eq_refl (le_n 7)) Sample.fold24);
      reflexivity.
Defined.

(** C3, as the specification words it, fails: with rows 2 to 4 folded and a
    viewport of rows 0 to 5 the resolver gives five rows, fewer than
    [lastRow - firstRow + 1 = 6]. *)
Lemma getVisibleRows_length_counterexample :
  firstRow Sample.config05 <= lastRow Sample.config05 /\
  wf_lookup Sample.foldedSession /\
  exists rows,
    _getVisibleRows Sample.foldedLayer Sample.config05 7 = Ok rows /\
    increasing rows /\
    ~ (lastRow Sample.config05 - firstRow Sample.config05 + 1 <= Z.of_nat (List.length rows)).
Proof.
  split; [cbn; lia|]. split.
  - intros docRow s f. cbn. unfold singleFoldLookup. cbn.
    destruct (4 >=? docRow) eqn:E; [|discriminate].
    intros H. injection H as <-. cbn. lia.
  - exists [0; 1; 2; 5; 6]. split; [reflexivity|]. split.
    + cbn. intuition lia.
    + cbn. lia.
Qed.

(** C3, amended.  For a viewport with [firstRow <= lastRow] and a look-up
    that keeps the editor's contract, the resolver returns a strictly
    increasing sequence of document rows, none before [firstRow]; its last
    entry is the only one past [lastRow]; it has at least one and at most
    [lastRow - firstRow + 2] entries.  It gives every row of the viewport
    that no reported fold hides: its length is at least
    [lastRow - firstRow + 2] less the number of hidden rows of the
    viewport, and is [lastRow - firstRow + 2] (hence at least
    [lastRow - firstRow + 1]) when no reported fold hides a row of the
    viewport. *)
Theorem getVisibleRows_ordered_bounded this session config fuel :
  _editSession this = Some session ->
  wf_lookup session ->
  firstRow config <= lastRow config ->
  (enoughFuel config <= fuel)%nat ->
  exists rows,
    _getVisibleRows this config fuel = Ok rows /\
    increasing rows /\
    (forall y, In y rows -> firstRow config <= y) /\
    lastRow config < last rows 0 /\
    (forall y, In y (removelast rows) -> y <= lastRow config) /\
    1 <= Z.of_nat (List.length rows) <= lastRow config - firstRow config + 2 /\
    (forall y, firstRow config <= y <= lastRow config ->
       In y rows \/ hidden_row session y) /\
    (forall hiddenRows,
       (forall y, firstRow config <= y <= lastRow config ->
          hidden_row session y -> In y hiddenRows) ->
       lastRow config - firstRow config + 2
       <= Z.of_nat (List.length rows) + Z.of_nat (List.length hiddenRows)) /\
    ((forall y, firstRow config <= y <= lastRow config -> ~ hidden_row session y) ->
     Z.of_nat (List.length rows) = lastRow config - firstRow config + 2).
Proof.
  intros Hs Hwf Hrows Hfuel.
  destruct (getVisibleRows_returns this session config fuel Hs Hwf Hfuel)
    as (rows & Hrun & Hinc & Hlow & Hlen & Hlast & Hinit).
  assert (Hcomplete : forall y, firstRow config <= y <= lastRow config ->
                        In y rows \/ hidden_row session y).
  { unfold _getVisibleRows in Hrun. rewrite Hs in Hrun.
    apply (visibleRows_loop_complete session (lastRow config) Hwf fuel (firstRow config)
             (getNextFoldLine session (firstRow config) None)
             (foldStartOf (getNextFoldLine session (firstRow config) None)) rows);
      [| |exact Hrun].
    - split; [reflexivity|]. intros f Hf. apply Hwf in Hf. lia.
    - intros f Hf. now exists (firstRow config), None. }
  assert (Hcount : forall hiddenRows,
            (forall y, firstRow config <= y <= lastRow config ->
               hidden_row session y -> In y hiddenRows) ->
            lastRow config - firstRow config + 2
            <= Z.of_nat (List.length rows) + Z.of_nat (List.length hiddenRows)).
  { intros hiddenRows Hhidden.
    assert (Hall : forall y, firstRow config <= y <= lastRow config ->
                     In y (removelast rows ++ hiddenRows)).
    { intros y Hy. apply in_or_app. destruct (Hcomplete y Hy) as [Hin|Hhid].
      - left. apply in_removelast; [exact Hin|lia].
      - right. now apply Hhidden. }
    apply viewport_rows_counted in Hall. rewrite length_app in Hall.
    assert (Hremove : (List.length (removelast rows) = List.length rows - 1)%nat).
    { destruct rows as [|x rows']; [cbn in Hlen; lia|].
      rewrite (app_removelast_last 0 (l := x :: rows')) at 2 by discriminate.
      rewrite length_app. cbn [List.length]. lia. }
    lia. }
  exists rows. split; [exact Hrun|]. split; [exact Hinc|]. split; [exact Hlow|].
  split; [exact Hlast|]. split; [exact Hinit|].
  assert (Hbounds : 1 <= Z.of_nat (List.length rows) <= lastRow config - firstRow config + 2).
  { unfold enoughFuel in Hlen. lia. }
  split; [exact Hbounds|]. split; [exact Hcomplete|]. split; [exact Hcount|].
  intros Hnone. specialize (Hcount [] (fun y Hy Hhid => False_ind _ (Hnone y Hy Hhid))).
  cbn [List.length] in Hcount. lia.
Qed.

Lemma getVisibleRows_ordered_bounded_witness :
  exists rows,
    _getVisibleRows Sample.foldedLayer Sample.config05 7 = Ok rows /\
    increasing rows /\
    (forall y, In y rows -> 0 <= y) /\
    5 < last rows 0 /\
    (forall y, In y (removelast rows) -> y <= 5) /\
    1 <= Z.of_nat (List.length rows) <= 5 - 0 + 2 /\
    (forall y, 0 <= y <= 5 -> In y rows \/ hidden_row Sample.foldedSession y) /\
    (forall hiddenRows,
       (forall y, 0 <= y <= 5 -> hidden_row Sample.foldedSession y -> In y hiddenRows) ->
       5 - 0 + 2 <= Z.of_nat (List.length rows) + Z.of_nat (List.length hiddenRows)) /\
    ((forall y, 0 <= y <= 5 -> ~ hidden_row Sample.foldedSession y) ->
     Z.of_nat (List.length rows) = 5 - 0 + 2).
Proof.
  apply (getVisibleRows_ordered_bounded Sample.foldedLayer Sample.foldedSession
           Sample.config05 7 eq_refl).
  - exact sample_foldedSession_wf.
  - cbn. lia.
  - vm_compute. lia.
Defined.

(** A fold below the viewport hides none of its rows: with rows 10 to 12
    folded the viewport of rows 0 to 5 gets its seven rows. *)
Example getVisibleRows_fold_below_viewport :
  _getVisibleRows
    (setSession (constructor 1 Sample.options)
       (Some {| getTerminalLine := getTerminalLine Sample.session;
                getLine := getLine Sample.session;
                getNextFoldLine :=
                  singleFoldLookup (mkFoldLine (mkPosition 10 0) (mkPosition 12 0)) |}))
    Sample.config05 7
  = Ok [0; 1; 2; 3; 4; 5; 6].
Proof. reflexivity. Qed.

(** ** The cell grid *)

(** Case analysis on the integer comparisons of the goal. *)
Ltac zbool :=
  repeat match goal with
  | |- context [?a >=? ?b] => rewrite (Z.geb_leb a b)
  | |- context [?a >? ?b] => rewrite (Z.gtb_ltb a b)
  | |- context [?a <=? ?b] => destruct (Z.leb_spec a b)
  | |- context [?a <? ?b] => destruct (Z.ltb_spec a b)
  | |- context [?a =? ?b] => destruct (Z.eqb_spec a b)
  end;
  cbn [andb orb negb];
  try reflexivity; try lia; try (subst; reflexivity); try congruence.

Section GridFacts.

Lemma inside_true g x y :
  Grid.inside g x y = true <-> 0 <= x < width g /\ 0 <= y < height g.
Proof. unfold Grid.inside. rewrite !andb_true_iff. lia. Qed.

Lemma inside_false g x y :
  Grid.inside g x y = false <-> ~ (0 <= x < width g /\ 0 <= y < height g).
Proof. rewrite <- inside_true. destruct (Grid.inside g x y); intuition congruence. Qed.

Lemma inside_same_size g g' x y :
  width g' = width g -> height g' = height g ->
  Grid.inside g' x y = Grid.inside g x y.
Proof. intros Hw Hh. unfold Grid.inside. now rewrite Hw, Hh. Qed.

Lemma setCell_width g x y c : width (Grid.setCell g x y c) = width g.
Proof. unfold Grid.setCell. now destruct (Grid.inside g x y). Qed.

Lemma setCell_height g x y c : height (Grid.setCell g x y c) = height g.
Proof. unfold Grid.setCell. now destruct (Grid.inside g x y). Qed.

Lemma setCell_cells g x y c x' y' :
  cells (Grid.setCell g x y c) x' y' =
  if (x' =? x) && (y' =? y) && Grid.inside g x' y' then c else cells g x' y'.
Proof.
  unfold Grid.setCell. destruct (Grid.inside g x y) eqn:E; cbn [cells].
  - destruct ((x' =? x) && (y' =? y)) eqn:E'; [|reflexivity].
    apply andb_true_iff in E'. destruct E' as [Ex Ey].
    apply Z.eqb_eq in Ex, Ey. subst. now rewrite E.
  - destruct ((x' =? x) && (y' =? y)) eqn:E'; [|reflexivity].
    apply andb_true_iff in E'. destruct E' as [Ex Ey].
    apply Z.eqb_eq in Ex, Ey. subst. now rewrite E.
Qed.

Lemma same_paint_refl c : same_paint c c.
Proof. unfold same_paint. tauto. Qed.

Lemma same_paint_trans c d e : same_paint c d -> same_paint d e -> same_paint c e.
Proof. unfold same_paint. intuition congruence. Qed.

(** The effect of a whole [for] loop whose body rewrites one cell. *)
Lemma for_loop_rewrites r upd body :
  rewrites_cell r upd body ->
  forall n lo g,
    width (JS.for_loop n lo body g) = width g /\
    height (JS.for_loop n lo body g) = height g /\
    forall x y,
      cells (JS.for_loop n lo body g) x y =
      if (y =? r) && (lo <=? x) && (x <? lo + Z.of_nat n) && Grid.inside g x y
      then upd x (cells g x y)
      else cells g x y.
Proof.
  intros Hbody. induction n as [|n IH]; intros lo g; cbn [JS.for_loop].
  - split; [reflexivity|]. split; [reflexivity|]. intros x y.
    destruct (Grid.inside g x y); rewrite ?andb_true_r, ?andb_false_r; [|reflexivity].
    zbool.
  - destruct (Hbody lo g) as (Hw & Hh & Hc).
    destruct (IH (lo + 1) (body lo g)) as (Hw' & Hh' & Hc').
    split; [congruence|]. split; [congruence|]. intros x y.
    rewrite Hc', Hc, (inside_same_size g (body lo g) x y Hw Hh).
    destruct (Grid.inside g x y); rewrite ?andb_true_r, ?andb_false_r; [|reflexivity].
    zbool.
Qed.

Lemma for_range_rewrites r upd body :
  rewrites_cell r upd body ->
  forall lo hi g,
    width (JS.for_range lo hi body g) = width g /\
    height (JS.for_range lo hi body g) = height g /\
    forall x y,
      cells (JS.for_range lo hi body g) x y =
      if (y =? r) && (lo <=? x) && (x <? hi) && Grid.inside g x y
      then upd x (cells g x y)
      else cells g x y.
Proof.
  intros Hbody lo hi g. unfold JS.for_range.
  destruct (for_loop_rewrites r upd body Hbody (Z.to_nat (hi - lo)) lo g) as (Hw & Hh & Hc).
  split; [exact Hw|]. split; [exact Hh|]. intros x y. rewrite Hc.
  destruct (Grid.inside g x y); rewrite ?andb_true_r, ?andb_false_r; [|reflexivity].
  zbool.
Qed.

End GridFacts.

(** ** The grid compositor *)

Section Compositor.

Context {imports : Imports}.

Lemma highlightLinkID_spec g r lo hi id :
  width (_highlightLinkID g r lo hi id) = width g /\
  height (_highlightLinkID g r lo hi id) = height g /\
  forall x y,
    cells (_highlightLinkID g r lo hi id) x y =
    if (y =? r) && (lo <=? x) && (x <? hi) && Grid.inside g x y
    then highlightCell id (cells g x y)
    else cells g x y.
Proof.
  unfold _highlightLinkID.
  apply (for_range_rewrites r (fun _ c => highlightCell id c)).
  intros i g0. unfold Grid.getLinkID, Grid.getStyle, Grid.setStyle, Grid.getCell.
  destruct (linkID (cells g0 i r) =? id) eqn:E.
  - split; [apply setCell_width|]. split; [apply setCell_height|].
    intros x y. rewrite setCell_cells.
    destruct ((x =? i) && (y =? r)) eqn:Exy; cbn [andb]; [|reflexivity].
    apply andb_true_iff in Exy. destruct Exy as [Ex Ey].
    apply Z.eqb_eq in Ex, Ey. subst x y.
    unfold highlightCell. now rewrite E.
  - split; [reflexivity|]. split; [reflexivity|]. intros x y.
    destruct ((x =? i) && (y =? r)) eqn:Exy; cbn [andb]; [|reflexivity].
    apply andb_true_iff in Exy. destruct Exy as [Ex Ey].
    apply Z.eqb_eq in Ex, Ey. subst x y.
    unfold highlightCell. rewrite E. now destruct (Grid.inside g0 i r).
Qed.

Lemma clear_rewrites r : rewrites_cell r (fun _ _ => clearedCell) (fun i g => clearCell g i r).
Proof.
  intros i g. unfold clearCell.
  split; [apply setCell_width|]. split; [apply setCell_height|].
  intros x y. apply setCell_cells.
Qed.

Lemma fill_rewrites r :
  rewrites_cell r (fun _ _ => fillCell)
    (fun i g => Grid.setBgClutIndex (clearCell g i r) i r PALETTE_BG_INDEX).
Proof.
  intros i g. unfold Grid.setBgClutIndex, clearCell, Grid.getCell.
  rewrite !setCell_width, !setCell_height.
  split; [reflexivity|]. split; [reflexivity|]. intros x y.
  rewrite !setCell_cells.
  rewrite (inside_same_size g (Grid.setCell g i r clearedCell) x y
             (setCell_width _ _ _ _) (setCell_height _ _ _ _)).
  destruct ((x =? i) && (y =? r) && Grid.inside g x y) eqn:E; [|reflexivity].
  apply andb_true_iff in E. destruct E as [E Hin].
  apply andb_true_iff in E. destruct E as [Ex Ey].
  apply Z.eqb_eq in Ex, Ey. subst x y.
  rewrite !Z.eqb_refl, Hin. reflexivity.
Qed.

Variable session : EditSession.
Variable hovered : option string.
Variable ligatureMarker : option LigatureMarker.
Hypothesis Hmarker : marker_keeps_paint ligatureMarker.

Lemma writeLine_present g r docRow line :
  getTerminalLine session docRow = Some line ->
  writeLine session hovered ligatureMarker g r docRow =
  marked ligatureMarker session docRow r
    (filled line r (highlighted hovered line r (pasted g line r))).
Proof. intros H. unfold writeLine. now rewrite H. Qed.

Lemma writeLine_absent g r docRow :
  getTerminalLine session docRow = None ->
  writeLine session hovered ligatureMarker g r docRow =
  JS.for_range 0 (width g) (fun i grid => clearCell grid i r) g.
Proof. intros H. unfold writeLine. now rewrite H. Qed.

(** *** The steps, one by one *)

Lemma highlighted_size line r g :
  width (highlighted hovered line r g) = width g /\
  height (highlighted hovered line r g) = height g.
Proof.
  unfold highlighted. destruct hovered as [url|]; [|tauto].
  destruct (negb (getLinkIDByURL line url =? 0)); [|tauto].
  destruct (highlightLinkID_spec g r 0 (lineWidth line) (getLinkIDByURL line url))
    as (Hw & Hh & _). tauto.
Qed.

Lemma highlighted_elsewhere line r g x y :
  ~ (y = r /\ 0 <= x < lineWidth line) ->
  cells (highlighted hovered line r g) x y = cells g x y.
Proof.
  intros Hout. unfold highlighted. destruct hovered as [url|]; [|reflexivity].
  destruct (negb (getLinkIDByURL line url =? 0)); [|reflexivity].
  destruct (highlightLinkID_spec g r 0 (lineWidth line) (getLinkIDByURL line url))
    as (_ & _ & Hc).
  rewrite Hc.
  destruct ((y =? r) && (0 <=? x) && (x <? lineWidth line)) eqn:E; [|reflexivity].
  exfalso. apply Hout. rewrite !andb_true_iff in E. lia.
Qed.

Lemma filled_size line r g :
  width (filled line r g) = width g /\ height (filled line r g) = height g.
Proof.
  unfold filled. destruct (lineWidth line <? width g); [|tauto].
  destruct (for_range_rewrites r _ _ (fill_rewrites r) (lineWidth line) (width g) g)
    as (Hw & Hh & _). tauto.
Qed.

Lemma filled_cells line r g x y :
  cells (filled line r g) x y =
  if (y =? r) && (lineWidth line <=? x) && Grid.inside g x y
  then fillCell else cells g x y.
Proof.
  unfold filled. destruct (Z.ltb_spec (lineWidth line) (width g)) as [Hlt|Hge].
  - destruct (for_range_rewrites r _ _ (fill_rewrites r) (lineWidth line) (width g) g)
      as (_ & _ & Hc).
    rewrite Hc. destruct (Grid.inside g x y) eqn:Hin;
      rewrite ?andb_true_r, ?andb_false_r; [|reflexivity].
    apply inside_true in Hin. zbool.
  - destruct (Grid.inside g x y) eqn:Hin;
      rewrite ?andb_true_r, ?andb_false_r; [|reflexivity].
    apply inside_true in Hin. zbool.
Qed.

Lemma marked_size docRow r g :
  width (marked ligatureMarker session docRow r g) = width g /\
  height (marked ligatureMarker session docRow r g) = height g.
Proof.
  unfold marked. destruct ligatureMarker as [marker|]; [|tauto].
  destruct (Hmarker g r (getLine session docRow)) as (Hw & Hh & _). tauto.
Qed.

Lemma marked_paint docRow r g x y :
  same_paint (cells (marked ligatureMarker session docRow r g) x y) (cells g x y).
Proof.
  unfold marked. destruct ligatureMarker as [marker|]; [|apply same_paint_refl].
  destruct (Hmarker g r (getLine session docRow)) as (_ & _ & Hc). apply Hc.
Qed.

(** *** One row *)

Lemma writeLine_size g r docRow :
  width (writeLine session hovered ligatureMarker g r docRow) = width g /\
  height (writeLine session hovered ligatureMarker g r docRow) = height g.
Proof.
  destruct (getTerminalLine session docRow) as [line|] eqn:Hline.
  - rewrite (writeLine_present g r docRow line Hline).
    destruct (marked_size docRow r
                (filled line r (highlighted hovered line r (pasted g line r)))) as [-> ->].
    destruct (filled_size line r (highlighted hovered line r (pasted g line r))) as [-> ->].
    destruct (highlighted_size line r (pasted g line r)) as [-> ->].
    split; reflexivity.
  - rewrite (writeLine_absent g r docRow Hline).
    destruct (for_range_rewrites r _ _ (clear_rewrites r) 0 (width g) g) as (Hw & Hh & _).
    tauto.
Qed.

(** Painting canvas row [r] leaves the rows above it as they are. *)
Lemma writeLine_above g r docRow x y :
  y < r ->
  same_paint (cells (writeLine session hovered ligatureMarker g r docRow) x y) (cells g x y).
Proof.
  intros Hy. destruct (getTerminalLine session docRow) as [line|] eqn:Hline.
  - rewrite (writeLine_present g r docRow line Hline).
    eapply same_paint_trans; [apply marked_paint|].
    rewrite filled_cells.
    replace ((y =? r) && (lineWidth line <=? x)) with false by zbool.
    cbn [andb]. rewrite highlighted_elsewhere by lia.
    unfold pasted, Grid.pasteGrid. cbn [cells].
    replace (Grid.inside (lineGrid line) (x - 0) (y - r)) with false.
    + rewrite andb_false_r. apply same_paint_refl.
    + symmetry. apply inside_false. lia.
  - rewrite (writeLine_absent g r docRow Hline).
    destruct (for_range_rewrites r _ _ (clear_rewrites r) 0 (width g) g) as (_ & _ & Hc).
    rewrite Hc. replace (y =? r) with false by zbool. cbn [andb]. apply same_paint_refl.
Qed.

(** The columns past the end of a present line are filled. *)
Lemma writeLine_fills g r docRow line x :
  getTerminalLine session docRow = Some line ->
  0 <= r < height g ->
  0 <= x -> lineWidth line <= x < width g ->
  same_paint (cells (writeLine session hovered ligatureMarker g r docRow) x r) fillCell.
Proof.
  intros Hline Hr Hx0 Hx. rewrite (writeLine_present g r docRow line Hline).
  eapply same_paint_trans; [apply marked_paint|].
  rewrite filled_cells.
  replace (Grid.inside (highlighted hovered line r (pasted g line r)) x r) with true.
  - replace ((r =? r) && (lineWidth line <=? x)) with true by zbool.
    apply same_paint_refl.
  - symmetry. apply inside_true.
    destruct (highlighted_size line r (pasted g line r)) as [-> ->].
    unfold pasted. cbn [width height Grid.pasteGrid]. lia.
Qed.

(** The cells of a present line, pasted and highlighted. *)
Lemma writeLine_line_cells g r docRow line url x :
  getTerminalLine session docRow = Some line ->
  hovered = Some url ->
  getLinkIDByURL line url <> 0 ->
  0 <= r < height g ->
  0 < height (lineGrid line) ->
  0 <= x < lineWidth line -> x < width g ->
  same_paint (cells (writeLine session hovered ligatureMarker g r docRow) x r)
             (highlightCell (getLinkIDByURL line url) (cells (lineGrid line) x 0)).
Proof.
  intros Hline Hurl Hid Hr Hh Hx HxW. rewrite (writeLine_present g r docRow line Hline).
  eapply same_paint_trans; [apply marked_paint|].
  rewrite filled_cells.
  replace ((r =? r) && (lineWidth line <=? x)) with false by zbool.
  cbn [andb]. unfold highlighted. rewrite Hurl.
  destruct (Z.eqb_spec (getLinkIDByURL line url) 0) as [E|_]; [contradiction|].
  cbn [negb].
  destruct (highlightLinkID_spec (pasted g line r) r 0 (lineWidth line)
              (getLinkIDByURL line url)) as (_ & _ & Hc).
  rewrite Hc.
  assert (Hin : Grid.inside (pasted g line r) x r = true).
  { apply inside_true. unfold pasted. cbn [width height Grid.pasteGrid]. lia. }
  rewrite Hin.
  replace ((r =? r) && (0 <=? x) && (x <? lineWidth line)) with true by zbool.
  cbn [andb]. unfold pasted, Grid.pasteGrid. cbn [cells].
  assert (Hin1 : Grid.inside g x r = true) by (apply inside_true; lia).
  assert (Hin2 : Grid.inside (lineGrid line) (x - 0) (r - r) = true).
  { apply inside_true. unfold lineWidth in Hx. lia. }
  rewrite Hin1, Hin2. cbn [andb]. rewrite Z.sub_0_r, Z.sub_diag.
  apply same_paint_refl.
Qed.

End Compositor.

Section CompositorLoop.

Context {imports : Imports}.

Variable session : EditSession.
Variable hovered : option string.
Variable ligatureMarker : option LigatureMarker.
Hypothesis Hmarker : marker_keeps_paint ligatureMarker.

Lemma writeLines_loop_size rows : forall c g,
  width (writeLines_loop session hovered ligatureMarker rows c g) = width g /\
  height (writeLines_loop session hovered ligatureMarker rows c g) = height g.
Proof.
  induction rows as [|docRow rows IH]; intros c g; cbn [writeLines_loop]; [tauto|].
  destruct (writeLine_size session hovered ligatureMarker Hmarker g c docRow) as [Hw Hh].
  destruct (c + 1 >=? height (writeLine session hovered ligatureMarker g c docRow)).
  - tauto.
  - destruct (IH (c + 1) (writeLine session hovered ligatureMarker g c docRow)) as [-> ->].
    tauto.
Qed.

(** The loop from canvas row [c] on leaves the rows above [c] as they
    are. *)
Lemma writeLines_loop_above rows : forall c g x y,
  y < c ->
  same_paint (cells (writeLines_loop session hovered ligatureMarker rows c g) x y)
             (cells g x y).
Proof.
  induction rows as [|docRow rows IH]; intros c g x y Hy; cbn [writeLines_loop].
  - apply same_paint_refl.
  - pose proof (writeLine_above session hovered ligatureMarker Hmarker g c docRow x y Hy)
      as Hone.
    destruct (c + 1 >=? height (writeLine session hovered ligatureMarker g c docRow)).
    + exact Hone.
    + eapply same_paint_trans; [apply IH; lia|exact Hone].
Qed.

(** The [k]-th row of [rows] is painted into canvas row [c + k], as long
    as that row is in the grid; the grid it is painted into has the size
    of the one the loop started with. *)
Lemma writeLines_loop_row rows : forall c g k docRow,
  nth_error rows k = Some docRow ->
  0 <= c -> c + Z.of_nat k < height g ->
  exists g',
    width g' = width g /\ height g' = height g /\
    forall x,
      same_paint
        (cells (writeLines_loop session hovered ligatureMarker rows c g) x (c + Z.of_nat k))
        (cells (writeLine session hovered ligatureMarker g' (c + Z.of_nat k) docRow)
           x (c + Z.of_nat k)).
Proof.
  induction rows as [|d rows IH]; intros c g k docRow Hnth Hc Hk.
  - destruct k; discriminate.
  - cbn [writeLines_loop].
    destruct (writeLine_size session hovered ligatureMarker Hmarker g c d) as [Hw Hh].
    destruct k as [|k].
    + cbn in Hnth. injection Hnth as ->. exists g.
      split; [reflexivity|]. split; [reflexivity|]. intros x.
      replace (c + Z.of_nat 0) with c by lia.
      destruct (c + 1 >=? height (writeLine session hovered ligatureMarker g c docRow)).
      * apply same_paint_refl.
      * apply writeLines_loop_above. lia.
    + cbn [nth_error] in Hnth.
      replace (c + 1 >=? height (writeLine session hovered ligatureMarker g c d))
        with false by (rewrite Hh; zbool).
      destruct (IH (c + 1) (writeLine session hovered ligatureMarker g c d) k docRow Hnth)
        as (g' & Hw' & Hh' & Hcells); [lia|rewrite Hh; lia|].
      exists g'. split; [congruence|]. split; [congruence|]. intros x.
      replace (c + Z.of_nat (S k)) with (c + 1 + Z.of_nat k) by lia.
      apply Hcells.
Qed.

End CompositorLoop.

Lemma highlight_bit_set s mask : Z.land (Z.lor s mask) mask = mask.
Proof.
  apply Z.bits_inj'. intros n _. rewrite Z.land_spec, Z.lor_spec.
  destruct (Z.testbit s n), (Z.testbit mask n); reflexivity.
Qed.

(** C4. After [_writeLinesToGrid], in every painted canvas row whose line
    is present and narrower than the grid, every column from the line's
    width to the grid's width holds the cleared cell with the background
    index [PALETTE_BG_INDEX], whatever the grid held before.  The ligature
    marker is taken to change ligature marks only. *)
Theorem writeLinesToGrid_fills_trailing_columns
    (imports : Imports) this session grid rows ligatureMarker k docRow line x :
  _editSession this = Some session ->
  marker_keeps_paint ligatureMarker ->
  nth_error rows k = Some docRow ->
  Z.of_nat k < height grid ->
  getTerminalLine session docRow = Some line ->
  0 <= lineWidth line < width grid ->
  lineWidth line <= x < width grid ->
  exists grid',
    _writeLinesToGrid this grid rows ligatureMarker = Ok grid' /\
    same_paint (Grid.getCell grid' x (Z.of_nat k)) fillCell /\
    bgClutIndex (Grid.getCell grid' x (Z.of_nat k)) = PALETTE_BG_INDEX.
Proof.
  intros Hs Hmarker Hnth Hk Hline Hw Hx.
  unfold _writeLinesToGrid. rewrite Hs.
  destruct rows as [|d rows]; [destruct k; discriminate|].
  eexists. split; [reflexivity|].
  destruct (writeLines_loop_row session (hoveredURL this) ligatureMarker Hmarker
              (d :: rows) 0 grid k docRow Hnth) as (g' & Hw' & Hh' & Hcells); [lia|lia|].
  cbn [Z.add] in Hcells.
  assert (Hpaint : same_paint
            (Grid.getCell
               (writeLines_loop session (hoveredURL this) ligatureMarker (d :: rows) 0 grid)
               x (Z.of_nat k)) fillCell).
  { eapply same_paint_trans; [apply Hcells|].
    apply (writeLine_fills session (hoveredURL this) ligatureMarker Hmarker
             g' (Z.of_nat k) docRow line x Hline); lia. }
  split; [exact Hpaint|].
  destruct Hpaint as (_ & _ & Hbg & _). exact Hbg.
Qed.

(** C5. During [_writeLinesToGrid], when a URL is hovered and the line of
    a painted row resolves it to a link identifier other than zero, then in
    the columns of that line every cell of the canvas row that belongs to
    the link gets the highlight bit, and every other cell keeps the style
    of the line's cell.  The ligature marker is taken to change ligature
    marks only. *)
Theorem writeLinesToGrid_highlights_hovered_link
    (imports : Imports) this session grid rows ligatureMarker k docRow line url x :
  _editSession this = Some session ->
  marker_keeps_paint ligatureMarker ->
  nth_error rows k = Some docRow ->
  Z.of_nat k < height grid ->
  getTerminalLine session docRow = Some line ->
  height (lineGrid line) = 1 ->
  hoveredURL this = Some url ->
  getLinkIDByURL line url <> 0 ->
  0 <= x < lineWidth line -> x < width grid ->
  exists grid',
    _writeLinesToGrid this grid rows ligatureMarker = Ok grid' /\
    let source := Grid.getCell (lineGrid line) x 0 in
    let dest := Grid.getCell grid' x (Z.of_nat k) in
    linkID dest = linkID source /\
    (linkID dest = getLinkIDByURL line url ->
       style dest = Z.lor (style source) STYLE_MASK_HYPERLINK_HIGHLIGHT /\
       Z.land (style dest) STYLE_MASK_HYPERLINK_HIGHLIGHT = STYLE_MASK_HYPERLINK_HIGHLIGHT) /\
    (linkID dest <> getLinkIDByURL line url -> style dest = style source).
Proof.
  intros Hs Hmarker Hnth Hk Hline Hh Hurl Hid Hx HxW.
  unfold _writeLinesToGrid. rewrite Hs.
  destruct rows as [|d rows]; [destruct k; discriminate|].
  eexists. split; [reflexivity|].
  destruct (writeLines_loop_row session (hoveredURL this) ligatureMarker Hmarker
              (d :: rows) 0 grid k docRow Hnth) as (g' & Hw' & Hh' & Hcells); [lia|lia|].
  cbn [Z.add] in Hcells.
  assert (Hpaint : same_paint
            (Grid.getCell
               (writeLines_loop session (hoveredURL this) ligatureMarker (d :: rows) 0 grid)
               x (Z.of_nat k))
            (highlightCell (getLinkIDByURL line url) (cells (lineGrid line) x 0))).
  { eapply same_paint_trans; [apply Hcells|].
    apply (writeLine_line_cells session (hoveredURL this) ligatureMarker Hmarker
             g' (Z.of_nat k) docRow line url x Hline Hurl Hid); lia. }
  cbv zeta. unfold Grid.getCell in *.
  destruct Hpaint as (_ & _ & _ & Hstyle & Hlink).
  unfold highlightCell in Hstyle, Hlink.
  destruct (Z.eqb_spec (linkID (cells (lineGrid line) x 0)) (getLinkIDByURL line url))
    as [E|E]; cbn [style linkID Grid.with_style] in Hstyle, Hlink.
  - split; [exact Hlink|]. split.
    + intros _. split; [exact Hstyle|]. rewrite Hstyle. apply highlight_bit_set.
    + intros Hne. congruence.
  - split; [exact Hlink|]. split.
    + intros Heq. congruence.
    + intros _. exact Hstyle.
Qed.

Lemma writeLinesToGrid_fills_trailing_columns_witness :
  exists grid',
    @_writeLinesToGrid Sample.imports Sample.layer Sample.grid [0; 1; 2] None = Ok grid' /\
    same_paint (Grid.getCell grid' 3 (Z.of_nat 0)) (@fillCell Sample.imports) /\
    bgClutIndex (Grid.getCell grid' 3 (Z.of_nat 0)) = @PALETTE_BG_INDEX Sample.imports.
Proof.
  apply (writeLinesToGrid_fills_trailing_columns Sample.imports Sample.layer Sample.session
           Sample.grid [0; 1; 2] None 0%nat 0 Sample.line 3).
  - reflexivity.
  - exact I.
  - reflexivity.
  - reflexivity.
  - reflexivity.
  - cbn. lia.
  - cbn. lia.
Defined.

Lemma writeLinesToGrid_highlights_hovered_link_witness :
  exists grid',
    @_writeLinesToGrid Sample.imports Sample.hoveredLayer Sample.grid [0; 1; 2] None
      = Ok grid' /\
    let source := Grid.getCell (lineGrid Sample.line) 1 0 in
    let dest := Grid.getCell grid' 1 (Z.of_nat 0) in
    linkID dest = linkID source /\
    (linkID dest = getLinkIDByURL Sample.line "http://a" ->
       style dest = Z.lor (style source) (@STYLE_MASK_HYPERLINK_HIGHLIGHT Sample.imports) /\
       Z.land (style dest) (@STYLE_MASK_HYPERLINK_HIGHLIGHT Sample.imports)
         = @STYLE_MASK_HYPERLINK_HIGHLIGHT Sample.imports) /\
    (linkID dest <> getLinkIDByURL Sample.line "http://a" -> style dest = style source).
Proof.
  apply (writeLinesToGrid_highlights_hovered_link Sample.imports Sample.hoveredLayer
           Sample.session Sample.grid [0; 1; 2] None 0%nat 0 Sample.line "http://a" 1).
  - reflexivity.
  - exact I.
  - reflexivity.
  - reflexivity.
  - reflexivity.
  - reflexivity.
  - reflexivity.
  - cbn. discriminate.
  - cbn. lia.
  - cbn. lia.
Defined.

(** The sample grid after painting the rows 0 to 2 with the link hovered:
    the link's cell is highlighted, its neighbour is as in the line, the
    columns past the line are filled, and the row without a line is
    cleared. *)
Example writeLines_sample :
  let grid' := @writeLines_loop Sample.imports Sample.session (Some "http://a"%string) None
                 [0; 1; 2] 0 Sample.grid in
  Grid.getCell grid' 0 0 = mkCell 97 2 3 0 0 0 /\
  Grid.getCell grid' 1 0 = mkCell 98 2 3 4096 1 0 /\
  Grid.getCell grid' 2 0 = mkCell 32 0 256 0 0 0 /\
  Grid.getCell grid' 3 1 = mkCell 32 0 256 0 0 0 /\
  Grid.getCell grid' 0 2 = mkCell 32 0 0 0 0 0 /\
  Grid.getCell grid' 3 2 = mkCell 32 0 0 0 0 0.
Proof. repeat split. Qed.

(** ** The render surface *)

(** Projections out of updated layers and canvases, and nothing else. *)
Ltac layer_simpl :=
  cbn [_charRenderCanvas _canvasWidthCssPx _canvasHeightCssPx _currentCanvasRawWidthPx
       _ligatureMarker _editSession _lastConfig _lastViewPortSize _palette _fontFamily
       _fontSizePx _devicePixelRatio _cursorStyle _transparentBackground hoveredURL
       clipWidth clipHeight clipChildren canvasCount canvasCalls
       Upd.set_charRenderCanvas Upd.set_canvasWidthCssPx Upd.set_canvasHeightCssPx
       Upd.set_currentCanvasRawWidthPx Upd.set_ligatureMarker Upd.set_editSession
       Upd.set_lastConfig Upd.set_lastViewPortSize Upd.set_palette Upd.set_fontFamily
       Upd.set_fontSizePx Upd.set_devicePixelRatio Upd.set_cursorStyle
       Upd.set_transparentBackground Upd.set_hoveredURL Upd.set_clipWidth
       Upd.set_clipHeight Upd.set_clipChildren Upd.set_canvasCount Upd.set_canvasCalls
       _setupClipping remembered
       canvasId canvasOptions cellGrid canvasPalette canvasCursorStyle elementWidth
       elementHeight with_cellGrid with_palette with_cursorStyle] in *.


Section Surface.

Context {imports : Imports}.

Lemma deleteCanvasElement_none this : _charRenderCanvas (_deleteCanvasElement this) = None.
Proof.
  unfold _deleteCanvasElement. destruct (_charRenderCanvas this) eqn:E; [reflexivity|exact E].
Qed.

(** Disposal touches the canvas, the children of the clip element and
    the call log, nothing else. *)
Lemma deleteCanvasElement_frame this :
  let this' := _deleteCanvasElement this in
  _canvasWidthCssPx this' = _canvasWidthCssPx this /\
  _canvasHeightCssPx this' = _canvasHeightCssPx this /\
  _currentCanvasRawWidthPx this' = _currentCanvasRawWidthPx this /\
  _editSession this' = _editSession this /\
  _lastConfig this' = _lastConfig this /\
  _lastViewPortSize this' = _lastViewPortSize this /\
  hoveredURL this' = hoveredURL this /\
  _ligatureMarker this' = _ligatureMarker this /\
  canvasCount this' = canvasCount this /\
  renderCount this' = renderCount this.
Proof.
  unfold _deleteCanvasElement. destruct (_charRenderCanvas this) as [canvas|].
  - cbn. repeat split. unfold renderCount. cbn.
    rewrite filter_app. cbn. now rewrite app_nil_r.
  - cbn. repeat split.
Qed.

(** What the allocating part of [_setUpRenderCanvas] leaves behind. *)
Lemma provision_spec this config rawW rawH n :
  let this' := provision this config rawW rawH n in
  (exists canvas,
      _charRenderCanvas this' = Some canvas /\ canvasId canvas = canvasCount this) /\
  canvasCount this' = S (canvasCount this) /\
  _canvasHeightCssPx this' = provisionedHeight config n /\
  _canvasWidthCssPx this' = JS.max rawW (_currentCanvasRawWidthPx this) /\
  _currentCanvasRawWidthPx this' = JS.max rawW (_currentCanvasRawWidthPx this) /\
  clipWidth this' = Some (JS.max rawW (_currentCanvasRawWidthPx this)) /\
  clipHeight this' = Some rawH /\
  _editSession this' = _editSession this /\
  _lastConfig this' = _lastConfig this /\
  _lastViewPortSize this' = _lastViewPortSize this /\
  hoveredURL this' = hoveredURL this /\
  _ligatureMarker this' = _ligatureMarker this /\
  renderCount this' = renderCount this.
Proof.
  cbn. split; [eexists; split; reflexivity|].
  repeat split. unfold renderCount. cbn.
  rewrite filter_app. cbn. now rewrite app_nil_r.
Qed.

Lemma setUpRenderCanvas_reuse this config viewPortSize n canvas :
  _charRenderCanvas this = Some canvas ->
  largeEnough this config viewPortSize n = true ->
  _setUpRenderCanvas this config viewPortSize n =
  _setupClipping this (_currentCanvasRawWidthPx this) (requiredHeight config n).
Proof.
  intros Hc Hlarge. unfold _setUpRenderCanvas. rewrite Hc. cbv zeta.
  unfold largeEnough, requiredHeight in *.
  cbn [_setupClipping Upd.set_clipWidth Upd.set_clipHeight
       _canvasWidthCssPx _canvasHeightCssPx].
  now rewrite Hlarge.
Qed.

Lemma setUpRenderCanvas_replace this config viewPortSize n canvas :
  _charRenderCanvas this = Some canvas ->
  largeEnough this config viewPortSize n = false ->
  _setUpRenderCanvas this config viewPortSize n =
  provision
    (_deleteCanvasElement
       (_setupClipping this (_currentCanvasRawWidthPx this) (requiredHeight config n)))
    config (widthPx viewPortSize) (requiredHeight config n) n.
Proof.
  intros Hc Hlarge. unfold _setUpRenderCanvas. rewrite Hc. cbv zeta.
  unfold largeEnough, requiredHeight in *.
  cbn [_setupClipping Upd.set_clipWidth Upd.set_clipHeight
       _canvasWidthCssPx _canvasHeightCssPx].
  now rewrite Hlarge.
Qed.

Lemma setUpRenderCanvas_first this config viewPortSize n :
  _charRenderCanvas this = None ->
  _setUpRenderCanvas this config viewPortSize n =
  provision this config (widthPx viewPortSize) (requiredHeight config n) n.
Proof. intros Hc. unfold _setUpRenderCanvas. now rewrite Hc. Qed.

(** The two cases in which [_setUpRenderCanvas] allocates. *)
Lemma setUpRenderCanvas_allocates this config viewPortSize n :
  _charRenderCanvas this = None \/ largeEnough this config viewPortSize n = false ->
  let this' := _setUpRenderCanvas this config viewPortSize n in
  exists canvas',
    _charRenderCanvas this' = Some canvas' /\
    canvasId canvas' = canvasCount this /\
    canvasCount this' = S (canvasCount this) /\
    _canvasHeightCssPx this' = provisionedHeight config n /\
    _canvasWidthCssPx this' = JS.max (widthPx viewPortSize) (_currentCanvasRawWidthPx this) /\
    _currentCanvasRawWidthPx this' =
      JS.max (widthPx viewPortSize) (_currentCanvasRawWidthPx this) /\
    clipWidth this' = Some (JS.max (widthPx viewPortSize) (_currentCanvasRawWidthPx this)) /\
    clipHeight this' = Some (requiredHeight config n) /\
    canvasCalls this' =
      canvasCalls this ++ disposalOf (_charRenderCanvas this)
        ++ [Created (canvasCount this) (canvasOptions canvas')].
Proof.
  intros Hcase. cbv zeta. destruct (_charRenderCanvas this) as [canvas|] eqn:Hc.
  - destruct Hcase as [Hcase|Hcase]; [discriminate|].
    rewrite (setUpRenderCanvas_replace this config viewPortSize n canvas Hc Hcase).
    unfold _deleteCanvasElement.
    cbn [_setupClipping Upd.set_clipWidth Upd.set_clipHeight _charRenderCanvas].
    rewrite Hc. eexists. cbn. split; [reflexivity|]. repeat split.
    now rewrite <- app_assoc.
  - rewrite (setUpRenderCanvas_first this config viewPortSize n Hc).
    eexists. cbn. split; [reflexivity|]. repeat split.
Qed.

(** Whatever the case, [_setUpRenderCanvas] leaves a canvas, and the
    width on record does not decrease. *)
Lemma setUpRenderCanvas_always this config viewPortSize n :
  let this' := _setUpRenderCanvas this config viewPortSize n in
  (exists canvas, _charRenderCanvas this' = Some canvas) /\
  (_currentCanvasRawWidthPx this <= _currentCanvasRawWidthPx this')%Q /\
  ((_canvasWidthCssPx this <= _currentCanvasRawWidthPx this)%Q ->
   (_canvasWidthCssPx this <= _canvasWidthCssPx this')%Q /\
   (_canvasWidthCssPx this' <= _currentCanvasRawWidthPx this')%Q) /\
  _editSession this' = _editSession this /\
  _lastConfig this' = _lastConfig this /\
  _lastViewPortSize this' = _lastViewPortSize this /\
  hoveredURL this' = hoveredURL this /\
  _ligatureMarker this' = _ligatureMarker this /\
  renderCount this' = renderCount this.
Proof.
  cbv zeta. destruct (_charRenderCanvas this) as [canvas|] eqn:Hc.
  - destruct (largeEnough this config viewPortSize n) eqn:Hlarge.
    + rewrite (setUpRenderCanvas_reuse this config viewPortSize n canvas Hc Hlarge).
      cbn. rewrite Hc. split; [eexists; reflexivity|].
      split; [apply Qle_refl|]. split; [intros H; split; [apply Qle_refl|exact H]|].
      repeat split.
    + rewrite (setUpRenderCanvas_replace this config viewPortSize n canvas Hc Hlarge).
      set (this1 := _deleteCanvasElement _).
      destruct (provision_spec this1 config (widthPx viewPortSize)
                  (requiredHeight config n) n)
        as ((c & Hc' & _) & _ & _ & Hw & Hcur & _ & _ & Hs & Hl & Hv & Hu & Hm & Hr).
      destruct (deleteCanvasElement_frame
                  (_setupClipping this (_currentCanvasRawWidthPx this)
                     (requiredHeight config n)))
        as (Dw & _ & Dcur & Ds & Dl & Dv & Du & Dm & _ & Dr).
      fold this1 in Dw, Dcur, Ds, Dl, Dv, Du, Dm, Dr.
      split; [exists c; exact Hc'|].
      rewrite Hw, Hcur, Hs, Hl, Hv, Hu, Hm, Hr, Dcur, Ds, Dl, Dv, Du, Dm, Dr.
      cbn [_setupClipping Upd.set_clipWidth Upd.set_clipHeight _currentCanvasRawWidthPx
           _editSession _lastConfig _lastViewPortSize hoveredURL _ligatureMarker].
      split; [apply max_ge_r|].
      split; [intros H; split; [|apply Qle_refl]|repeat split].
      eapply Qle_trans; [exact H|apply max_ge_r].
  - rewrite (setUpRenderCanvas_first this config viewPortSize n Hc).
    destruct (provision_spec this config (widthPx viewPortSize)
                (requiredHeight config n) n)
      as ((c & Hc' & _) & _ & _ & Hw & Hcur & _ & _ & Hs & Hl & Hv & Hu & Hm & Hr).
    split; [exists c; exact Hc'|].
    rewrite Hw, Hcur, Hs, Hl, Hv, Hu, Hm, Hr.
    split; [apply max_ge_r|].
    split; [intros H; split; [|apply Qle_refl]|repeat split].
    eapply Qle_trans; [exact H|apply max_ge_r].
Qed.

End Surface.

(** ** The controller *)

Section Controller.

Context {imports : Imports}.

Lemma getVisibleRows_remembered this config viewPortSize config' fuel :
  _getVisibleRows (remembered this config viewPortSize) config' fuel =
  _getVisibleRows this config' fuel.
Proof. reflexivity. Qed.

(** With a session whose look-up is well behaved and fuel for the rows of
    the viewport, [update] returns: it resolves the rows, sets up the
    canvas, paints the rows into the canvas's grid and renders once. *)
Lemma update_returns this session config viewPortSize fuel :
  _editSession this = Some session ->
  wf_lookup session ->
  (enoughFuel config <= fuel)%nat ->
  exists rows canvas grid',
    _getVisibleRows this config fuel = Ok rows /\
    let this2 := _setUpRenderCanvas (remembered this config viewPortSize) config viewPortSize
                   (Z.of_nat (List.length rows)) in
    _charRenderCanvas this2 = Some canvas /\
    _writeLinesToGrid this2 (cellGrid canvas) rows (_ligatureMarker this2) = Ok grid' /\
    update this config viewPortSize fuel =
    Ok (Upd.set_canvasCalls
          (Upd.set_charRenderCanvas this2 (Some (with_cellGrid canvas grid')))
          (canvasCalls this2 ++ [Rendered (canvasId canvas)])).
Proof.
  intros Hs Hwf Hfuel.
  destruct (getVisibleRows_returns this session config fuel Hs Hwf Hfuel)
    as (rows & Hrows & _).
  exists rows.
  destruct (setUpRenderCanvas_always (remembered this config viewPortSize) config
              viewPortSize (Z.of_nat (List.length rows)))
    as ((canvas & Hcanvas) & _ & _ & Hsession & _).
  exists canvas.
  set (this2 := _setUpRenderCanvas _ _ _ _) in *.
  assert (Hs2 : _editSession this2 = Some session) by (rewrite Hsession; exact Hs).
  assert (Hgrid : exists grid',
             _writeLinesToGrid this2 (cellGrid canvas) rows (_ligatureMarker this2)
             = Ok grid').
  { unfold _writeLinesToGrid. rewrite Hs2. destruct rows; eexists; reflexivity. }
  destruct Hgrid as (grid' & Hgrid). exists grid'.
  split; [exact Hrows|]. cbv zeta. split; [exact Hcanvas|]. split; [exact Hgrid|].
  unfold update. fold (remembered this config viewPortSize).
  rewrite getVisibleRows_remembered, Hrows. cbn [bind]. fold this2.
  rewrite Hcanvas, Hgrid. cbn [bind]. reflexivity.
Qed.

(** What one [update] does to the part of the layer that the statements
    below talk about. *)
Lemma update_effect this session config viewPortSize fuel :
  _editSession this = Some session ->
  wf_lookup session ->
  (enoughFuel config <= fuel)%nat ->
  exists this',
    update this config viewPortSize fuel = Ok this' /\
    _editSession this' = Some session /\
    _lastConfig this' = Some config /\
    _lastViewPortSize this' = Some viewPortSize /\
    hoveredURL this' = hoveredURL this /\
    renderCount this' = S (renderCount this) /\
    (_currentCanvasRawWidthPx this <= _currentCanvasRawWidthPx this')%Q /\
    ((_canvasWidthCssPx this <= _currentCanvasRawWidthPx this)%Q ->
     (_canvasWidthCssPx this <= _canvasWidthCssPx this')%Q /\
     (_canvasWidthCssPx this' <= _currentCanvasRawWidthPx this')%Q).
Proof.
  intros Hs Hwf Hfuel.
  destruct (update_returns this session config viewPortSize fuel Hs Hwf Hfuel)
    as (rows & canvas & grid' & _ & _ & _ & Hupd).
  destruct (setUpRenderCanvas_always (remembered this config viewPortSize) config
              viewPortSize (Z.of_nat (List.length rows)))
    as (_ & Hcur & Hcw & Hsession & Hconfig & Hview & Hurl & _ & Hrender).
  eexists. split; [exact Hupd|].
  set (this2 := _setUpRenderCanvas _ _ _ _) in *.
  cbn [Upd.set_canvasCalls Upd.set_charRenderCanvas _editSession _lastConfig
       _lastViewPortSize hoveredURL _currentCanvasRawWidthPx _canvasWidthCssPx].
  split; [rewrite Hsession; exact Hs|].
  split; [rewrite Hconfig; reflexivity|].
  split; [rewrite Hview; reflexivity|].
  split; [rewrite Hurl; reflexivity|].
  split.
  - unfold renderCount in *. cbn [canvasCalls Upd.set_canvasCalls Upd.set_charRenderCanvas].
    rewrite filter_app, length_app, Hrender. cbn. lia.
  - split; [exact Hcur|exact Hcw].
Qed.


End Controller.

(** ** Capacity of the render surface *)

(** C6, as the specification words it, fails in the clip width: after a
    first [update] for a viewport 100 pixels wide, an [update] for a
    viewport 80 pixels wide keeps the canvas (large enough in both
    directions) and sets the clip width to 100, not to 80. *)
Lemma update_clip_width_counterexample :
  @update Sample.imports Sample.layer Sample.config05 Sample.viewPort100 7 = Ok Sample.shown /\
  exists canvas rows this' canvas',
    _charRenderCanvas Sample.shown = Some canvas /\
    _getVisibleRows Sample.shown Sample.config05 7 = Ok rows /\
    (widthPx Sample.viewPort80 <= _canvasWidthCssPx Sample.shown)%Q /\
    (requiredHeight Sample.config05 (Z.of_nat (List.length rows))
       <= _canvasHeightCssPx Sample.shown)%Q /\
    @update Sample.imports Sample.shown Sample.config05 Sample.viewPort80 7 = Ok this' /\
    _charRenderCanvas this' = Some canvas' /\
    canvasId canvas' = canvasId canvas /\
    clipWidth this' = Some 100%Q /\
    ~ (100 == widthPx Sample.viewPort80)%Q.
Proof.
  split; [vm_compute; reflexivity|].
  exists (Sample.returnedCanvas (_charRenderCanvas Sample.shown)).
  exists [0; 1; 2; 3; 4; 5; 6].
  exists (Sample.returned
            (@update Sample.imports Sample.shown Sample.config05 Sample.viewPort80 7)
            Sample.shown).
  exists (Sample.returnedCanvas
            (_charRenderCanvas
               (Sample.returned
                  (@update Sample.imports Sample.shown Sample.config05 Sample.viewPort80 7)
                  Sample.shown))).
  split; [vm_compute; reflexivity|]. split; [vm_compute; reflexivity|].
  split; [vm_compute; discriminate|]. split; [vm_compute; discriminate|].
  split; [vm_compute; reflexivity|]. split; [vm_compute; reflexivity|].
  split; [vm_compute; reflexivity|]. split; [vm_compute; reflexivity|].
  vm_compute. discriminate.
Qed.

(** C6, amended.  When a canvas exists and its allocated width and height
    are at least the viewport width and the height required for the
    visible rows, [ceil(n * rowHeight)] with the machine's product,
    [update] keeps that canvas (no disposal, no allocation: the only call
    it makes is one [render()] on it), sets the clip height to the
    required height and the clip width to the allocated width on record,
    [_currentCanvasRawWidthPx], not to the viewport width.  The clip is
    then at least as wide as the viewport provided the allocated width of
    the canvas does not exceed the width on record. *)
Theorem update_reuses_large_enough_canvas
    (imports : Imports) this session config viewPortSize fuel canvas :
  _editSession this = Some session ->
  wf_lookup session ->
  (enoughFuel config <= fuel)%nat ->
  _charRenderCanvas this = Some canvas ->
  exists rows,
    _getVisibleRows this config fuel = Ok rows /\
    let n := Z.of_nat (List.length rows) in
    ((widthPx viewPortSize <= _canvasWidthCssPx this)%Q ->
     (requiredHeight config n <= _canvasHeightCssPx this)%Q ->
     exists this' canvas',
       update this config viewPortSize fuel = Ok this' /\
       _charRenderCanvas this' = Some canvas' /\
       canvasId canvas' = canvasId canvas /\
       canvasCount this' = canvasCount this /\
       canvasCalls this' = canvasCalls this ++ [Rendered (canvasId canvas)] /\
       _canvasWidthCssPx this' = _canvasWidthCssPx this /\
       _canvasHeightCssPx this' = _canvasHeightCssPx this /\
       clipHeight this' = Some (requiredHeight config n) /\
       clipWidth this' = Some (_currentCanvasRawWidthPx this) /\
       ((_canvasWidthCssPx this <= _currentCanvasRawWidthPx this)%Q ->
        (widthPx viewPortSize <= _currentCanvasRawWidthPx this)%Q)).
Proof.
  intros Hs Hwf Hfuel Hc.
  destruct (update_returns this session config viewPortSize fuel Hs Hwf Hfuel)
    as (rows & canvas2 & grid' & Hrows & Hc2 & _ & Hupd).
  exists rows. split; [exact Hrows|]. intros n Hw Hh. subst n.
  set (n := Z.of_nat (List.length rows)) in *.
  assert (Hlarge : largeEnough (remembered this config viewPortSize) config viewPortSize n
                   = true).
  { unfold largeEnough. apply andb_true_iff. split; apply geb_true; assumption. }
  rewrite (setUpRenderCanvas_reuse (remembered this config viewPortSize) config
             viewPortSize n canvas Hc Hlarge) in Hupd, Hc2.
  layer_simpl. rewrite Hc in Hc2. injection Hc2 as <-.
  eexists. eexists. split; [exact Hupd|]. layer_simpl.
  repeat (split; [reflexivity|]).
  intros Hrecord. now apply Qle_trans with (_canvasWidthCssPx this).
Qed.

Lemma update_reuses_large_enough_canvas_witness :
  exists rows,
    _getVisibleRows Sample.shown Sample.config05 7 = Ok rows /\
    let n := Z.of_nat (List.length rows) in
    ((widthPx Sample.viewPort80 <= _canvasWidthCssPx Sample.shown)%Q ->
     (requiredHeight Sample.config05 n <= _canvasHeightCssPx Sample.shown)%Q ->
     exists this' canvas',
       @update Sample.imports Sample.shown Sample.config05 Sample.viewPort80 7 = Ok this' /\
       _charRenderCanvas this' = Some canvas' /\
       canvasId canvas' = 0%nat /\
       canvasCount this' = canvasCount Sample.shown /\
       canvasCalls this' = canvasCalls Sample.shown ++ [Rendered 0] /\
       _canvasWidthCssPx this' = _canvasWidthCssPx Sample.shown /\
       _canvasHeightCssPx this' = _canvasHeightCssPx Sample.shown /\
       clipHeight this' = Some (requiredHeight Sample.config05 n) /\
       clipWidth this' = Some (_currentCanvasRawWidthPx Sample.shown) /\
       ((_canvasWidthCssPx Sample.shown <= _currentCanvasRawWidthPx Sample.shown)%Q ->
        (widthPx Sample.viewPort80 <= _currentCanvasRawWidthPx Sample.shown)%Q)).
Proof.
  apply (update_reuses_large_enough_canvas Sample.imports Sample.shown Sample.session
           Sample.config05 Sample.viewPort80 7
           (Sample.returnedCanvas (_charRenderCanvas Sample.shown))).
  - vm_compute. reflexivity.
  - exact sample_session_wf.
  - vm_compute. lia.
  - vm_compute. reflexivity.
Defined.



(** The first [update] of the sample layer: seven visible rows of 10
    pixels need 70 pixels; the canvas is allocated 120 pixels high,
    [(round(7 * 1.5) + 1) * 10], and 100 wide. *)
Example update_sample :
  (_canvasHeightCssPx Sample.shown == 120)%Q /\
  (_canvasWidthCssPx Sample.shown == 100)%Q /\
  clipHeight Sample.shown = Some 70%Q /\
  clipWidth Sample.shown = Some 100%Q /\
  canvasCount Sample.shown = 1%nat /\
  renderCount Sample.shown = 1%nat.
Proof. repeat split. Qed.

(** Rows of 16.6 pixels: the machine's [15 * 16.6] is
    249.00000000000003, so that fifteen rows need 250 pixels, and so does
    the canvas provisioned for nine rows, [(round(9 * 1.5) + 1) * 16.6]. *)
Example heights_of_inexact_rows :
  let config := {| firstRow := 0; lastRow := 13; charHeightPx := 166 # 10 |} in
  requiredHeight config 15 = 250%Q /\
  provisionedHeight config 9 = 250%Q.
Proof. vm_compute. split; reflexivity. Qed.

(** ** Setters *)

Section Setters.

Context {imports : Imports}.

Lemma deleteCanvasElement_disposed this this0 :
  _charRenderCanvas this = _charRenderCanvas this0 ->
  canvasCalls this = canvasCalls this0 ->
  canvasCount this = canvasCount this0 ->
  _editSession this = _editSession this0 ->
  disposed this0 (_deleteCanvasElement this).
Proof.
  intros Hc Hcalls Hcount Hs. unfold disposed, _deleteCanvasElement.
  rewrite <- Hc, <- Hcalls, <- Hcount, <- Hs.
  destruct (_charRenderCanvas this) as [canvas|] eqn:E; cbn.
  - repeat split.
  - rewrite E, app_nil_r. repeat split.
Qed.

(** An [update] of a layer without canvas constructs one. *)
Lemma update_without_canvas this session config viewPortSize fuel :
  _editSession this = Some session ->
  wf_lookup session ->
  (enoughFuel config <= fuel)%nat ->
  _charRenderCanvas this = None ->
  exists this' canvas',
    update this config viewPortSize fuel = Ok this' /\
    _charRenderCanvas this' = Some canvas' /\
    canvasId canvas' = canvasCount this /\
    canvasCount this' = S (canvasCount this).
Proof.
  intros Hs Hwf Hfuel Hnone.
  destruct (update_returns this session config viewPortSize fuel Hs Hwf Hfuel)
    as (rows & canvas2 & grid' & Hrows & Hc2 & _ & Hupd).
  destruct (setUpRenderCanvas_allocates (remembered this config viewPortSize) config
              viewPortSize (Z.of_nat (List.length rows)) (or_introl Hnone))
    as (canvas' & Hc' & Hid & Hcount & _).
  rewrite Hc' in Hc2. injection Hc2 as <-.
  eexists. exists (with_cellGrid canvas' grid'). split; [exact Hupd|].
  layer_simpl.
  rewrite Hid, Hcount. repeat split.
Qed.

End Setters.

(** C8. [setFontFamily], [setFontSizePx], [setDevicePixelRatio],
    [setLigatureMarker] and [setTransparentBackground] dispose the canvas
    at once: the field is empty afterwards, and the next [update]
    constructs a new canvas.  [setPalette] and [setCursorStyle] keep the
    canvas, the very object; [setCursorStyle] also renders on it. *)
Theorem setters_dispose_or_keep (imports : Imports) this :
  (forall fontFamily, disposed this (setFontFamily this fontFamily)) /\
  (forall fontSizePx, disposed this (setFontSizePx this fontSizePx)) /\
  (forall devicePixelRatio, disposed this (setDevicePixelRatio this devicePixelRatio)) /\
  (forall marker, disposed this (setLigatureMarker this marker)) /\
  (forall transparentBackground,
     disposed this (setTransparentBackground this transparentBackground)) /\
  (forall this' session config viewPortSize fuel,
     disposed this this' ->
     _editSession this = Some session -> wf_lookup session ->
     (enoughFuel config <= fuel)%nat ->
     exists this'' canvas'',
       update this' config viewPortSize fuel = Ok this'' /\
       _charRenderCanvas this'' = Some canvas'' /\
       canvasId canvas'' = canvasCount this /\
       canvasCount this'' = S (canvasCount this)) /\
  (forall palette,
     kept this (setPalette this palette) (fun id => [PaletteSet id palette])) /\
  (forall cursorStyle,
     kept this (setCursorStyle this cursorStyle)
       (fun id => [CursorStyleSet id cursorStyle; Rendered id])).
Proof.
  split; [intros v; now apply deleteCanvasElement_disposed|].
  split; [intros v; now apply deleteCanvasElement_disposed|].
  split; [intros v; now apply deleteCanvasElement_disposed|].
  split; [intros v; now apply deleteCanvasElement_disposed|].
  split; [intros v; now apply deleteCanvasElement_disposed|].
  split.
  - intros this' session config viewPortSize fuel (Hnone & _ & Hcount & Hs') Hs Hwf Hfuel.
    rewrite <- Hcount.
    apply (update_without_canvas this' session config viewPortSize fuel); try assumption.
    now rewrite Hs'.
  - split.
    + intros palette. unfold kept, setPalette.
      cbn [Upd.set_palette _charRenderCanvas].
      destruct (_charRenderCanvas this) as [canvas|] eqn:E.
      * eexists. layer_simpl. repeat split.
      * layer_simpl. now rewrite E.
    + intros cursorStyle. unfold kept, setCursorStyle.
      cbn [Upd.set_cursorStyle _charRenderCanvas].
      destruct (_charRenderCanvas this) as [canvas|] eqn:E.
      * eexists. layer_simpl. repeat split.
      * layer_simpl. now rewrite E.
Qed.

Lemma setters_dispose_or_keep_witness :
  disposed Sample.shown (setFontSizePx Sample.shown 14) /\
  (exists this'' canvas'',
     @update Sample.imports (setFontSizePx Sample.shown 14)
       Sample.config05 Sample.viewPort100 7 = Ok this'' /\
     _charRenderCanvas this'' = Some canvas'' /\
     canvasId canvas'' = canvasCount Sample.shown /\
     canvasCount this'' = S (canvasCount Sample.shown)) /\
  kept Sample.shown (setCursorStyle Sample.shown (OtherCursorStyle 1))
    (fun id => [CursorStyleSet id (OtherCursorStyle 1); Rendered id]).
Proof.
  destruct (setters_dispose_or_keep Sample.imports Sample.shown)
    as (_ & Hsize & _ & _ & _ & Hnext & _ & Hcursor).
  split; [exact (Hsize 14%Q)|]. split; [|exact (Hcursor (OtherCursorStyle 1))].
  apply (Hnext _ Sample.session Sample.config05 Sample.viewPort100 7%nat (Hsize 14%Q)).
  - vm_compute. reflexivity.
  - exact sample_session_wf.
  - vm_compute. lia.
Defined.

(** C10. [updateRows] is [update]: its row arguments are not looked at. *)
Theorem updateRows_is_update
    (imports : Imports) this config viewPortSize firstRow lastRow fuel :
  updateRows this config viewPortSize firstRow lastRow fuel =
  update this config viewPortSize fuel.
Proof. reflexivity. Qed.

(** ** Hovering *)

Section Hover.

Context {imports : Imports}.

Lemma resolveHoveredURL_none this : resolveHoveredURL this None = Ok None.
Proof. reflexivity. Qed.

Lemma resolveHoveredURL_line this session p line :
  _editSession this = Some session ->
  getTerminalLine session (row p) = Some line ->
  exists url,
    resolveHoveredURL this (Some p) = Ok url /\
    (lineWidth line <= column p \/ Grid.getLinkID (lineGrid line) (column p) 0 = 0 ->
     url = None).
Proof.
  intros Hs Hline. unfold resolveHoveredURL. rewrite Hs, Hline.
  destruct (Z.ltb_spec (column p) (lineWidth line)) as [Hin|Hout].
  - destruct (Z.eqb_spec (Grid.getLinkID (lineGrid line) (column p) 0) 0) as [E|E].
    + exists None. split; [reflexivity|]. reflexivity.
    + eexists. split; [reflexivity|]. intros [H|H]; [lia|contradiction].
  - exists None. cbn. split; reflexivity.
Qed.

(** [mouseOver] with the URL it resolves: the URL is stored, and
    [rerender] runs exactly when it is not the one stored before. *)
Lemma mouseOver_resolved this pos fuel url :
  resolveHoveredURL this pos = Ok url ->
  mouseOver this pos fuel =
  if JS.strict_neq (hoveredURL this) url
  then rerender (Upd.set_hoveredURL this url) fuel
  else Ok (Upd.set_hoveredURL this url).
Proof. intros H. unfold mouseOver. rewrite H. reflexivity. Qed.

Lemma rerender_effect this session fuel :
  _editSession this = Some session ->
  wf_lookup session ->
  (forall config, _lastConfig this = Some config -> (enoughFuel config <= fuel)%nat) ->
  exists this',
    rerender this fuel = Ok this' /\
    hoveredURL this' = hoveredURL this /\
    (forall config viewPortSize,
       _lastConfig this = Some config -> _lastViewPortSize this = Some viewPortSize ->
       renderCount this' = S (renderCount this)).
Proof.
  intros Hs Hwf Hfuel. unfold rerender.
  destruct (_lastConfig this) as [config|]; [destruct (_lastViewPortSize this) as [view|]|].
  - destruct (update_effect this session config view fuel Hs Hwf (Hfuel config eq_refl))
      as (this' & Hupd & _ & _ & _ & Hurl & Hrender & _).
    exists this'. split; [exact Hupd|]. split; [exact Hurl|]. intros; exact Hrender.
  - exists this. split; [reflexivity|]. split; [reflexivity|]. discriminate.
  - exists this. split; [reflexivity|]. split; [reflexivity|]. discriminate.
Qed.

End Hover.

(** C9. [mouseOver] on no position, on a column at or past the end of the
    line, or on a cell whose link identifier is zero stores "no link" and
    does not throw.  It runs [rerender] exactly when the URL it resolved is
    not the one stored before; a second call that resolves to the same URL
    renders nothing. *)
Theorem mouseOver_resolves_and_rerenders
    (imports : Imports) this session fuel pos :
  _editSession this = Some session ->
  wf_lookup session ->
  (forall config, _lastConfig this = Some config -> (enoughFuel config <= fuel)%nat) ->
  (forall p, pos = Some p -> exists line, getTerminalLine session (row p) = Some line) ->
  exists url this',
    mouseOver this pos fuel = Ok this' /\
    hoveredURL this' = url /\
    (pos = None -> url = None) /\
    (forall p line,
       pos = Some p -> getTerminalLine session (row p) = Some line ->
       lineWidth line <= column p \/ Grid.getLinkID (lineGrid line) (column p) 0 = 0 ->
       url = None) /\
    (url = hoveredURL this ->
       this' = Upd.set_hoveredURL this url /\ renderCount this' = renderCount this) /\
    (url <> hoveredURL this ->
       rerender (Upd.set_hoveredURL this url) fuel = Ok this' /\
       forall config viewPortSize,
         _lastConfig this = Some config -> _lastViewPortSize this = Some viewPortSize ->
         renderCount this' = S (renderCount this)) /\
    (forall pos2,
       resolveHoveredURL this' pos2 = Ok url ->
       exists this2,
         mouseOver this' pos2 fuel = Ok this2 /\ renderCount this2 = renderCount this').
Proof.
  intros Hs Hwf Hfuel Hline.
  assert (Hres : exists url,
             resolveHoveredURL this pos = Ok url /\
             (pos = None -> url = None) /\
             (forall p line,
                pos = Some p -> getTerminalLine session (row p) = Some line ->
                lineWidth line <= column p \/
                Grid.getLinkID (lineGrid line) (column p) 0 = 0 ->
                url = None)).
  { destruct pos as [p|].
    - destruct (Hline p eq_refl) as (line & Hl).
      destruct (resolveHoveredURL_line this session p line Hs Hl) as (url & Hr & Hnone).
      exists url. split; [exact Hr|]. split; [discriminate|].
      intros p' line' Hp Hl' Hcase. injection Hp as <-.
      rewrite Hl in Hl'. injection Hl' as <-. now apply Hnone.
    - exists None. split; [reflexivity|]. split; [reflexivity|]. discriminate. }
  destruct Hres as (url & Hres & Hnull & Hnolink).
  exists url.
  pose proof (mouseOver_resolved this pos fuel url Hres) as Hmouse.
  assert (Hsecond : forall this',
             hoveredURL this' = url ->
             forall pos2,
               resolveHoveredURL this' pos2 = Ok url ->
               exists this2,
                 mouseOver this' pos2 fuel = Ok this2 /\
                 renderCount this2 = renderCount this').
  { intros this' Hurl pos2 Hres2.
    rewrite (mouseOver_resolved this' pos2 fuel url Hres2).
    replace (JS.strict_neq (hoveredURL this') url) with false
      by (symmetry; apply strict_neq_false; exact Hurl).
    eexists. split; reflexivity. }
  destruct (JS.strict_neq (hoveredURL this) url) eqn:Hneq.
  - assert (Hdiff : url <> hoveredURL this).
    { intros E. symmetry in E. apply strict_neq_false in E. congruence. }
    destruct (rerender_effect (Upd.set_hoveredURL this url) session fuel Hs Hwf Hfuel)
      as (this' & Hrer & Hurl & Hcount).
    exists this'. split; [congruence|]. split; [exact Hurl|].
    split; [exact Hnull|]. split; [exact Hnolink|].
    split; [intros E; contradiction|].
    split; [intros _; split; [exact Hrer|exact Hcount]|].
    apply Hsecond. exact Hurl.
  - apply strict_neq_false in Hneq.
    exists (Upd.set_hoveredURL this url). split; [exact Hmouse|].
    split; [reflexivity|]. split; [exact Hnull|]. split; [exact Hnolink|].
    split; [intros _; split; reflexivity|].
    split; [intros Hdiff; congruence|].
    apply Hsecond. reflexivity.
Qed.

Lemma mouseOver_resolves_and_rerenders_witness :
  exists url this',
    @mouseOver Sample.imports Sample.shown (Some (mkPosition 0 1)) 7 = Ok this' /\
    hoveredURL this' = url /\
    (Some (mkPosition 0 1) = None -> url = None) /\
    (forall p line,
       Some (mkPosition 0 1) = Some p ->
       getTerminalLine Sample.session (row p) = Some line ->
       lineWidth line <= column p \/ Grid.getLinkID (lineGrid line) (column p) 0 = 0 ->
       url = None) /\
    (url = hoveredURL Sample.shown ->
       this' = Upd.set_hoveredURL Sample.shown url /\
       renderCount this' = renderCount Sample.shown) /\
    (url <> hoveredURL Sample.shown ->
       @rerender Sample.imports (Upd.set_hoveredURL Sample.shown url) 7 = Ok this' /\
       forall config viewPortSize,
         _lastConfig Sample.shown = Some config ->
         _lastViewPortSize Sample.shown = Some viewPortSize ->
         renderCount this' = S (renderCount Sample.shown)) /\
    (forall pos2,
       resolveHoveredURL this' pos2 = Ok url ->
       exists this2,
         @mouseOver Sample.imports this' pos2 7 = Ok this2 /\
         renderCount this2 = renderCount this').
Proof.
  apply (mouseOver_resolves_and_rerenders Sample.imports Sample.shown Sample.session 7
           (Some (mkPosition 0 1))).
  - vm_compute. reflexivity.
  - exact sample_session_wf.
  - intros config H. injection H as <-. vm_compute. lia.
  - intros p H. injection H as <-. exists Sample.line. reflexivity.
Defined.

(** Moving the mouse onto the link of the sample layer, along it to the
    next row, and off it: one render for the first call, none for the
    second, one for the third. *)
Example mouseOver_sample :
  let this2 :=
    Sample.returned (@mouseOver Sample.imports Sample.hovering (Some (mkPosition 1 1)) 7)
      Sample.hovering in
  let this3 := Sample.returned (@mouseOver Sample.imports this2 None 7) this2 in
  hoveredURL Sample.shown = None /\
  renderCount Sample.shown = 1%nat /\
  hoveredURL Sample.hovering = Some "http://a"%string /\
  renderCount Sample.hovering = 2%nat /\
  hoveredURL this2 = Some "http://a"%string /\
  renderCount this2 = 2%nat /\
  hoveredURL this3 = None /\
  renderCount this3 = 3%nat.
Proof. vm_compute. repeat split. Qed.

(** Without a line under the mouse, [mouseOver] throws. *)
Example mouseOver_past_document :
  @mouseOver Sample.imports Sample.shown (Some (mkPosition 9 0)) 7 = TypeError.
Proof. vm_compute. reflexivity. Qed.

(** ** What every reachable layer satisfies *)

Section InvariantFacts.

Context {imports : Imports}.

Lemma protocol_app calls1 : forall state calls2,
  protocol state (calls1 ++ calls2) =
  match protocol state calls1 with
  | Some state' => protocol state' calls2
  | None => None
  end.
Proof.
  induction calls1 as [|call calls1 IH]; intros state calls2; cbn [protocol app].
  - reflexivity.
  - destruct (protocol_step state call); [apply IH|reflexivity].
Qed.

Lemma liveId_some this canvas :
  _charRenderCanvas this = Some canvas -> liveId this = Some (canvasId canvas).
Proof. intros H. unfold liveId. now rewrite H. Qed.

Lemma liveId_none this : _charRenderCanvas this = None -> liveId this = None.
Proof. intros H. unfold liveId. now rewrite H. Qed.

Lemma invariant_constructor ratio options : Invariant (constructor ratio options).
Proof.
  constructor; unfold liveId; layer_simpl; cbn [constructor _charRenderCanvas canvasCalls
    canvasCount clipChildren _canvasWidthCssPx _currentCanvasRawWidthPx option_map protocol].
  - reflexivity.
  - reflexivity.
  - intros H. now elim H.
  - split; [apply Qle_refl|reflexivity].
  - discriminate.
Qed.

(** Disposal re-establishes the invariant even when the settings have just
    been changed: a layer without canvas has no settings to agree with. *)
Lemma invariant_delete this this1 :
  Invariant this ->
  _charRenderCanvas this1 = _charRenderCanvas this ->
  canvasCalls this1 = canvasCalls this ->
  canvasCount this1 = canvasCount this ->
  clipChildren this1 = clipChildren this ->
  _canvasWidthCssPx this1 = _canvasWidthCssPx this ->
  _currentCanvasRawWidthPx this1 = _currentCanvasRawWidthPx this ->
  Invariant (_deleteCanvasElement this1).
Proof.
  intros [Hp Hch Hl Hw Hs] Ec Ecalls Ecount Echildren Ecw Ecur.
  unfold _deleteCanvasElement. destruct (_charRenderCanvas this1) as [canvas|] eqn:Hc1.
  - symmetry in Ec. rewrite Ec in Hch.
    constructor; unfold liveId; layer_simpl; cbn [option_map].
    + rewrite Ecalls, Ecount, protocol_app, Hp, (liveId_some this canvas Ec).
      cbn [protocol protocol_step fst snd]. now rewrite Nat.eqb_refl.
    + rewrite Echildren, Hch. cbn [remove].
      destruct (Nat.eq_dec (canvasId canvas) (canvasId canvas)); [reflexivity|congruence].
    + intros H. now elim H.
    + rewrite Ecw, Ecur. split; [apply Hw|]. intros H. now elim H.
    + discriminate.
  - symmetry in Ec. rewrite Ec in Hch.
    constructor; unfold liveId; rewrite ?Hc1; cbn [option_map].
    + rewrite Ecalls, Ecount, Hp, (liveId_none this Ec). reflexivity.
    + rewrite Echildren. exact Hch.
    + intros H. now elim H.
    + rewrite Ecw, Ecur. split; [apply Hw|]. intros H. now elim H.
    + discriminate.
Qed.

Lemma invariant_provision this config rawW rawH n :
  Invariant this ->
  _charRenderCanvas this = None ->
  _lastConfig this <> None -> _lastViewPortSize this <> None ->
  Invariant (provision this config rawW rawH n).
Proof.
  intros [Hp Hch Hl Hw Hs] Hc Hconfig Hview. rewrite Hc in Hch.
  constructor; unfold liveId, provision, _createCanvas; layer_simpl; cbn [option_map].
  - rewrite protocol_app, Hp, (liveId_none this Hc).
    cbn [protocol protocol_step fst snd]. now rewrite Nat.eqb_refl.
  - now rewrite Hch.
  - intros _. split; assumption.
  - split; [apply Qle_refl|reflexivity].
  - intros canvas H. injection H as <-. layer_simpl.
    cbn [opt_fontFamily opt_fontSizePx opt_transparentBackground]. repeat split.
Qed.

Lemma invariant_setUpRenderCanvas this config viewPortSize n :
  Invariant this ->
  _lastConfig this <> None -> _lastViewPortSize this <> None ->
  Invariant (_setUpRenderCanvas this config viewPortSize n).
Proof.
  intros Hinv Hconfig Hview.
  destruct (_charRenderCanvas this) as [canvas|] eqn:Hc.
  - destruct (largeEnough this config viewPortSize n) eqn:Hlarge.
    + rewrite (setUpRenderCanvas_reuse this config viewPortSize n canvas Hc Hlarge).
      destruct Hinv as [Hp Hch Hl Hw Hs].
      constructor; unfold liveId in *; layer_simpl; assumption.
    + rewrite (setUpRenderCanvas_replace this config viewPortSize n canvas Hc Hlarge).
      apply invariant_provision.
      * apply (invariant_delete this); try reflexivity. exact Hinv.
      * apply deleteCanvasElement_none.
      * destruct (deleteCanvasElement_frame
                    (_setupClipping this (_currentCanvasRawWidthPx this)
                       (requiredHeight config n)))
          as (_ & _ & _ & _ & -> & _). exact Hconfig.
      * destruct (deleteCanvasElement_frame
                    (_setupClipping this (_currentCanvasRawWidthPx this)
                       (requiredHeight config n)))
          as (_ & _ & _ & _ & _ & -> & _). exact Hview.
  - rewrite (setUpRenderCanvas_first this config viewPortSize n Hc).
    now apply invariant_provision.
Qed.

(** A call to the live canvas, which may change its grid, its palette or
    its cursor style along with the layer's setting. *)
Lemma invariant_call this this1 canvas canvas1 call :
  Invariant this ->
  _charRenderCanvas this = Some canvas ->
  _charRenderCanvas this1 = Some canvas1 ->
  canvasId canvas1 = canvasId canvas ->
  addressee call = canvasId canvas ->
  (forall id options, call <> Created id options) ->
  (forall id, call <> Disposed id) ->
  canvasCalls this1 = canvasCalls this ++ [call] ->
  canvasCount this1 = canvasCount this ->
  clipChildren this1 = clipChildren this ->
  _lastConfig this1 = _lastConfig this ->
  _lastViewPortSize this1 = _lastViewPortSize this ->
  _canvasWidthCssPx this1 = _canvasWidthCssPx this ->
  _currentCanvasRawWidthPx this1 = _currentCanvasRawWidthPx this ->
  (opt_fontFamily (canvasOptions canvas1) = _fontFamily this1 /\
   opt_fontSizePx (canvasOptions canvas1)
     = JS.mul (_fontSizePx this1) (_devicePixelRatio this1) /\
   opt_transparentBackground (canvasOptions canvas1) = _transparentBackground this1 /\
   canvasPalette canvas1 = _palette this1 /\
   canvasCursorStyle canvas1 = _cursorStyle this1) ->
  Invariant this1.
Proof.
  intros [Hp Hch Hl Hw Hs] Hc Hc1 Hid Hto Hcreated Hdisposed Ecalls Ecount Echildren
    Econfig Eview Ecw Ecur Hsettings.
  rewrite Hc in Hch.
  constructor.
  - rewrite Ecalls, Ecount, protocol_app, Hp, (liveId_some this canvas Hc),
      (liveId_some this1 canvas1 Hc1), Hid.
    cbn [protocol]. unfold protocol_step. cbn [fst snd].
    destruct call; try (exfalso; eapply Hcreated; reflexivity);
      try (exfalso; eapply Hdisposed; reflexivity);
      cbn [addressee] in Hto; subst; now rewrite Nat.eqb_refl.
  - rewrite Hc1, Echildren, Hid. exact Hch.
  - intros _. rewrite Econfig, Eview. apply Hl. congruence.
  - rewrite Ecw, Ecur. split; [apply Hw|]. intros _. apply Hw. congruence.
  - intros c H. rewrite Hc1 in H. injection H as <-. exact Hsettings.
Qed.

(** What [update] returns, when it returns. *)
Lemma update_inversion this config viewPortSize fuel this' :
  update this config viewPortSize fuel = Ok this' ->
  exists rows canvas grid',
    _getVisibleRows this config fuel = Ok rows /\
    _charRenderCanvas
      (_setUpRenderCanvas (remembered this config viewPortSize) config viewPortSize
         (Z.of_nat (List.length rows))) = Some canvas /\
    this' =
    Upd.set_canvasCalls
      (Upd.set_charRenderCanvas
         (_setUpRenderCanvas (remembered this config viewPortSize) config viewPortSize
            (Z.of_nat (List.length rows)))
         (Some (with_cellGrid canvas grid')))
      (canvasCalls
         (_setUpRenderCanvas (remembered this config viewPortSize) config viewPortSize
            (Z.of_nat (List.length rows)))
       ++ [Rendered (canvasId canvas)]).
Proof.
  unfold update. fold (remembered this config viewPortSize).
  rewrite getVisibleRows_remembered.
  destruct (_getVisibleRows this config fuel) as [rows| |]; cbn [bind]; try discriminate.
  set (this2 := _setUpRenderCanvas _ _ _ _).
  destruct (_charRenderCanvas this2) as [canvas|] eqn:Hc; [|discriminate].
  destruct (_writeLinesToGrid this2 (cellGrid canvas) rows (_ligatureMarker this2))
    as [grid'| |]; cbn [bind]; try discriminate.
  unfold render. layer_simpl. intros H. injection H as <-.
  exists rows, canvas, grid'. split; [reflexivity|]. split; [exact Hc|reflexivity].
Qed.

Lemma invariant_remembered this config viewPortSize :
  Invariant this -> Invariant (remembered this config viewPortSize).
Proof.
  intros [Hp Hch Hl Hw Hs].
  constructor; unfold liveId in *; layer_simpl; try assumption.
  intros _. split; discriminate.
Qed.

Lemma invariant_update this config viewPortSize fuel this' :
  Invariant this ->
  update this config viewPortSize fuel = Ok this' ->
  Invariant this'.
Proof.
  intros Hinv Hupd.
  destruct (update_inversion this config viewPortSize fuel this' Hupd)
    as (rows & canvas & grid' & _ & Hc & ->).
  set (this2 := _setUpRenderCanvas _ _ _ _) in *.
  assert (Hinv2 : Invariant this2).
  { apply invariant_setUpRenderCanvas.
    - now apply invariant_remembered.
    - discriminate.
    - discriminate. }
  apply (invariant_call this2 _ canvas (with_cellGrid canvas grid')
           (Rendered (canvasId canvas)));
    try reflexivity; try assumption; try discriminate.
  layer_simpl. apply (inv_settings this2 Hinv2 canvas Hc).
Qed.

Lemma invariant_hovered this url :
  Invariant this -> Invariant (Upd.set_hoveredURL this url).
Proof.
  intros [Hp Hch Hl Hw Hs].
  constructor; unfold liveId in *; layer_simpl; assumption.
Qed.

Lemma invariant_rerender this fuel this' :
  Invariant this -> rerender this fuel = Ok this' -> Invariant this'.
Proof.
  intros Hinv. unfold rerender.
  destruct (_lastConfig this) as [config|]; [destruct (_lastViewPortSize this) as [view|]|].
  - now apply invariant_update.
  - intros H. injection H as <-. exact Hinv.
  - intros H. injection H as <-. exact Hinv.
Qed.

Lemma invariant_mouseOver this pos fuel this' :
  Invariant this -> mouseOver this pos fuel = Ok this' -> Invariant this'.
Proof.
  intros Hinv. unfold mouseOver.
  destruct (resolveHoveredURL this pos) as [url| |]; cbn [bind]; try discriminate.
  destruct (JS.strict_neq _ _).
  - apply invariant_rerender. now apply invariant_hovered.
  - intros H. injection H as <-. now apply invariant_hovered.
Qed.

Lemma invariant_scrollRows this config viewPortSize fuel this' :
  Invariant this -> scrollRows this config viewPortSize fuel = Ok this' -> Invariant this'.
Proof.
  intros Hinv. unfold scrollRows.
  destruct (_charRenderCanvas this) as [canvas|] eqn:Hc.
  - destruct (_lastConfig this) as [lastConfig|] eqn:Hlast; cbn [bind]; [|discriminate].
    destruct (Z.abs (firstRow config - firstRow lastConfig) <? height (cellGrid canvas)).
    + cbn [bind]. apply invariant_update.
      apply (invariant_call this _ canvas
               (with_cellGrid canvas
                  (scrollVertical (cellGrid canvas) (firstRow config - firstRow lastConfig)))
               (ScrolledVertical (canvasId canvas) (firstRow config - firstRow lastConfig)));
        try reflexivity; try assumption; try discriminate.
      layer_simpl. apply (inv_settings this Hinv canvas Hc).
    + cbn [bind]. now apply invariant_update.
  - cbn [bind]. now apply invariant_update.
Qed.

Lemma invariant_setPalette this palette :
  Invariant this -> Invariant (setPalette this palette).
Proof.
  intros Hinv. unfold setPalette. layer_simpl.
  destruct (_charRenderCanvas this) as [canvas|] eqn:Hc.
  - apply (invariant_call this _ canvas (with_palette canvas palette)
             (PaletteSet (canvasId canvas) palette));
      try reflexivity; try assumption; try discriminate.
    layer_simpl. destruct (inv_settings this Hinv canvas Hc) as (H1 & H2 & H3 & _ & H5).
    repeat split; assumption.
  - destruct Hinv as [Hp Hch Hl Hw Hs]. rewrite Hc in Hch.
    constructor; unfold liveId in *; layer_simpl; rewrite ?Hc in *; try assumption.
    discriminate.
Qed.

Lemma invariant_setCursorStyle this cursorStyle :
  Invariant this -> Invariant (setCursorStyle this cursorStyle).
Proof.
  intros Hinv. unfold setCursorStyle. layer_simpl.
  destruct (_charRenderCanvas this) as [canvas|] eqn:Hc.
  - set (this1 := Upd.set_canvasCalls
                    (Upd.set_charRenderCanvas (Upd.set_cursorStyle this cursorStyle)
                       (Some (with_cursorStyle canvas cursorStyle)))
                    (canvasCalls this ++ [CursorStyleSet (canvasId canvas) cursorStyle])).
    assert (H1 : Invariant this1).
    { apply (invariant_call this _ canvas (with_cursorStyle canvas cursorStyle)
               (CursorStyleSet (canvasId canvas) cursorStyle));
        try reflexivity; try assumption; try discriminate.
      layer_simpl. destruct (inv_settings this Hinv canvas Hc) as (S1 & S2 & S3 & S4 & _).
      repeat split; assumption. }
    apply (invariant_call this1 _ (with_cursorStyle canvas cursorStyle)
             (with_cursorStyle canvas cursorStyle) (Rendered (canvasId canvas)));
      try reflexivity; try assumption; try discriminate.
    + unfold this1. layer_simpl. now rewrite <- app_assoc.
    + apply (inv_settings this1 H1). reflexivity.
  - destruct Hinv as [Hp Hch Hl Hw Hs]. rewrite Hc in Hch.
    constructor; unfold liveId in *; layer_simpl; rewrite ?Hc in *; try assumption.
    discriminate.
Qed.

Lemma invariant_setSession this session :
  Invariant this -> Invariant (setSession this session).
Proof.
  intros [Hp Hch Hl Hw Hs].
  constructor; unfold liveId, setSession in *; layer_simpl; assumption.
Qed.

(** [scrollRows] is the scroll of the existing contents followed by
    [update]. *)
Lemma scrollRows_steps this config viewPortSize fuel :
  scrollRows this config viewPortSize fuel =
  (this1 <- scrollExisting this config ;; update this1 config viewPortSize fuel).
Proof. reflexivity. Qed.

(** The loop of [_getVisibleRows] does not throw. *)
Lemma visibleRows_loop_no_throw session lastRow fuel : forall r fl fs acc,
  visibleRows_loop session lastRow fuel r fl fs acc <> TypeError.
Proof.
  induction fuel as [|fuel IH]; intros r fl fs acc; cbn [visibleRows_loop];
    [discriminate|].
  destruct (skipFold session r fl fs) as [[r1 fl1] fs1].
  destruct (r1 >? lastRow); [discriminate|apply IH].
Qed.

(** [update] throws on a layer without session only: in
    [_getVisibleRows], with its two assignments made and nothing else
    done. *)
Lemma update_throws_without_session this config viewPortSize fuel :
  update this config viewPortSize fuel = TypeError ->
  _editSession this = None /\
  _getVisibleRows (update_thrown this config viewPortSize) config fuel = TypeError.
Proof.
  unfold update. fold (remembered this config viewPortSize).
  change (update_thrown this config viewPortSize) with (remembered this config viewPortSize).
  rewrite getVisibleRows_remembered.
  destruct (_editSession this) as [session|] eqn:Hs.
  - intros H. exfalso. revert H.
    unfold _getVisibleRows at 1. rewrite Hs.
    destruct (visibleRows_loop session (lastRow config) fuel (firstRow config)
                (getNextFoldLine session (firstRow config) None)
                (foldStartOf (getNextFoldLine session (firstRow config) None)) [])
      as [rows| |] eqn:Hloop; cbn [bind]; try discriminate.
    + destruct (setUpRenderCanvas_always (remembered this config viewPortSize) config
                  viewPortSize (Z.of_nat (List.length rows)))
        as ((canvas & Hcanvas) & _ & _ & Hsession & _).
      rewrite Hcanvas. unfold _writeLinesToGrid. rewrite Hsession. layer_simpl. rewrite Hs.
      unfold render. destruct rows; cbn [bind]; layer_simpl; discriminate.
    + now apply visibleRows_loop_no_throw in Hloop.
  - intros _. split; [reflexivity|]. unfold _getVisibleRows. now rewrite Hs.
Qed.

Lemma invariant_scrollExisting this config this1 :
  Invariant this -> scrollExisting this config = Ok this1 -> Invariant this1.
Proof.
  intros Hinv. unfold scrollExisting.
  destruct (_charRenderCanvas this) as [canvas|] eqn:Hc.
  - destruct (_lastConfig this) as [lastConfig|] eqn:Hlast; [|discriminate].
    destruct (Z.abs (firstRow config - firstRow lastConfig) <? height (cellGrid canvas)).
    + intros H. injection H as <-.
      apply (invariant_call this _ canvas
               (with_cellGrid canvas
                  (scrollVertical (cellGrid canvas) (firstRow config - firstRow lastConfig)))
               (ScrolledVertical (canvasId canvas) (firstRow config - firstRow lastConfig)));
        try reflexivity; try assumption; try discriminate.
      layer_simpl. apply (inv_settings this Hinv canvas Hc).
    + intros H. injection H as <-. exact Hinv.
  - intros H. injection H as <-. exact Hinv.
Qed.

Lemma invariant_rerender_thrown this :
  Invariant this -> Invariant (rerender_thrown this).
Proof.
  intros Hinv. unfold rerender_thrown.
  destruct (_lastConfig this) as [config|]; [destruct (_lastViewPortSize this) as [view|]|];
    try exact Hinv.
  now apply invariant_remembered.
Qed.

Lemma invariant_scrollRows_thrown this config viewPortSize :
  Invariant this -> Invariant (scrollRows_thrown this config viewPortSize).
Proof.
  intros Hinv. unfold scrollRows_thrown.
  destruct (scrollExisting this config) as [this1| |] eqn:Hscroll; try exact Hinv.
  apply invariant_remembered. eapply invariant_scrollExisting; eassumption.
Qed.

Lemma invariant_mouseOver_thrown this pos :
  Invariant this -> Invariant (mouseOver_thrown this pos).
Proof.
  intros Hinv. unfold mouseOver_thrown.
  destruct (resolveHoveredURL this pos) as [url| |]; try exact Hinv.
  now apply invariant_rerender_thrown, invariant_hovered.
Qed.

(** Every reachable layer satisfies the invariant. *)
Lemma reachable_invariant this : reachable this -> Invariant this.
Proof.
  induction 1.
  - apply invariant_constructor.
  - now apply invariant_setSession.
  - now apply invariant_setPalette.
  - apply (invariant_delete this); try reflexivity; assumption.
  - apply (invariant_delete this); try reflexivity; assumption.
  - apply (invariant_delete this); try reflexivity; assumption.
  - apply (invariant_delete this); try reflexivity; assumption.
  - now apply invariant_setCursorStyle.
  - apply (invariant_delete this); try reflexivity; assumption.
  - apply (invariant_delete this); try reflexivity; assumption.
  - eapply invariant_update; eassumption.
  - match goal with
    | Hrun : updateRows _ _ _ _ _ _ = Ok _ |- _ => unfold updateRows in Hrun
    end.
    eapply invariant_update; eassumption.
  - eapply invariant_scrollRows; eassumption.
  - eapply invariant_rerender; eassumption.
  - eapply invariant_mouseOver; eassumption.
  - now apply invariant_remembered.
  - now apply invariant_remembered.
  - now apply invariant_scrollRows_thrown.
  - now apply invariant_rerender_thrown.
  - now apply invariant_mouseOver_thrown.
Qed.

End InvariantFacts.

(** ** Reachable layers *)

Lemma sample_layer_reachable : @reachable Sample.imports Sample.layer.
Proof. apply reach_setSession, reach_constructor. Qed.

Lemma sample_shown_reachable : @reachable Sample.imports Sample.shown.
Proof.
  apply (reach_update Sample.layer Sample.config05 Sample.viewPort100 7).
  - exact sample_layer_reachable.
  - vm_compute. reflexivity.
Qed.

(** A layer whose first [update] threw for want of a session. *)
Lemma sample_thrown_reachable :
  @reachable Sample.imports
    (update_thrown (constructor 1 Sample.options) Sample.config05 Sample.viewPort100).
Proof.
  apply (reach_update_throws _ _ _ 7%nat); [apply reach_constructor|reflexivity].
Qed.

(** The sample layer after its session was taken away and [scrollRows]
    threw: the canvas was scrolled before the throw. *)
Lemma sample_scrolled_thrown_reachable :
  @reachable Sample.imports
    (@scrollRows_thrown Sample.imports (setSession Sample.shown None) Sample.config16
       Sample.viewPort100).
Proof.
  apply (reach_scrollRows_throws _ _ _ 7%nat).
  - apply reach_setSession, sample_shown_reachable.
  - vm_compute. reflexivity.
Qed.

Example scrolled_thrown_sample :
  let this := @scrollRows_thrown Sample.imports (setSession Sample.shown None)
                Sample.config16 Sample.viewPort100 in
  @scrollRows Sample.imports (setSession Sample.shown None) Sample.config16
    Sample.viewPort100 7 = TypeError /\
  canvasCalls this = canvasCalls Sample.shown ++ [ScrolledVertical 0 1] /\
  _lastConfig this = Some Sample.config16 /\
  liveId this = Some 0%nat.
Proof. vm_compute. repeat split. Qed.

(** Along any sequence of public method calls, returning or throwing, the
    layer keeps to the canvas protocol: it constructs a canvas only while
    none is live, each under the next identity; it disposes only the live
    canvas; every [render], [setPalette], [setCursorStyle] and
    [scrollVertical] goes to the live canvas.  So at most one canvas is
    live and none is used after its disposal. *)
Theorem canvas_protocol_respected (imports : Imports) this :
  reachable this ->
  protocol (None, 0%nat) (canvasCalls this) = Some (liveId this, canvasCount this).
Proof. intros H. apply inv_protocol, reachable_invariant, H. Qed.

Lemma canvas_protocol_respected_witness :
  let this := @scrollRows_thrown Sample.imports (setSession Sample.shown None)
                Sample.config16 Sample.viewPort100 in
  protocol (None, 0%nat) (canvasCalls this) = Some (liveId this, canvasCount this).
Proof.
  apply (canvas_protocol_respected Sample.imports
           (@scrollRows_thrown Sample.imports (setSession Sample.shown None)
              Sample.config16 Sample.viewPort100)).
  exact sample_scrolled_thrown_reachable.
Defined.

(** The clip element holds the element of the live canvas and no other:
    nothing while no canvas is live. *)
Theorem clip_holds_live_canvas (imports : Imports) this :
  reachable this ->
  clipChildren this =
  match _charRenderCanvas this with
  | Some canvas => [canvasId canvas]
  | None => []
  end.
Proof. intros H. apply inv_children, reachable_invariant, H. Qed.

Lemma clip_holds_live_canvas_witness :
  clipChildren Sample.shown =
  match _charRenderCanvas Sample.shown with
  | Some canvas => [canvasId canvas]
  | None => []
  end.
Proof.
  apply (clip_holds_live_canvas Sample.imports Sample.shown).
  exact sample_shown_reachable.
Defined.

(** A live canvas was constructed with the font family, the font size
    times the device pixel ratio and the transparency the layer has now,
    and carries the layer's palette and cursor style: a setter either
    disposes the canvas or passes the new value on to it. *)
Theorem live_canvas_matches_settings (imports : Imports) this canvas :
  reachable this ->
  _charRenderCanvas this = Some canvas ->
  opt_fontFamily (canvasOptions canvas) = _fontFamily this /\
  opt_fontSizePx (canvasOptions canvas) = JS.mul (_fontSizePx this) (_devicePixelRatio this) /\
  opt_transparentBackground (canvasOptions canvas) = _transparentBackground this /\
  canvasPalette canvas = _palette this /\
  canvasCursorStyle canvas = _cursorStyle this.
Proof. intros H Hc. exact (inv_settings this (reachable_invariant this H) canvas Hc). Qed.

Lemma live_canvas_matches_settings_witness :
  let canvas := Sample.returnedCanvas (_charRenderCanvas Sample.shown) in
  opt_fontFamily (canvasOptions canvas) = _fontFamily Sample.shown /\
  opt_fontSizePx (canvasOptions canvas)
    = JS.mul (_fontSizePx Sample.shown) (_devicePixelRatio Sample.shown) /\
  opt_transparentBackground (canvasOptions canvas) = _transparentBackground Sample.shown /\
  canvasPalette canvas = _palette Sample.shown /\
  canvasCursorStyle canvas = _cursorStyle Sample.shown.
Proof.
  apply (live_canvas_matches_settings Sample.imports Sample.shown).
  - exact sample_shown_reachable.
  - vm_compute. reflexivity.
Defined.

(** The allocated width of the canvas never exceeds the width on record,
    and the two are the same while a canvas is live. *)
Theorem live_canvas_width_on_record (imports : Imports) this :
  reachable this ->
  (_canvasWidthCssPx this <= _currentCanvasRawWidthPx this)%Q /\
  (_charRenderCanvas this <> None ->
   _canvasWidthCssPx this = _currentCanvasRawWidthPx this).
Proof. intros H. apply inv_width, reachable_invariant, H. Qed.

Lemma live_canvas_width_on_record_witness :
  (_canvasWidthCssPx Sample.shown <= _currentCanvasRawWidthPx Sample.shown)%Q /\
  (_charRenderCanvas Sample.shown <> None ->
   _canvasWidthCssPx Sample.shown = _currentCanvasRawWidthPx Sample.shown).
Proof.
  apply (live_canvas_width_on_record Sample.imports Sample.shown).
  exact sample_shown_reachable.
Defined.

(** On a reachable layer with a session, [scrollRows] returns: where it
    reads [_lastConfig] a canvas is live, and a live canvas was set up by
    an [update] that recorded its arguments, also when the call before
    threw.  It then has rendered once. *)
Theorem scrollRows_returns (imports : Imports) this session config viewPortSize fuel :
  reachable this ->
  _editSession this = Some session ->
  wf_lookup session ->
  (enoughFuel config <= fuel)%nat ->
  exists this',
    scrollRows this config viewPortSize fuel = Ok this' /\
    _lastConfig this' = Some config /\
    _lastViewPortSize this' = Some viewPortSize /\
    renderCount this' = S (renderCount this).
Proof.
  intros Hreach Hs Hwf Hfuel.
  pose proof (reachable_invariant this Hreach) as Hinv.
  unfold scrollRows.
  assert (Hplain : forall this0,
             _editSession this0 = Some session ->
             renderCount this0 = renderCount this ->
             exists this',
               update this0 config viewPortSize fuel = Ok this' /\
               _lastConfig this' = Some config /\
               _lastViewPortSize this' = Some viewPortSize /\
               renderCount this' = S (renderCount this)).
  { intros this0 Hs0 Hr0.
    destruct (update_effect this0 session config viewPortSize fuel Hs0 Hwf Hfuel)
      as (this' & Hupd & _ & Hconfig & Hview & _ & Hrender & _).
    exists this'. rewrite <- Hr0. repeat split; assumption. }
  destruct (_charRenderCanvas this) as [canvas|] eqn:Hc.
  - destruct (inv_layout this Hinv) as [Hconfig _]; [congruence|].
    destruct (_lastConfig this) as [lastConfig|]; [|now elim Hconfig].
    destruct (Z.abs (firstRow config - firstRow lastConfig) <? height (cellGrid canvas));
      cbn [bind].
    + apply Hplain; [exact Hs|].
      unfold renderCount. layer_simpl. rewrite filter_app, length_app. cbn. lia.
    + now apply Hplain.
  - cbn [bind]. now apply Hplain.
Qed.

Lemma scrollRows_returns_witness :
  exists this',
    @scrollRows Sample.imports Sample.shown Sample.config05 Sample.viewPort100 7 = Ok this' /\
    _lastConfig this' = Some Sample.config05 /\
    _lastViewPortSize this' = Some Sample.viewPort100 /\
    renderCount this' = S (renderCount Sample.shown).
Proof.
  apply (scrollRows_returns Sample.imports Sample.shown Sample.session).
  - exact sample_shown_reachable.
  - vm_compute. reflexivity.
  - exact sample_session_wf.
  - vm_compute. lia.
Defined.

(** ** Reuse of the canvas *)

Section Reuse.

Context {imports : Imports}.

(** Rows of non-negative height: the provisioned height covers the
    required one. *)
Lemma provisioned_covers_required config n :
  (0 <= charHeightPx config)%Q -> 0 <= n ->
  (requiredHeight config n <= provisionedHeight config n)%Q.
Proof.
  intros Hh Hn. unfold requiredHeight, provisionedHeight, JS.ceil.
  rewrite <- Zle_Qle. apply Qceiling_resp_le.
  apply machine_product_monotone; [|now apply provision_rows_cover|exact Hh].
  change 0%Q with (inject_Z 0). now rewrite <- Zle_Qle.
Qed.

(** After [_setUpRenderCanvas] the canvas is large enough for the very
    viewport it was set up for. *)
Lemma setUpRenderCanvas_largeEnough this config viewPortSize n :
  (0 <= charHeightPx config)%Q -> 0 <= n ->
  largeEnough (_setUpRenderCanvas this config viewPortSize n) config viewPortSize n = true.
Proof.
  intros Hh Hn.
  assert (Halloc : _charRenderCanvas this = None \/
                   largeEnough this config viewPortSize n = false ->
                   largeEnough (_setUpRenderCanvas this config viewPortSize n)
                     config viewPortSize n = true).
  { intros Hcase.
    destruct (setUpRenderCanvas_allocates this config viewPortSize n Hcase)
      as (canvas' & _ & _ & _ & Hheight & Hwidth & _).
    unfold largeEnough. rewrite Hheight, Hwidth. apply andb_true_iff. split.
    - apply geb_true, max_ge_l.
    - apply geb_true. now apply provisioned_covers_required. }
  destruct (_charRenderCanvas this) as [canvas|] eqn:Hc; [|now apply Halloc; left].
  destruct (largeEnough this config viewPortSize n) eqn:Hlarge; [|now apply Halloc; right].
  rewrite (setUpRenderCanvas_reuse this config viewPortSize n canvas Hc Hlarge).
  exact Hlarge.
Qed.

End Reuse.

(** An [update] with the arguments of the [update] before it (rows of
    non-negative height) keeps the canvas: the over-provisioned height and
    the width on record cover the same viewport, so the second call
    constructs nothing, disposes nothing and renders once on the same
    canvas object. *)
Theorem update_twice_keeps_canvas
    (imports : Imports) this session config viewPortSize fuel :
  _editSession this = Some session ->
  wf_lookup session ->
  (enoughFuel config <= fuel)%nat ->
  (0 <= charHeightPx config)%Q ->
  exists this1 this2 canvas1 canvas2,
    update this config viewPortSize fuel = Ok this1 /\
    update this1 config viewPortSize fuel = Ok this2 /\
    _charRenderCanvas this1 = Some canvas1 /\
    _charRenderCanvas this2 = Some canvas2 /\
    canvasId canvas2 = canvasId canvas1 /\
    canvasCount this2 = canvasCount this1 /\
    canvasCalls this2 = canvasCalls this1 ++ [Rendered (canvasId canvas1)] /\
    _canvasWidthCssPx this2 = _canvasWidthCssPx this1 /\
    _canvasHeightCssPx this2 = _canvasHeightCssPx this1.
Proof.
  intros Hs Hwf Hfuel Hh.
  destruct (update_returns this session config viewPortSize fuel Hs Hwf Hfuel)
    as (rows & canvas & grid' & Hrows & Hc & _ & Hupd).
  set (n := Z.of_nat (List.length rows)) in *.
  set (this2 := _setUpRenderCanvas (remembered this config viewPortSize) config
                  viewPortSize n) in *.
  set (this1 := Upd.set_canvasCalls
                  (Upd.set_charRenderCanvas this2 (Some (with_cellGrid canvas grid')))
                  (canvasCalls this2 ++ [Rendered (canvasId canvas)])) in *.
  assert (Hs1 : _editSession this1 = Some session).
  { destruct (setUpRenderCanvas_always (remembered this config viewPortSize) config
                viewPortSize n) as (_ & _ & _ & Hsession & _).
    unfold this1. layer_simpl. fold this2 in Hsession. rewrite Hsession. exact Hs. }
  destruct (update_returns this1 session config viewPortSize fuel Hs1 Hwf Hfuel)
    as (rows' & canvas' & grid'' & Hrows' & Hc' & _ & Hupd').
  assert (Erows : rows' = rows).
  { unfold _getVisibleRows in Hrows, Hrows'. rewrite Hs in Hrows. rewrite Hs1 in Hrows'.
    congruence. }
  subst rows'. fold n in Hc', Hupd'.
  assert (Hlarge : largeEnough (remembered this1 config viewPortSize) config viewPortSize n
                   = true).
  { change (largeEnough this2 config viewPortSize n = true).
    apply setUpRenderCanvas_largeEnough; [exact Hh|]. unfold n. lia. }
  rewrite (setUpRenderCanvas_reuse (remembered this1 config viewPortSize) config
             viewPortSize n (with_cellGrid canvas grid') eq_refl Hlarge) in Hupd', Hc'.
  unfold this1 in Hc'. layer_simpl. injection Hc' as <-.
  exists this1. eexists. exists (with_cellGrid canvas grid'). eexists.
  split; [exact Hupd|]. split; [exact Hupd'|].
  unfold this1. layer_simpl. repeat split.
Qed.

Lemma update_twice_keeps_canvas_witness :
  exists this1 this2 canvas1 canvas2,
    @update Sample.imports Sample.layer Sample.config05 Sample.viewPort100 7 = Ok this1 /\
    @update Sample.imports this1 Sample.config05 Sample.viewPort100 7 = Ok this2 /\
    _charRenderCanvas this1 = Some canvas1 /\
    _charRenderCanvas this2 = Some canvas2 /\
    canvasId canvas2 = canvasId canvas1 /\
    canvasCount this2 = canvasCount this1 /\
    canvasCalls this2 = canvasCalls this1 ++ [Rendered (canvasId canvas1)] /\
    _canvasWidthCssPx this2 = _canvasWidthCssPx this1 /\
    _canvasHeightCssPx this2 = _canvasHeightCssPx this1.
Proof.
  apply (update_twice_keeps_canvas Sample.imports Sample.layer Sample.session).
  - reflexivity.
  - exact sample_session_wf.
  - vm_compute. lia.
  - vm_compute. discriminate.
Defined.

(** [reduceMemory] can be called at any time: on a layer without canvas it
    changes nothing, a second call in a row changes nothing, and the width
    on record survives it, so that the canvas of the next [update] is as
    wide as the larger of the viewport and the width before the call. *)
Theorem reduceMemory_safe_and_keeps_width
    (imports : Imports) this session config viewPortSize fuel :
  _editSession this = Some session ->
  wf_lookup session ->
  (enoughFuel config <= fuel)%nat ->
  (_charRenderCanvas this = None -> reduceMemory this = this) /\
  reduceMemory (reduceMemory this) = reduceMemory this /\
  _charRenderCanvas (reduceMemory this) = None /\
  exists this' canvas',
    update (reduceMemory this) config viewPortSize fuel = Ok this' /\
    _charRenderCanvas this' = Some canvas' /\
    canvasId canvas' = canvasCount this /\
    _canvasWidthCssPx this' = JS.max (widthPx viewPortSize) (_currentCanvasRawWidthPx this).
Proof.
  intros Hs Hwf Hfuel. unfold reduceMemory.
  split; [|split; [|split]].
  - intros Hnone. unfold _deleteCanvasElement. now rewrite Hnone.
  - unfold _deleteCanvasElement at 1. now rewrite deleteCanvasElement_none.
  - apply deleteCanvasElement_none.
  - destruct (deleteCanvasElement_frame this)
      as (_ & _ & Hcur & Hsession & _ & _ & _ & _ & Hcount & _).
    assert (Hs' : _editSession (_deleteCanvasElement this) = Some session)
      by (rewrite Hsession; exact Hs).
    destruct (update_returns (_deleteCanvasElement this) session config viewPortSize fuel
                Hs' Hwf Hfuel)
      as (rows & canvas & grid' & _ & Hc & _ & Hupd).
    destruct (setUpRenderCanvas_allocates
                (remembered (_deleteCanvasElement this) config viewPortSize) config
                viewPortSize (Z.of_nat (List.length rows))
                (or_introl (deleteCanvasElement_none this)))
      as (canvas' & Hc' & Hid & _ & _ & Hwidth & _).
    rewrite Hc' in Hc. injection Hc as <-.
    eexists. exists (with_cellGrid canvas' grid'). split; [exact Hupd|].
    layer_simpl. rewrite Hwidth, Hid. layer_simpl. rewrite Hcur, Hcount.
    repeat split.
Qed.

Lemma reduceMemory_safe_and_keeps_width_witness :
  (_charRenderCanvas Sample.shown = None -> reduceMemory Sample.shown = Sample.shown) /\
  reduceMemory (reduceMemory Sample.shown) = reduceMemory Sample.shown /\
  _charRenderCanvas (reduceMemory Sample.shown) = None /\
  exists this' canvas',
    @update Sample.imports (reduceMemory Sample.shown) Sample.config05 Sample.viewPort80 7
      = Ok this' /\
    _charRenderCanvas this' = Some canvas' /\
    canvasId canvas' = canvasCount Sample.shown /\
    _canvasWidthCssPx this'
      = JS.max (widthPx Sample.viewPort80) (_currentCanvasRawWidthPx Sample.shown).
Proof.
  apply (reduceMemory_safe_and_keeps_width Sample.imports Sample.shown Sample.session).
  - vm_compute. reflexivity.
  - exact sample_session_wf.
  - vm_compute. lia.
Defined.

(** ** More on the grid compositor *)

Section Paint.

Context {imports : Imports}.

Variable session : EditSession.
Variable hovered : option string.
Variable ligatureMarker : option LigatureMarker.
Hypothesis Hmarker : marker_keeps_paint ligatureMarker.

(** A row without a line is cleared, column by column. *)
Lemma writeLine_clears g r docRow x :
  getTerminalLine session docRow = None ->
  0 <= r < height g -> 0 <= x < width g ->
  cells (writeLine session hovered ligatureMarker g r docRow) x r = clearedCell.
Proof.
  intros Hline Hr Hx. rewrite (writeLine_absent session hovered ligatureMarker g r docRow Hline).
  destruct (for_range_rewrites r _ _ (clear_rewrites r) 0 (width g) g) as (_ & _ & Hc).
  rewrite Hc.
  replace (Grid.inside g x r) with true by (symmetry; apply inside_true; lia).
  replace ((r =? r) && (0 <=? x) && (x <? width g)) with true by zbool.
  reflexivity.
Qed.

(** Without a hovered URL, or with one that the line does not know, the
    cells of the line are pasted as they are. *)
Lemma writeLine_line_plain g r docRow line x :
  getTerminalLine session docRow = Some line ->
  (hovered = None \/ exists url, hovered = Some url /\ getLinkIDByURL line url = 0) ->
  0 <= r < height g ->
  0 < height (lineGrid line) ->
  0 <= x < lineWidth line -> x < width g ->
  same_paint (cells (writeLine session hovered ligatureMarker g r docRow) x r)
             (cells (lineGrid line) x 0).
Proof.
  intros Hline Hplain Hr Hh Hx HxW.
  rewrite (writeLine_present session hovered ligatureMarker g r docRow line Hline).
  eapply same_paint_trans; [apply marked_paint; exact Hmarker|].
  rewrite filled_cells.
  replace ((r =? r) && (lineWidth line <=? x)) with false by zbool.
  cbn [andb].
  assert (E : highlighted hovered line r (pasted g line r) = pasted g line r).
  { unfold highlighted. destruct Hplain as [->|(url & -> & ->)]; reflexivity. }
  rewrite E. unfold pasted, Grid.pasteGrid. cbn [cells].
  assert (Hin1 : Grid.inside g x r = true) by (apply inside_true; lia).
  assert (Hin2 : Grid.inside (lineGrid line) (x - 0) (r - r) = true).
  { apply inside_true. unfold lineWidth in Hx. lia. }
  rewrite Hin1, Hin2. cbn [andb]. rewrite Z.sub_0_r, Z.sub_diag.
  apply same_paint_refl.
Qed.

(** Painting canvas row [r] with a line of one row leaves the rows below
    it as they are. *)
Lemma writeLine_below g r docRow x y :
  single_row_lines session ->
  r < y ->
  same_paint (cells (writeLine session hovered ligatureMarker g r docRow) x y) (cells g x y).
Proof.
  intros Hsingle Hy. destruct (getTerminalLine session docRow) as [line|] eqn:Hline.
  - rewrite (writeLine_present session hovered ligatureMarker g r docRow line Hline).
    eapply same_paint_trans; [apply marked_paint; exact Hmarker|].
    rewrite filled_cells.
    replace ((y =? r) && (lineWidth line <=? x)) with false by zbool.
    cbn [andb]. rewrite highlighted_elsewhere by lia.
    unfold pasted, Grid.pasteGrid. cbn [cells].
    replace (Grid.inside (lineGrid line) (x - 0) (y - r)) with false.
    + rewrite andb_false_r. apply same_paint_refl.
    + symmetry. apply inside_false. specialize (Hsingle docRow line Hline). lia.
  - rewrite (writeLine_absent session hovered ligatureMarker g r docRow Hline).
    destruct (for_range_rewrites r _ _ (clear_rewrites r) 0 (width g) g) as (_ & _ & Hc).
    rewrite Hc. replace (y =? r) with false by zbool. cbn [andb]. apply same_paint_refl.
Qed.

Lemma writeLines_loop_below rows : forall c g x y,
  single_row_lines session ->
  c + Z.of_nat (List.length rows) <= y ->
  same_paint (cells (writeLines_loop session hovered ligatureMarker rows c g) x y)
             (cells g x y).
Proof.
  induction rows as [|docRow rows IH]; intros c g x y Hsingle Hy; cbn [writeLines_loop].
  - apply same_paint_refl.
  - cbn [List.length] in Hy.
    assert (Hone : same_paint
              (cells (writeLine session hovered ligatureMarker g c docRow) x y)
              (cells g x y)) by (apply writeLine_below; [exact Hsingle|lia]).
    destruct (c + 1 >=? height (writeLine session hovered ligatureMarker g c docRow)).
    + exact Hone.
    + eapply same_paint_trans; [apply IH; [exact Hsingle|lia]|exact Hone].
Qed.

(** The loop stops when the rows of the grid are used up: the document
    rows past that point play no part. *)
Lemma writeLines_loop_truncates rows : forall c g,
  writeLines_loop session hovered ligatureMarker rows c g =
  writeLines_loop session hovered ligatureMarker
    (firstn (Z.to_nat (Z.max 1 (height g - c))) rows) c g.
Proof.
  induction rows as [|docRow rows IH]; intros c g.
  - now rewrite firstn_nil.
  - destruct (Z.to_nat (Z.max 1 (height g - c))) as [|m] eqn:Hm; [lia|].
    cbn [firstn writeLines_loop].
    destruct (writeLine_size session hovered ligatureMarker Hmarker g c docRow) as [Hw Hh].
    destruct (Z.geb_spec (c + 1)
                (height (writeLine session hovered ligatureMarker g c docRow)))
      as [Hstop|Hgo]; [reflexivity|].
    rewrite IH. rewrite Hh in *.
    replace (Z.to_nat (Z.max 1 (height g - (c + 1)))) with m by lia.
    reflexivity.
Qed.

End Paint.

(** A painted canvas row whose document row has no line is blank: every
    cell of it is the cleared cell, with the cleared cell's own background
    index (the background slot is written only past the end of a line that
    is there). *)
Theorem writeLinesToGrid_clears_missing_rows
    (imports : Imports) this session grid rows ligatureMarker k docRow x :
  _editSession this = Some session ->
  marker_keeps_paint ligatureMarker ->
  nth_error rows k = Some docRow ->
  Z.of_nat k < height grid ->
  getTerminalLine session docRow = None ->
  0 <= x < width grid ->
  exists grid',
    _writeLinesToGrid this grid rows ligatureMarker = Ok grid' /\
    same_paint (Grid.getCell grid' x (Z.of_nat k)) clearedCell.
Proof.
  intros Hs Hmarker Hnth Hk Hline Hx.
  unfold _writeLinesToGrid. rewrite Hs.
  destruct rows as [|d rows]; [destruct k; discriminate|].
  eexists. split; [reflexivity|].
  destruct (writeLines_loop_row session (hoveredURL this) ligatureMarker Hmarker
              (d :: rows) 0 grid k docRow Hnth) as (g' & Hw' & Hh' & Hcells); [lia|lia|].
  cbn [Z.add] in Hcells. unfold Grid.getCell.
  eapply same_paint_trans; [apply Hcells|].
  rewrite (writeLine_clears session (hoveredURL this) ligatureMarker g' (Z.of_nat k) docRow x
             Hline); [apply same_paint_refl|lia|lia].
Qed.

Lemma writeLinesToGrid_clears_missing_rows_witness :
  exists grid',
    @_writeLinesToGrid Sample.imports Sample.layer Sample.grid [0; 1; 2] None = Ok grid' /\
    same_paint (Grid.getCell grid' 1 (Z.of_nat 2)) (@clearedCell Sample.imports).
Proof.
  apply (writeLinesToGrid_clears_missing_rows Sample.imports Sample.layer Sample.session
           Sample.grid [0; 1; 2] None 2%nat 2).
  - reflexivity.
  - exact I.
  - reflexivity.
  - reflexivity.
  - reflexivity.
  - cbn. lia.
Defined.

(** While no URL is hovered, or the hovered URL is unknown to a line, the
    cells of that line arrive in the grid as they are in the line: code
    point, colours, style and link identifier (no highlight bit is
    added). *)
Theorem writeLinesToGrid_pastes_line_cells
    (imports : Imports) this session grid rows ligatureMarker k docRow line x :
  _editSession this = Some session ->
  marker_keeps_paint ligatureMarker ->
  nth_error rows k = Some docRow ->
  Z.of_nat k < height grid ->
  getTerminalLine session docRow = Some line ->
  height (lineGrid line) = 1 ->
  (hoveredURL this = None \/
   exists url, hoveredURL this = Some url /\ getLinkIDByURL line url = 0) ->
  0 <= x < lineWidth line -> x < width grid ->
  exists grid',
    _writeLinesToGrid this grid rows ligatureMarker = Ok grid' /\
    same_paint (Grid.getCell grid' x (Z.of_nat k)) (Grid.getCell (lineGrid line) x 0).
Proof.
  intros Hs Hmarker Hnth Hk Hline Hh Hplain Hx HxW.
  unfold _writeLinesToGrid. rewrite Hs.
  destruct rows as [|d rows]; [destruct k; discriminate|].
  eexists. split; [reflexivity|].
  destruct (writeLines_loop_row session (hoveredURL this) ligatureMarker Hmarker
              (d :: rows) 0 grid k docRow Hnth) as (g' & Hw' & Hh' & Hcells); [lia|lia|].
  cbn [Z.add] in Hcells. unfold Grid.getCell.
  eapply same_paint_trans; [apply Hcells|].
  apply (writeLine_line_plain session (hoveredURL this) ligatureMarker Hmarker
           g' (Z.of_nat k) docRow line x Hline Hplain); lia.
Qed.

Lemma writeLinesToGrid_pastes_line_cells_witness :
  exists grid',
    @_writeLinesToGrid Sample.imports Sample.layer Sample.grid [0; 1; 2] None = Ok grid' /\
    same_paint (Grid.getCell grid' 1 (Z.of_nat 0)) (Grid.getCell (lineGrid Sample.line) 1 0).
Proof.
  apply (writeLinesToGrid_pastes_line_cells Sample.imports Sample.layer Sample.session
           Sample.grid [0; 1; 2] None 0%nat 0 Sample.line 1).
  - reflexivity.
  - exact I.
  - reflexivity.
  - reflexivity.
  - reflexivity.
  - reflexivity.
  - left. reflexivity.
  - cbn. lia.
  - cbn. lia.
Defined.

(** [_writeLinesToGrid] paints as many rows as the grid is high (one when
    the grid has no row at all): the rest of the row list is not looked
    at. *)
Theorem writeLinesToGrid_stops_at_grid_height
    (imports : Imports) this grid rows ligatureMarker :
  marker_keeps_paint ligatureMarker ->
  _writeLinesToGrid this grid rows ligatureMarker =
  _writeLinesToGrid this grid (firstn (Z.to_nat (Z.max 1 (height grid))) rows) ligatureMarker.
Proof.
  intros Hmarker. unfold _writeLinesToGrid.
  destruct rows as [|d rows]; [now rewrite firstn_nil|].
  destruct (Z.to_nat (Z.max 1 (height grid))) as [|m] eqn:Hm; [lia|].
  cbn [firstn]. destruct (_editSession this) as [session|]; [|reflexivity].
  rewrite (writeLines_loop_truncates session (hoveredURL this) ligatureMarker Hmarker
             (d :: rows) 0 grid).
  rewrite Z.sub_0_r, Hm. reflexivity.
Qed.

Lemma writeLinesToGrid_stops_at_grid_height_witness :
  @_writeLinesToGrid Sample.imports Sample.layer Sample.grid [0; 1; 2; 3; 4; 5; 6] None =
  @_writeLinesToGrid Sample.imports Sample.layer Sample.grid
    (firstn (Z.to_nat (Z.max 1 (height Sample.grid))) [0; 1; 2; 3; 4; 5; 6]) None.
Proof.
  apply (writeLinesToGrid_stops_at_grid_height Sample.imports Sample.layer Sample.grid
           [0; 1; 2; 3; 4; 5; 6] None).
  exact I.
Defined.

(** [_writeLinesToGrid] keeps the size of the grid and, the lines being
    one row high, leaves the canvas rows past the end of the row list as
    they were: what an earlier frame painted there stays. *)
Theorem writeLinesToGrid_leaves_rows_below
    (imports : Imports) this session grid rows ligatureMarker :
  _editSession this = Some session ->
  marker_keeps_paint ligatureMarker ->
  (forall docRow line,
     getTerminalLine session docRow = Some line -> height (lineGrid line) <= 1) ->
  exists grid',
    _writeLinesToGrid this grid rows ligatureMarker = Ok grid' /\
    width grid' = width grid /\
    height grid' = height grid /\
    forall x y,
      Z.of_nat (List.length rows) <= y ->
      same_paint (Grid.getCell grid' x y) (Grid.getCell grid x y).
Proof.
  intros Hs Hmarker Hsingle. unfold _writeLinesToGrid. rewrite Hs.
  destruct rows as [|d rows].
  - exists grid. split; [reflexivity|]. split; [reflexivity|]. split; [reflexivity|].
    intros; apply same_paint_refl.
  - eexists. split; [reflexivity|].
    destruct (writeLines_loop_size session (hoveredURL this) ligatureMarker Hmarker
                (d :: rows) 0 grid) as [Hw Hh].
    split; [exact Hw|]. split; [exact Hh|]. intros x y Hy.
    apply (writeLines_loop_below session (hoveredURL this) ligatureMarker Hmarker);
      [exact Hsingle|lia].
Qed.

Lemma writeLinesToGrid_leaves_rows_below_witness :
  exists grid',
    @_writeLinesToGrid Sample.imports Sample.layer Sample.grid [0; 1] None = Ok grid' /\
    width grid' = width Sample.grid /\
    height grid' = height Sample.grid /\
    forall x y,
      Z.of_nat (List.length [0; 1]) <= y ->
      same_paint (Grid.getCell grid' x y) (Grid.getCell Sample.grid x y).
Proof.
  apply (writeLinesToGrid_leaves_rows_below Sample.imports Sample.layer Sample.session).
  - reflexivity.
  - exact I.
  - intros docRow line. cbn.
    destruct ((0 <=? docRow) && (docRow <? 2)); [|discriminate].
    intros H. injection H as <-. cbn. lia.
Defined.

(** ** More on the row visibility resolver *)

Section MoreVisibleRows.

Variable session : EditSession.
Variable lastRow : Z.

(** A look-up that keeps answering a fold that ends before [lastRow]
    keeps the loop away from its [break]. *)
Lemma visibleRows_loop_stuck f fuel : forall r acc,
  (forall docRow startFoldLine, getNextFoldLine session docRow startFoldLine = Some f) ->
  row (fold_start f) <= row (fold_end f) ->
  row (fold_end f) < lastRow ->
  visibleRows_loop session lastRow fuel r (Some f) (Row (row (fold_start f))) acc = OutOfFuel.
Proof.
  induction fuel as [|fuel IH]; intros r acc Hlookup Hfold Hend; [reflexivity|].
  cbn [visibleRows_loop]. unfold skipFold, gt_foldStart.
  destruct (Z.gtb_spec r (row (fold_start f))) as [Hpast|Hbefore].
  - rewrite Hlookup. cbn [foldStartOf].
    replace (row (fold_end f) + 1 >? lastRow) with false by zbool.
    now apply IH.
  - replace (r >? lastRow) with false by zbool.
    now apply IH.
Qed.

(** The first row appended is the first row of the result. *)
Lemma visibleRows_loop_head fuel r fl fs rows :
  visibleRows_loop session lastRow fuel r fl fs [] = Ok rows ->
  hd_error rows = Some (fst (fst (skipFold session r fl fs))).
Proof.
  destruct fuel as [|fuel]; [discriminate|]. cbn [visibleRows_loop].
  destruct (skipFold session r fl fs) as [[r1 fl1] fs1]. cbn [fst].
  destruct (r1 >? lastRow).
  - intros H. injection H as <-. reflexivity.
  - rewrite visibleRows_loop_acc.
    destruct (visibleRows_loop session lastRow fuel (r1 + 1) fl1 fs1 []); try discriminate.
    intros H. injection H as <-. reflexivity.
Qed.

Variable f : FoldLine.
Hypothesis Hlookup :
  forall docRow startFoldLine,
    getNextFoldLine session docRow startFoldLine = singleFoldLookup f docRow startFoldLine.
Hypothesis Hfold : row (fold_start f) <= row (fold_end f).

Lemma single_fold_wf : wf_lookup session.
Proof.
  intros docRow s f' H. rewrite Hlookup in H. unfold singleFoldLookup in H.
  destruct (Z.geb_spec (row (fold_end f)) docRow) as [Hge|Hlt]; [|discriminate].
  injection H as <-. lia.
Qed.

(** With one fold, the loop returns the rows from [r] on that the fold
    does not hide, up to the first of them past [lastRow]. *)
Lemma visibleRows_loop_single_fold fuel : forall r fl,
  single_fold_state f r fl ->
  (Z.to_nat (lastRow + 1 - r) < fuel)%nat ->
  exists rows,
    visibleRows_loop session lastRow fuel r fl (foldStartOf fl) [] = Ok rows /\
    (forall y, In y rows -> r <= y /\ ~ hidden_by f y) /\
    (forall y, r <= y <= lastRow -> ~ hidden_by f y -> In y rows).
Proof.
  unfold hidden_by.
  induction fuel as [|fuel IH]; intros r fl Hstate Hfuel; [lia|].
  cbn [visibleRows_loop].
  assert (Hskip : exists r1 fl1,
             skipFold session r fl (foldStartOf fl) = (r1, fl1, foldStartOf fl1) /\
             r <= r1 /\ ~ (row (fold_start f) < r1 <= row (fold_end f)) /\
             (forall y, r <= y < r1 -> row (fold_start f) < y <= row (fold_end f)) /\
             single_fold_state f (r1 + 1) fl1).
  { unfold skipFold. destruct Hstate as [[-> Hr]|[-> Hr]]; cbn [foldStartOf gt_foldStart].
    - destruct (Z.gtb_spec r (row (fold_start f))) as [Hpast|Hbefore].
      + exists (row (fold_end f) + 1), None. rewrite Hlookup. unfold singleFoldLookup.
        replace (row (fold_end f) >=? row (fold_end f) + 1) with false by zbool.
        split; [reflexivity|]. split; [lia|]. split; [lia|]. split; [lia|].
        right. split; [reflexivity|lia].
      + exists r, (Some f). split; [reflexivity|]. split; [lia|]. split; [lia|].
        split; [lia|]. left. split; [reflexivity|lia].
    - exists r, None. split; [reflexivity|]. split; [lia|]. split; [lia|]. split; [lia|].
      right. split; [reflexivity|lia]. }
  destruct Hskip as (r1 & fl1 & -> & Hr1 & Hvisible & Hgap & Hstate1).
  destruct (Z.gtb_spec r1 lastRow) as [Hbreak|Hgo].
  - exists [r1]. split; [reflexivity|]. split.
    + intros y [<-|[]]. split; assumption.
    + intros y Hy Hvis. exfalso.
      destruct (Z.lt_ge_cases y r1) as [Hlt|Hge]; [|lia].
      apply Hvis, Hgap. lia.
  - destruct (IH (r1 + 1) fl1 Hstate1) as (rows & Hrun & Hsound & Hcomplete); [lia|].
    rewrite visibleRows_loop_acc, Hrun. exists (r1 :: rows).
    split; [reflexivity|]. split.
    + intros y [<-|Hy]; [split; assumption|].
      destruct (Hsound y Hy) as [Hlow Hvis]. split; [lia|exact Hvis].
    + intros y Hy Hvis.
      destruct (Z.lt_ge_cases y r1) as [Hlt|Hge]; [exfalso; apply Hvis, Hgap; lia|].
      destruct (Z.eq_dec y r1) as [->|Hne]; [now left|].
      right. apply Hcomplete; [lia|exact Hvis].
Qed.

End MoreVisibleRows.

(** [_getVisibleRows] relies on the look-up for reaching its [break]: with
    a look-up that answers, whatever the row, a fold that ends before
    [lastRow], it does not return, however much fuel it is given. *)
Theorem getVisibleRows_needs_lookup_contract this session config f fuel :
  _editSession this = Some session ->
  (forall docRow startFoldLine, getNextFoldLine session docRow startFoldLine = Some f) ->
  row (fold_start f) <= row (fold_end f) ->
  row (fold_end f) < lastRow config ->
  _getVisibleRows this config fuel = OutOfFuel.
Proof.
  intros Hs Hlookup Hfold Hend. unfold _getVisibleRows. rewrite Hs, Hlookup.
  cbn [foldStartOf]. now apply visibleRows_loop_stuck.
Qed.

Lemma getVisibleRows_needs_lookup_contract_witness :
  _getVisibleRows Sample.stuckLayer Sample.config05 1000 = OutOfFuel.
Proof.
  apply (getVisibleRows_needs_lookup_contract Sample.stuckLayer Sample.stuckSession
           Sample.config05 (mkFoldLine (mkPosition 0 0) (mkPosition 0 0)) 1000).
  - reflexivity.
  - reflexivity.
  - cbn. lia.
  - cbn. lia.
Defined.

(** The first row returned is [firstRow], also when a fold starts at
    [firstRow], unless [firstRow] lies inside a fold past its first row:
    then it is the row after that fold. *)
Theorem getVisibleRows_first_row this session config fuel :
  _editSession this = Some session ->
  wf_lookup session ->
  (enoughFuel config <= fuel)%nat ->
  exists rows,
    _getVisibleRows this config fuel = Ok rows /\
    hd_error rows = Some (firstVisibleRow session config).
Proof.
  intros Hs Hwf Hfuel.
  destruct (getVisibleRows_returns this session config fuel Hs Hwf Hfuel)
    as (rows & Hrows & _).
  exists rows. split; [exact Hrows|].
  unfold _getVisibleRows in Hrows. rewrite Hs in Hrows.
  rewrite (visibleRows_loop_head session (lastRow config) fuel _ _ _ rows Hrows).
  unfold firstVisibleRow, skipFold.
  destruct (getNextFoldLine session (firstRow config) None) as [f|];
    cbn [foldStartOf gt_foldStart]; [|reflexivity].
  destruct (firstRow config >? row (fold_start f)); reflexivity.
Qed.

Lemma getVisibleRows_first_row_witness :
  exists rows,
    _getVisibleRows Sample.foldedLayer (mkLayerConfig 3 5 10) 7 = Ok rows /\
    hd_error rows = Some (firstVisibleRow Sample.foldedSession (mkLayerConfig 3 5 10)).
Proof.
  apply (getVisibleRows_first_row Sample.foldedLayer Sample.foldedSession
           (mkLayerConfig 3 5 10) 7).
  - reflexivity.
  - exact sample_foldedSession_wf.
  - vm_compute. lia.
Defined.

(** With one fold in the document, the rows returned up to [lastRow] are
    exactly the rows of the viewport that the fold does not hide (the rows
    of the fold past its first row), in increasing order; no hidden row is
    returned at all. *)
Theorem getVisibleRows_single_fold this session config f fuel :
  _editSession this = Some session ->
  (forall docRow startFoldLine,
     getNextFoldLine session docRow startFoldLine = singleFoldLookup f docRow startFoldLine) ->
  row (fold_start f) <= row (fold_end f) ->
  (enoughFuel config <= fuel)%nat ->
  exists rows,
    _getVisibleRows this config fuel = Ok rows /\
    increasing rows /\
    (forall y, In y rows -> ~ hidden_by f y) /\
    (forall y, y <= lastRow config ->
       (In y rows <-> firstRow config <= y /\ ~ hidden_by f y)).
Proof.
  intros Hs Hlookup Hfold Hfuel.
  pose proof (single_fold_wf session f Hlookup Hfold) as Hwf.
  destruct (getVisibleRows_returns this session config fuel Hs Hwf Hfuel)
    as (rows & Hrows & Hinc & _).
  exists rows. split; [exact Hrows|]. split; [exact Hinc|].
  unfold _getVisibleRows in Hrows. rewrite Hs in Hrows.
  destruct (visibleRows_loop_single_fold session (lastRow config) f Hlookup Hfold fuel
              (firstRow config) (getNextFoldLine session (firstRow config) None))
    as (rows' & Hrun & Hsound & Hcomplete).
  - rewrite Hlookup. unfold singleFoldLookup, single_fold_state.
    destruct (Z.geb_spec (row (fold_end f)) (firstRow config)); [left|right];
      (split; [reflexivity|lia]).
  - unfold enoughFuel in Hfuel. lia.
  - rewrite Hrun in Hrows. injection Hrows as <-. split.
    + intros y Hy. apply (Hsound y Hy).
    + intros y Hy. split.
      * intros Hin. apply (Hsound y Hin).
      * intros [Hlow Hvis]. apply Hcomplete; [lia|exact Hvis].
Qed.

Lemma getVisibleRows_single_fold_witness :
  exists rows,
    _getVisibleRows Sample.foldedLayer Sample.config05 7 = Ok rows /\
    increasing rows /\
    (forall y, In y rows -> ~ hidden_by Sample.fold24 y) /\
    (forall y, y <= lastRow Sample.config05 ->
       (In y rows <-> firstRow Sample.config05 <= y /\ ~ hidden_by Sample.fold24 y)).
Proof.
  apply (getVisibleRows_single_fold Sample.foldedLayer Sample.foldedSession
           Sample.config05 Sample.fold24 7).
  - reflexivity.
  - reflexivity.
  - cbn. lia.
  - vm_compute. lia.
Defined.

(** ** The frame that [update] paints *)

Section Frame.

Context {imports : Imports}.

(** The cells of a present line in its canvas row, hovered or not. *)
Lemma writeLine_shows_line session hovered ligatureMarker g r docRow line x :
  marker_keeps_paint ligatureMarker ->
  getTerminalLine session docRow = Some line ->
  0 <= r < height g ->
  0 < height (lineGrid line) ->
  0 <= x < lineWidth line -> x < width g ->
  same_paint (cells (writeLine session hovered ligatureMarker g r docRow) x r)
             (shownCell hovered line x).
Proof.
  intros Hmarker Hline Hr Hh Hx HxW. unfold shownCell.
  destruct hovered as [url|].
  - destruct (Z.eqb_spec (getLinkIDByURL line url) 0) as [Hzero|Hid].
    + apply (writeLine_line_plain session (Some url) ligatureMarker Hmarker g r docRow line x);
        try assumption.
      right. exists url. split; [reflexivity|exact Hzero].
    + now apply (writeLine_line_cells session (Some url) ligatureMarker Hmarker
                   g r docRow line url x).
  - apply (writeLine_line_plain session None ligatureMarker Hmarker g r docRow line x);
      try assumption.
    now left.
Qed.

(** With a session and a row to paint, [_writeLinesToGrid] is its loop. *)
Lemma writeLinesToGrid_loop this session grid rows ligatureMarker k docRow :
  _editSession this = Some session ->
  nth_error rows k = Some docRow ->
  _writeLinesToGrid this grid rows ligatureMarker =
  Ok (writeLines_loop session (hoveredURL this) ligatureMarker rows 0 grid).
Proof.
  intros Hs Hnth. unfold _writeLinesToGrid. rewrite Hs.
  destruct rows; [destruct k; discriminate|reflexivity].
Qed.

(** The scaler's pair for a positive ratio whose fraction is right: the
    screen length covers the length and the render length is the ratio
    times the screen length. *)
Lemma pair_covers_and_scales (r len : Q) (p q : Z) :
  (0 < r)%Q ->
  ratioToFraction r = (p, q) -> 0 < q -> (inject_Z p / inject_Z q == r)%Q ->
  (len <= screenLength (_computeDevicePixelRatioPair r len))%Q /\
  (renderLength (_computeDevicePixelRatioPair r len)
   == r * screenLength (_computeDevicePixelRatioPair r len))%Q.
Proof.
  intros Hr Hfr Hq Hpq.
  destruct (Qeq_dec r 1) as [Hone|Hne].
  - rewrite (pair_ratio_one r len Hone). cbn [screenLength renderLength].
    split; [apply Qle_refl|]. rewrite Hone. ring.
  - rewrite (pair_ratio_other r len p q Hne Hfr). cbn [screenLength renderLength].
    destruct (screen_is_smallest_multiple len q Hq) as (k & _ & Hge & _).
    split; [exact Hge|].
    assert (Hq' : (0 < inject_Z q)%Q) by now apply inject_pos.
    rewrite <- Hpq. field. lra.
Qed.

(** The frame that [update] leaves in the grid of the live canvas. *)
Lemma update_frame this session config viewPortSize fuel :
  _editSession this = Some session ->
  wf_lookup session ->
  (enoughFuel config <= fuel)%nat ->
  marker_keeps_paint (_ligatureMarker this) ->
  exists rows this' canvas,
    _getVisibleRows this config fuel = Ok rows /\
    update this config viewPortSize fuel = Ok this' /\
    _charRenderCanvas this' = Some canvas /\
    forall k docRow x,
      nth_error rows k = Some docRow ->
      Z.of_nat k < height (cellGrid canvas) ->
      0 <= x < width (cellGrid canvas) ->
      match getTerminalLine session docRow with
      | Some line =>
          height (lineGrid line) = 1 -> 0 <= lineWidth line ->
          same_paint (Grid.getCell (cellGrid canvas) x (Z.of_nat k))
            (if x <? lineWidth line then shownCell (hoveredURL this) line x else fillCell)
      | None =>
          same_paint (Grid.getCell (cellGrid canvas) x (Z.of_nat k)) clearedCell
      end.
Proof.
  intros Hs Hwf Hfuel Hmarker.
  destruct (update_returns this session config viewPortSize fuel Hs Hwf Hfuel)
    as (rows & canvas & grid' & Hrows & Hc & Hgrid & Hupd).
  destruct (setUpRenderCanvas_always (remembered this config viewPortSize) config
              viewPortSize (Z.of_nat (List.length rows)))
    as (_ & _ & _ & Hsession & _ & _ & Hurl & Hlig & _).
  set (this2 := _setUpRenderCanvas _ _ _ _) in *.
  layer_simpl.
  assert (Hs2 : _editSession this2 = Some session) by (rewrite Hsession; exact Hs).
  rewrite Hlig in Hgrid.
  exists rows. eexists. exists (with_cellGrid canvas grid').
  split; [exact Hrows|]. split; [exact Hupd|]. split; [reflexivity|].
  intros k docRow x Hnth Hk Hx. layer_simpl.
  assert (Egrid : grid' = writeLines_loop session (hoveredURL this) (_ligatureMarker this)
                            rows 0 (cellGrid canvas)).
  { rewrite (writeLinesToGrid_loop this2 session (cellGrid canvas) rows
               (_ligatureMarker this) k docRow Hs2 Hnth), Hurl in Hgrid.
    congruence. }
  destruct (writeLines_loop_size session (hoveredURL this) (_ligatureMarker this) Hmarker
              rows 0 (cellGrid canvas)) as [Hw Hh].
  rewrite Egrid in *. rewrite Hw in Hx. rewrite Hh in Hk.
  destruct (writeLines_loop_row session (hoveredURL this) (_ligatureMarker this) Hmarker
              rows 0 (cellGrid canvas) k docRow Hnth)
    as (g' & Hw' & Hh' & Hcells); [lia|lia|].
  cbn [Z.add] in Hcells. unfold Grid.getCell.
  destruct (getTerminalLine session docRow) as [line|] eqn:Hline.
  - intros Hone Hwidth. eapply same_paint_trans; [apply Hcells|].
    destruct (Z.ltb_spec x (lineWidth line)) as [Hin|Hout].
    + apply writeLine_shows_line; try assumption; lia.
    + apply (writeLine_fills session (hoveredURL this) (_ligatureMarker this) Hmarker
               g' (Z.of_nat k) docRow line x Hline); lia.
  - eapply same_paint_trans; [apply Hcells|].
    rewrite (writeLine_clears session (hoveredURL this) (_ligatureMarker this)
               g' (Z.of_nat k) docRow x Hline); [apply same_paint_refl|lia|lia].
Qed.

End Frame.

(** After [update], the grid of the live canvas shows the visible rows:
    canvas row [k] holds the [k]-th visible document row, column by
    column: the cells of its line (highlighted where they belong to the
    hovered link), the fill cell past the end of the line, and the cleared
    cell throughout when the document has no such row.  The ligature
    marker is taken to change ligature marks only. *)
Theorem update_shows_visible_rows
    (imports : Imports) this session config viewPortSize fuel :
  _editSession this = Some session ->
  wf_lookup session ->
  (enoughFuel config <= fuel)%nat ->
  marker_keeps_paint (_ligatureMarker this) ->
  exists rows this' canvas,
    _getVisibleRows this config fuel = Ok rows /\
    update this config viewPortSize fuel = Ok this' /\
    _charRenderCanvas this' = Some canvas /\
    forall k docRow x,
      nth_error rows k = Some docRow ->
      Z.of_nat k < height (cellGrid canvas) ->
      0 <= x < width (cellGrid canvas) ->
      match getTerminalLine session docRow with
      | Some line =>
          height (lineGrid line) = 1 -> 0 <= lineWidth line ->
          same_paint (Grid.getCell (cellGrid canvas) x (Z.of_nat k))
            (if x <? lineWidth line then shownCell (hoveredURL this) line x else fillCell)
      | None =>
          same_paint (Grid.getCell (cellGrid canvas) x (Z.of_nat k)) clearedCell
      end.
Proof. apply update_frame. Qed.

Lemma update_shows_visible_rows_witness :
  exists rows this' canvas,
    _getVisibleRows Sample.layer Sample.config05 7 = Ok rows /\
    @update Sample.imports Sample.layer Sample.config05 Sample.viewPort100 7 = Ok this' /\
    _charRenderCanvas this' = Some canvas /\
    forall k docRow x,
      nth_error rows k = Some docRow ->
      Z.of_nat k < height (cellGrid canvas) ->
      0 <= x < width (cellGrid canvas) ->
      match getTerminalLine Sample.session docRow with
      | Some line =>
          height (lineGrid line) = 1 -> 0 <= lineWidth line ->
          same_paint (Grid.getCell (cellGrid canvas) x (Z.of_nat k))
            (if x <? lineWidth line
             then @shownCell Sample.imports (hoveredURL Sample.layer) line x
             else @fillCell Sample.imports)
      | None =>
          same_paint (Grid.getCell (cellGrid canvas) x (Z.of_nat k))
            (@clearedCell Sample.imports)
      end.
Proof.
  apply (update_shows_visible_rows Sample.imports Sample.layer Sample.session
           Sample.config05 Sample.viewPort100 7).
  - reflexivity.
  - exact sample_session_wf.
  - vm_compute. lia.
  - exact I.
Defined.

(** The canvas that [_createCanvas] constructs for a positive device pixel
    ratio whose fraction [ratioToFraction] gets right: its element is at
    least as large, in CSS pixels, as the raw size asked for, and its
    render size is the ratio times the size of the element.  Its usable
    size is the machine product of the raw size and the ratio.  The layer
    records the raw size, not the size of the element. *)
Theorem createCanvas_geometry (imports : Imports) this rawWidthPx rawHeightPx p q :
  (0 < _devicePixelRatio this)%Q ->
  ratioToFraction (_devicePixelRatio this) = (p, q) ->
  0 < q -> (inject_Z p / inject_Z q == _devicePixelRatio this)%Q ->
  exists canvas elementW elementH,
    _charRenderCanvas (_createCanvas this rawWidthPx rawHeightPx) = Some canvas /\
    canvasId canvas = canvasCount this /\
    elementWidth canvas = Some elementW /\
    elementHeight canvas = Some elementH /\
    (rawWidthPx <= elementW)%Q /\
    (rawHeightPx <= elementH)%Q /\
    (opt_widthPx (canvasOptions canvas) == _devicePixelRatio this * elementW)%Q /\
    (opt_heightPx (canvasOptions canvas) == _devicePixelRatio this * elementH)%Q /\
    opt_usableWidthPx (canvasOptions canvas) = JS.mul rawWidthPx (_devicePixelRatio this) /\
    opt_usableHeightPx (canvasOptions canvas) = JS.mul rawHeightPx (_devicePixelRatio this) /\
    _canvasWidthCssPx (_createCanvas this rawWidthPx rawHeightPx) = rawWidthPx /\
    _canvasHeightCssPx (_createCanvas this rawWidthPx rawHeightPx) = rawHeightPx.
Proof.
  intros Hr Hfr Hq Hpq.
  destruct (pair_covers_and_scales (_devicePixelRatio this) rawWidthPx p q Hr Hfr Hq Hpq)
    as [Hw1 Hw2].
  destruct (pair_covers_and_scales (_devicePixelRatio this) rawHeightPx p q Hr Hfr Hq Hpq)
    as [Hh1 Hh2].
  unfold _createCanvas. layer_simpl.
  eexists. eexists. eexists.
  split; [reflexivity|]. layer_simpl.
  cbn [opt_widthPx opt_heightPx opt_usableWidthPx opt_usableHeightPx].
  split; [reflexivity|]. split; [reflexivity|]. split; [reflexivity|].
  split; [exact Hw1|]. split; [exact Hh1|]. split; [exact Hw2|]. split; [exact Hh2|].
  repeat split.
Qed.

Lemma createCanvas_geometry_witness :
  exists canvas elementW elementH,
    let this := setDevicePixelRatio Sample.layer (5 # 4) in
    _charRenderCanvas (@_createCanvas Sample.imports this 101 70) = Some canvas /\
    canvasId canvas = canvasCount this /\
    elementWidth canvas = Some elementW /\
    elementHeight canvas = Some elementH /\
    (101 <= elementW)%Q /\
    (70 <= elementH)%Q /\
    (opt_widthPx (canvasOptions canvas) == _devicePixelRatio this * elementW)%Q /\
    (opt_heightPx (canvasOptions canvas) == _devicePixelRatio this * elementH)%Q /\
    opt_usableWidthPx (canvasOptions canvas) = JS.mul 101 (_devicePixelRatio this) /\
    opt_usableHeightPx (canvasOptions canvas) = JS.mul 70 (_devicePixelRatio this) /\
    _canvasWidthCssPx (@_createCanvas Sample.imports this 101 70) = 101%Q /\
    _canvasHeightCssPx (@_createCanvas Sample.imports this 101 70) = 70%Q.
Proof.
  apply (createCanvas_geometry Sample.imports (setDevicePixelRatio Sample.layer (5 # 4))
           101 70 5 4).
  - vm_compute. reflexivity.
  - vm_compute. reflexivity.
  - lia.
  - vm_compute. reflexivity.
Defined.

(** The canvas element for the ratio 1.25 and a raw size of 101 by 70: 104
    by 72 CSS pixels (the next multiples of 4), rendered at 130 by 90. *)
Example createCanvas_sample :
  let canvas :=
    Sample.returnedCanvas
      (_charRenderCanvas
         (@_createCanvas Sample.imports (setDevicePixelRatio Sample.layer (5 # 4)) 101 70)) in
  elementWidth canvas = Some 104%Q /\
  elementHeight canvas = Some 72%Q /\
  (opt_widthPx (canvasOptions canvas) == 130)%Q /\
  (opt_heightPx (canvasOptions canvas) == 90)%Q.
Proof. vm_compute. repeat split. Qed.

(** For the ratio 1.1, whose fraction is 11/10, and a raw width of 110
    the element is 110 wide and rendered at 121, while the usable width,
    the machine's [110 * 1.1], is 121.00000000000001. *)
Example createCanvas_usable_width_rounded :
  let canvas :=
    Sample.returnedCanvas
      (_charRenderCanvas
         (@_createCanvas Sample.tenths
            (setDevicePixelRatio Sample.layer (11 # 10)) 110 70)) in
  elementWidth canvas = Some 110%Q /\
  (opt_widthPx (canvasOptions canvas) == 121)%Q /\
  (opt_usableWidthPx (canvasOptions canvas) == 8514618045497345 # 70368744177664)%Q /\
  (opt_widthPx (canvasOptions canvas) < opt_usableWidthPx (canvasOptions canvas))%Q.
Proof. vm_compute. repeat split. Qed.

(** When [mouseOver] resolves a URL other than the one hovered before, on
    a layer that has been laid out, it repaints the frame: the grid of the
    live canvas shows the visible rows with the new URL's link
    highlighted (and no highlight at all when the new URL is "no
    link"). *)
Theorem mouseOver_repaints_frame
    (imports : Imports) this session config viewPortSize pos url fuel :
  _editSession this = Some session ->
  wf_lookup session ->
  _lastConfig this = Some config ->
  _lastViewPortSize this = Some viewPortSize ->
  (enoughFuel config <= fuel)%nat ->
  marker_keeps_paint (_ligatureMarker this) ->
  resolveHoveredURL this pos = Ok url ->
  url <> hoveredURL this ->
  exists rows this' canvas,
    _getVisibleRows this config fuel = Ok rows /\
    mouseOver this pos fuel = Ok this' /\
    hoveredURL this' = url /\
    _charRenderCanvas this' = Some canvas /\
    forall k docRow x,
      nth_error rows k = Some docRow ->
      Z.of_nat k < height (cellGrid canvas) ->
      0 <= x < width (cellGrid canvas) ->
      match getTerminalLine session docRow with
      | Some line =>
          height (lineGrid line) = 1 -> 0 <= lineWidth line ->
          same_paint (Grid.getCell (cellGrid canvas) x (Z.of_nat k))
            (if x <? lineWidth line then shownCell url line x else fillCell)
      | None =>
          same_paint (Grid.getCell (cellGrid canvas) x (Z.of_nat k)) clearedCell
      end.
Proof.
  intros Hs Hwf Hconfig Hview Hfuel Hmarker Hres Hdiff.
  destruct (update_frame (Upd.set_hoveredURL this url) session config viewPortSize fuel
              Hs Hwf Hfuel Hmarker)
    as (rows & this' & canvas & Hrows & Hupd & Hc & Hframe).
  destruct (update_effect (Upd.set_hoveredURL this url) session config viewPortSize fuel
              Hs Hwf Hfuel)
    as (this'' & Hupd' & _ & _ & _ & Hurl & _).
  rewrite Hupd in Hupd'. injection Hupd' as <-.
  exists rows, this', canvas.
  split; [exact Hrows|]. split; [|split; [exact Hurl|split; [exact Hc|exact Hframe]]].
  rewrite (mouseOver_resolved this pos fuel url Hres).
  destruct (JS.strict_neq (hoveredURL this) url) eqn:Hneq.
  - unfold rerender. layer_simpl. rewrite Hconfig, Hview. exact Hupd.
  - apply strict_neq_false in Hneq. congruence.
Qed.

Lemma mouseOver_repaints_frame_witness :
  exists rows this' canvas,
    _getVisibleRows Sample.shown Sample.config05 7 = Ok rows /\
    @mouseOver Sample.imports Sample.shown (Some (mkPosition 0 1)) 7 = Ok this' /\
    hoveredURL this' = Some "http://a"%string /\
    _charRenderCanvas this' = Some canvas /\
    forall k docRow x,
      nth_error rows k = Some docRow ->
      Z.of_nat k < height (cellGrid canvas) ->
      0 <= x < width (cellGrid canvas) ->
      match getTerminalLine Sample.session docRow with
      | Some line =>
          height (lineGrid line) = 1 -> 0 <= lineWidth line ->
          same_paint (Grid.getCell (cellGrid canvas) x (Z.of_nat k))
            (if x <? lineWidth line
             then @shownCell Sample.imports (Some "http://a"%string) line x
             else @fillCell Sample.imports)
      | None =>
          same_paint (Grid.getCell (cellGrid canvas) x (Z.of_nat k))
            (@clearedCell Sample.imports)
      end.
Proof.
  apply (mouseOver_repaints_frame Sample.imports Sample.shown Sample.session
           Sample.config05 Sample.viewPort100 (Some (mkPosition 0 1))
           (Some "http://a"%string) 7).
  - vm_compute. reflexivity.
  - exact sample_session_wf.
  - vm_compute. reflexivity.
  - vm_compute. reflexivity.
  - vm_compute. lia.
  - vm_compute. exact I.
  - vm_compute. reflexivity.
  - vm_compute. discriminate.
Defined.

(** ** Errors *)

(** Before [setSession] the layer cannot paint: [update], [updateRows] and
    [scrollRows] throw, and so does [mouseOver] on a position; they throw
    at the first use of the session, whatever the fuel. *)
Theorem layer_without_session_throws
    (imports : Imports) this config viewPortSize first last p fuel :
  _editSession this = None ->
  update this config viewPortSize fuel = TypeError /\
  updateRows this config viewPortSize first last fuel = TypeError /\
  scrollRows this config viewPortSize fuel = TypeError /\
  mouseOver this (Some p) fuel = TypeError.
Proof.
  intros Hs.
  assert (Hupd : forall this0,
             _editSession this0 = None ->
             update this0 config viewPortSize fuel = TypeError).
  { intros this0 Hs0. unfold update, _getVisibleRows. layer_simpl. now rewrite Hs0. }
  split; [now apply Hupd|]. split; [now apply Hupd|]. split.
  - unfold scrollRows.
    destruct (_charRenderCanvas this) as [canvas|]; [|now apply Hupd].
    destruct (_lastConfig this) as [lastConfig|]; [|reflexivity].
    destruct (Z.abs (firstRow config - firstRow lastConfig) <? height (cellGrid canvas));
      cbn [bind]; now apply Hupd.
  - unfold mouseOver, resolveHoveredURL. now rewrite Hs.
Qed.

Lemma layer_without_session_throws_witness :
  @update Sample.imports (constructor 1 Sample.options) Sample.config05 Sample.viewPort100 7
    = TypeError /\
  @updateRows Sample.imports (constructor 1 Sample.options) Sample.config05
    Sample.viewPort100 0 5 7 = TypeError /\
  @scrollRows Sample.imports (constructor 1 Sample.options) Sample.config05
    Sample.viewPort100 7 = TypeError /\
  @mouseOver Sample.imports (constructor 1 Sample.options) (Some (mkPosition 0 0)) 7
    = TypeError.
Proof.
  apply (layer_without_session_throws Sample.imports (constructor 1 Sample.options)).
  reflexivity.
Defined.

(** [mouseOver] on a position whose row has no terminal line throws: it
    reads the line's width without the test for a missing line that
    [_writeLinesToGrid] makes. *)
Theorem mouseOver_missing_line_throws (imports : Imports) this session p fuel :
  _editSession this = Some session ->
  getTerminalLine session (row p) = None ->
  mouseOver this (Some p) fuel = TypeError.
Proof.
  intros Hs Hline. unfold mouseOver, resolveHoveredURL. now rewrite Hs, Hline.
Qed.

Lemma mouseOver_missing_line_throws_witness :
  @mouseOver Sample.imports Sample.shown (Some (mkPosition 9 0)) 7 = TypeError.
Proof.
  apply (mouseOver_missing_line_throws Sample.imports Sample.shown Sample.session).
  - vm_compute. reflexivity.
  - reflexivity.
Defined.

(** [_highlightLinkID] changes styles only: the size of the grid and every
    other field of every cell stay; a style changes only in row
    [canvasRow], columns [startX] to [endX - 1], in cells of link
    [linkID], where the highlight bit is added; and highlighting twice is
    highlighting once. *)
Theorem highlightLinkID_changes_styles_only
    (imports : Imports) grid canvasRow startX endX linkID0 x y :
  let grid' := _highlightLinkID grid canvasRow startX endX linkID0 in
  let before := Grid.getCell grid x y in
  let after := Grid.getCell grid' x y in
  width grid' = width grid /\
  height grid' = height grid /\
  codePoint after = codePoint before /\
  fgClutIndex after = fgClutIndex before /\
  bgClutIndex after = bgClutIndex before /\
  linkID after = linkID before /\
  ligature after = ligature before /\
  (style after = style before \/
   y = canvasRow /\ startX <= x < endX /\ linkID before = linkID0 /\
   style after = Z.lor (style before) STYLE_MASK_HYPERLINK_HIGHLIGHT) /\
  Grid.getCell (_highlightLinkID grid' canvasRow startX endX linkID0) x y = after.
Proof.
  cbv zeta. unfold Grid.getCell.
  destruct (highlightLinkID_spec grid canvasRow startX endX linkID0) as (Hw & Hh & Hc).
  destruct (highlightLinkID_spec (_highlightLinkID grid canvasRow startX endX linkID0)
              canvasRow startX endX linkID0) as (_ & _ & Hc2).
  rewrite Hc2, (inside_same_size grid _ x y Hw Hh), !Hc.
  split; [exact Hw|]. split; [exact Hh|].
  destruct ((y =? canvasRow) && (startX <=? x) && (x <? endX) && Grid.inside grid x y)
    eqn:Hin.
  - unfold highlightCell.
    destruct (Z.eqb_spec (linkID (cells grid x y)) linkID0) as [Hlink|Hlink].
    + cbn [codePoint fgClutIndex bgClutIndex linkID ligature style Grid.with_style].
      destruct (Z.eqb_spec (linkID (cells grid x y)) linkID0) as [_|Hne]; [|contradiction].
      repeat split.
      * right. rewrite !andb_true_iff in Hin. repeat split; try lia; reflexivity.
      * unfold Grid.with_style. cbn [codePoint fgClutIndex bgClutIndex linkID ligature style].
        now rewrite <- Z.lor_assoc, Z.lor_diag.
    + destruct (Z.eqb_spec (linkID (cells grid x y)) linkID0) as [Heq|_]; [contradiction|].
      repeat split. now left.
  - repeat split. now left.
Qed.
